(** * BayBE: recommender helper, acquisition functions, naive surrogate,
      column transformer

    A shallow embedding of
    - [baybe/strategies/recommender.py]  (module [Recommender]),
    - [baybe/acquisition/acqfs.py]       (module [Acqfs]),
    - [baybe/surrogates/naive.py]        (module [Naive]),
    - [baybe/utils/scaling.py]           (module [Scaling]),
    with the properties the specification states about them.

    Conventions.
    - A Python exception is a value of [exn] (class and message); a call
      that may raise returns a [result].
    - A pandas [DataFrame] is the list of its rows in table order, each row
      paired with its index label.
    - A Python [float] is a [pyfloat]: the rational a double holds, an
      infinity or NaN.  Arithmetic rounds to the nearest double, ties to
      even, and overflows to an infinity; the sign of zero is not
      modelled. *)

From Stdlib Require Import String Ascii DecimalString.
From Stdlib Require Import List ZArith QArith Qround Bool Lia Permutation.
Import ListNotations.

Local Open Scope string_scope.
Local Open Scope list_scope.
Local Open Scope Z_scope.

(* ===================================================================== *)
(** ** Exceptions and the error monad *)

Inductive exn_class :=
| NotEnoughPointsLeftError
| KeyError
| ValueError
| TypeError
| OverflowError.

Record exn := Raise { exn_cls : exn_class; exn_msg : string }.

Inductive result (A : Type) :=
| Ok (a : A)
| Err (e : exn).
Arguments Ok {A} a.
Arguments Err {A} e.

Definition bind {A B} (c : result A) (k : A -> result B) : result B :=
  match c with
  | Ok a => k a
  | Err e => Err e
  end.

Declare Scope result_scope.
Delimit Scope result_scope with result.
Notation "x <- c ;; k" := (bind c (fun x => k))
  (at level 100, c at next level, right associativity) : result_scope.

Definition is_ok {A} (r : result A) : bool :=
  match r with Ok _ => true | Err _ => false end.

Definition exn_cls_of {A} (r : result A) : option exn_class :=
  match r with Ok _ => None | Err e => Some (exn_cls e) end.

Definition raises {A} (r : result A) (c : exn_class) : Prop :=
  exists m, r = Err (Raise c m).

(** [s] occurs in [t]. *)
Definition occurs_in (s t : string) : Prop :=
  exists a b, t = (a ++ s ++ b)%string.

(** [repr] of a Python [int]. *)
Definition repr_int (z : Z) : string :=
  NilEmpty.string_of_int (Z.to_int z).

(* ===================================================================== *)
(** ** Python floats *)

Inductive pyfloat :=
| NegInf
| Fin (q : Q)
| PosInf
| NaN.

(** A binary floating point format: the number of bits of the
    significand, the exponent of the least positive value and the exponent
    of the first power of two that is out of range. *)
Record format := MkFormat { prec : Z; emin : Z; emax : Z }.

Definition binary64 : format := MkFormat 53 (-1074) 1024.
Definition binary32 : format := MkFormat 24 (-149) 128.

(** The formats in use have at least one bit and a least positive value
    that is at most one. *)
Definition well_formed (fmt : format) : Prop :=
  1 <= prec fmt /\ emin fmt <= 0.

(** The integer nearest to [x], the even one of two that are equally
    near. *)
Definition rne (x : Q) : Z :=
  let f := Qfloor x in
  match (x - inject_Z f ?= 1 # 2)%Q with
  | Lt => f
  | Eq => if Z.even f then f else f + 1
  | Gt => f + 1
  end.

(** A magnitude [X >= 0] counted in units of the least positive value,
    rounded to a significand of [p] bits: below [2^p] units every integer
    is a value, from there on every [2^s]-th. *)
Definition grid (p : Z) (X : Q) : Z :=
  let s := Z.max 0 (Z.log2 (Qfloor X) - (p - 1)) in
  rne (X / inject_Z (2 ^ s)) * 2 ^ s.

(** The value of the format nearest to a magnitude [q >= 0]: the
    magnitude is rounded in units of the least positive value, and what
    reaches [2^emax] is out of range. *)
Definition round_pos (fmt : format) (q : Q) : pyfloat :=
  let unit := 2 ^ (- emin fmt) in
  let v := grid (prec fmt) (q * inject_Z unit) in
  if 2 ^ (emax fmt - emin fmt) <=? v then PosInf
  else Fin (Qred (v # Z.to_pos unit)).

(** [- a]. *)
Definition fneg (a : pyfloat) : pyfloat :=
  match a with
  | NegInf => PosInf
  | Fin q => Fin (- q)
  | PosInf => NegInf
  | NaN => NaN
  end.

(** The value of the format nearest to [q], ties to even; an infinity
    beyond the range of the format. *)
Definition round (fmt : format) (q : Q) : pyfloat :=
  if Qle_bool 0 q then round_pos fmt q else fneg (round_pos fmt (- q)).

(** The double nearest to [q]: what Python makes of the literal [q]. *)
Definition double (q : Q) : pyfloat := round binary64 q.

(** The numbers a caller can hand to a [converter=float] field. *)
Inductive pynum :=
| PyInt (z : Z)
| PyFloat (f : pyfloat).

(** [float(x)]: a float is returned as it is; an int is rounded to the
    nearest double, and one beyond the range of the doubles is an
    [OverflowError]. *)
Definition float (x : pynum) : result pyfloat :=
  match x with
  | PyInt z =>
      match double (inject_Z z) with
      | Fin q => Ok (Fin q)
      | _ => Err (Raise OverflowError "int too large to convert to float")
      end
  | PyFloat f => Ok f
  end.

(** [a <= b] on floats; every comparison with NaN is false. *)
Definition fle (a b : pyfloat) : bool :=
  match a, b with
  | NaN, _ | _, NaN => false
  | NegInf, _ => true
  | _, PosInf => true
  | Fin x, Fin y => Qle_bool x y
  | _, _ => false
  end.

(** [a < b], [a >= b], [a > b]. *)
Definition flt (a b : pyfloat) : bool :=
  match a, b with
  | NaN, _ | _, NaN => false
  | _, _ => negb (fle b a)
  end.
Definition fge (a b : pyfloat) : bool := fle b a.
Definition fgt (a b : pyfloat) : bool := flt b a.

(** Sign of a float that is not NaN. *)
Definition fsign (a : pyfloat) : Z :=
  match a with
  | NegInf => -1
  | Fin q => Z.sgn (Qnum q)
  | PosInf => 1
  | NaN => 0
  end.

(** [a * b] in a format, and on Python floats. *)
Definition fmul_at (fmt : format) (a b : pyfloat) : pyfloat :=
  match a, b with
  | NaN, _ | _, NaN => NaN
  | Fin x, Fin y => round fmt (x * y)
  | _, _ =>
      match fsign a * fsign b with
      | Z0 => NaN
      | Zpos _ => PosInf
      | Zneg _ => NegInf
      end
  end.

Definition fmul (a b : pyfloat) : pyfloat := fmul_at binary64 a b.

(** [math.ceil]. *)
Definition ceil (a : pyfloat) : result Z :=
  match a with
  | Fin q => Ok (Qceiling q)
  | NaN => Err (Raise ValueError "cannot convert float NaN to integer")
  | _ => Err (Raise OverflowError "cannot convert float infinity to integer")
  end.

(** Floats denote the same number. *)
Definition feq (a b : pyfloat) : Prop :=
  match a, b with
  | Fin x, Fin y => x == y
  | NegInf, NegInf | PosInf, PosInf | NaN, NaN => True
  | _, _ => False
  end.

(** The values a Python float can hold: rounding leaves them as they
    are. *)
Definition is_double (f : pyfloat) : Prop :=
  match f with
  | Fin q => feq (double q) (Fin q)
  | _ => True
  end.

(** The values of [pynum] that are Python numbers. *)
Definition python_number (x : pynum) : Prop :=
  match x with
  | PyInt _ => True
  | PyFloat f => is_double f
  end.

(* ===================================================================== *)
(** ** Data frames *)

Definition label := Z.

Definition DataFrame (A : Type) := list (label * A).

Definition index {A} (df : DataFrame A) : list label := map fst df.

Definition mem (l : label) (ls : list label) : bool :=
  existsb (Z.eqb l) ls.

(** For each requested label, in the order requested, the rows carrying
    it. *)
Definition rows_at {A} (df : DataFrame A) (idxs : list label)
  : DataFrame A :=
  flat_map (fun i => filter (fun r => fst r =? i) df) idxs.

(** [df.loc[idxs, :]]: the rows at the requested labels; a label absent
    from the index is a [KeyError]. *)
Definition loc {A} (df : DataFrame A) (idxs : list label)
  : result (DataFrame A) :=
  if forallb (fun i => mem i (index df)) idxs
  then Ok (rows_at df idxs)
  else Err (Raise KeyError "not in index").

(** [df.loc[idxs, col] = v], with [upd] the assignment to column [col] in
    one row: every row whose label is requested is updated in place; a label
    absent from the index is a [KeyError] and nothing is written. *)
Definition loc_set {A} (df : DataFrame A) (idxs : list label) (upd : A -> A)
  : result (DataFrame A) :=
  if forallb (fun i => mem i (index df)) idxs
  then Ok (map (fun r => if mem (fst r) idxs then (fst r, upd (snd r)) else r)
               df)
  else Err (Raise KeyError "not in index").

(** [len(df)]. *)
Definition len {A} (df : DataFrame A) : Z := Z.of_nat (length df).

(* ===================================================================== *)
(** ** [baybe/strategies/recommender.py] *)

Module Recommender.

(** One row of the discrete metadata table. *)
Record Metadata := MkMetadata {
  was_recommended : bool;
  was_measured : bool;
  dont_recommend : bool
}.

Definition set_was_recommended (v : bool) (m : Metadata) : Metadata :=
  MkMetadata v (was_measured m) (dont_recommend m).

(** A row of the experimental representation (its cells as displayed) and of
    the computational representation. *)
Definition exp_row := list string.
Definition comp_row := list pyfloat.

(** The search space as the helper uses it: [searchspace.discrete] with
    [exp_rep] and [metadata], [searchspace.continuous] with [empty]. *)
Record SubspaceDiscrete := MkDiscrete {
  exp_rep : DataFrame exp_row;
  comp_rep : DataFrame comp_row;
  metadata : DataFrame Metadata
}.

Record SubspaceContinuous := MkContinuous {
  empty : bool
}.

Record SearchSpace := MkSearchSpace {
  discrete : SubspaceDiscrete;
  continuous : SubspaceContinuous
}.

(** The in-place assignment [searchspace.discrete.metadata = md]. *)
Definition with_metadata (s : SearchSpace) (md : DataFrame Metadata)
  : SearchSpace :=
  MkSearchSpace
    (MkDiscrete (exp_rep (discrete s)) (comp_rep (discrete s)) md)
    (continuous s).

(** The signature of [SubspaceDiscrete.get_candidates]: the two flags in,
    the filtered experimental and computational representations out. *)
Definition get_candidates_t :=
  SubspaceDiscrete -> bool -> bool ->
  DataFrame exp_row * DataFrame comp_row.

(** The per-variant callback [recommend(searchspace, candidates_comp,
    batch_quantity)]: the selected index labels, or an exception.  The
    callback reads the search space and does not write to it. *)
Definition recommend_t :=
  SearchSpace -> DataFrame comp_row -> Z -> result (list label).

Definition not_enough_points_msg (batch_quantity : Z) : string :=
  ("Using the current settings, there are fewer than "
   ++ repr_int batch_quantity
   ++ " possible data points left to recommend. This can be "
   ++ "either because all data points have been measured at some point "
   ++ "(while 'allow_repeated_recommendations' or "
   ++ "'allow_recommending_already_measured' being False) "
   ++ "or because all data points are marked as 'dont_recommend'.")%string.

Section Select.

(** [searchspace.discrete.get_candidates] belongs to the search space
    package; the helper is embedded over any implementation of it. *)
Variable get_candidates : get_candidates_t.

(** [select_candidates_and_recommend]: the value returned or the exception
    raised, and the search space as the call leaves it. *)
Definition select_candidates_and_recommend
    (searchspace : SearchSpace) (recommend : recommend_t)
    (batch_quantity : Z)
    (allow_repeated_recommendations : bool)
    (allow_recommending_already_measured : bool)
  : result (DataFrame exp_row) * SearchSpace :=
  (* Get discrete candidates. *)
  let '(_, candidates_comp) :=
    get_candidates (discrete searchspace)
      (allow_repeated_recommendations
       || negb (empty (continuous searchspace)))
      (allow_recommending_already_measured
       || negb (empty (continuous searchspace))) in
  (* Check if enough candidates are left *)
  if len candidates_comp <? batch_quantity then
    (Err (Raise NotEnoughPointsLeftError
            (not_enough_points_msg batch_quantity)),
     searchspace)
  else
    (* Get recommendations *)
    match recommend searchspace candidates_comp batch_quantity with
    | Err e => (Err e, searchspace)
    | Ok idxs =>
        match loc (exp_rep (discrete searchspace)) idxs with
        | Err e => (Err e, searchspace)
        | Ok rec =>
            (* Update metadata *)
            match loc_set (metadata (discrete searchspace)) idxs
                    (set_was_recommended true) with
            | Err e => (Err e, searchspace)
            | Ok md => (Ok rec, with_metadata searchspace md)
            end
        end
    end.

End Select.

(** The metadata row with label [l]. *)
Definition lookup {A} (l : label) (df : DataFrame A) : option A :=
  option_map snd (find (fun r => fst r =? l) df).

(** Modelled from the spec: the exclusion policy of the candidate set is
    part of the search space package, which is not among the sources.  A
    row is excluded when it is marked [dont_recommend], when it
    [was_recommended] and repeated recommendations are not allowed, or when
    it [was_measured] and recommending measured rows is not allowed. *)
Definition excluded (allow_repeated allow_measured : bool) (m : Metadata)
  : bool :=
  dont_recommend m
  || (negb allow_repeated && was_recommended m)
  || (negb allow_measured && was_measured m).

Definition is_candidate (d : SubspaceDiscrete)
    (allow_repeated allow_measured : bool) (l : label) : bool :=
  match lookup l (metadata d) with
  | Some m => negb (excluded allow_repeated allow_measured m)
  | None => false
  end.

(** Modelled from the spec: [SubspaceDiscrete.get_candidates] is part of the
    search space package, which is not among the sources.  The spec gives
    it the two flags and has it return the experimental and the
    computational representation, each filtered to the rows the policy
    does not exclude. *)
Definition get_candidates : get_candidates_t :=
  fun d allow_repeated allow_measured =>
    let keep {A} (r : label * A) :=
      is_candidate d allow_repeated allow_measured (fst r) in
    (filter keep (exp_rep d), filter keep (comp_rep d)).

(** *** [BayesianRecommender] and its acquisition function mapping *)

(** The acquisition function classes the module imports from [botorch]. *)
Inductive botorch_acqf :=
| PosteriorMean
| ProbabilityOfImprovement
| ExpectedImprovement
| UpperConfidenceBound
| qExpectedImprovement
| qProbabilityOfImprovement
| qUpperConfidenceBound.

(** Keyword arguments, latest binding first. *)
Definition kwargs := list (string * pyfloat).

Definition kw_lookup (name : string) (kw : kwargs) : option pyfloat :=
  option_map snd (find (fun b => String.eqb (fst b) name) kw).

(** A value of the mapping: a class, or [functools.partial(cls, **kw)]. *)
Inductive callable :=
| Class (cls : botorch_acqf)
| Partial (cls : botorch_acqf) (keywords : kwargs).

(** Calling a value of the mapping with keyword arguments [kw]: the class
    that is instantiated and the keyword arguments it receives.  A partial
    object passes [{**self.keywords, **kw}], so a keyword given at the call
    takes precedence over the stored one. *)
Definition call (f : callable) (kw : kwargs) : botorch_acqf * kwargs :=
  match f with
  | Class cls => (cls, kw)
  | Partial cls keywords => (cls, kw ++ keywords)
  end.

(** The exploration weight an instance is built with. *)
Definition beta_of (inst : botorch_acqf * kwargs) : option pyfloat :=
  kw_lookup "beta" (snd inst).

Record BayesianRecommender := MkBayesianRecommender {
  surrogate_model_cls : string;
  acquisition_function_cls : string
}.

(** [BayesianRecommender.__init__] with its defaults. *)
Definition default_BayesianRecommender : BayesianRecommender :=
  MkBayesianRecommender "GP" "qEI".

(** The dictionary [mapping] of [get_acquisition_function_cls]. *)
Definition mapping : list (string * callable) :=
  [ ("PM", Class PosteriorMean);
    ("PI", Class ProbabilityOfImprovement);
    ("EI", Class ExpectedImprovement);
    ("UCB", Partial UpperConfidenceBound [("beta", Fin 1)]);
    ("qEI", Class qExpectedImprovement);
    ("qPI", Class qProbabilityOfImprovement);
    ("qUCB", Partial qUpperConfidenceBound [("beta", Fin 1)]) ].

(** [mapping[key]]. *)
Definition getitem (key : string) : result callable :=
  match find (fun b => String.eqb (fst b) key) mapping with
  | Some b => Ok (snd b)
  | None => Err (Raise KeyError key)
  end.

Section Debotorchize.

(** [baybe.acquisition.debotorchize] wraps the class it is given; the wrapper
    is not part of this module. *)
Variable wrapped : Type.
Variable debotorchize : callable -> wrapped.

Definition get_acquisition_function_cls (self : BayesianRecommender)
  : result wrapped :=
  (cls <- getitem (acquisition_function_cls self) ;;
   Ok (debotorchize cls))%result.

End Debotorchize.

End Recommender.

(* ===================================================================== *)
(** ** [attrs] validators *)

(** A validator receives the attribute name and the value. *)
Definition validator (A : Type) := string -> A -> result unit.

(** [attrs.validators.gt], [ge], [le]: a [ValueError] unless the value
    compares with the bound.  The message of [attrs] continues with the
    bound and the offending value. *)
Definition gt (bound : pyfloat) : validator pyfloat :=
  fun name value =>
    if fgt value bound then Ok tt
    else Err (Raise ValueError ("'" ++ name ++ "' must be >")%string).

Definition ge (bound : pyfloat) : validator pyfloat :=
  fun name value =>
    if fge value bound then Ok tt
    else Err (Raise ValueError ("'" ++ name ++ "' must be >=")%string).

Definition le (bound : pyfloat) : validator pyfloat :=
  fun name value =>
    if fle value bound then Ok tt
    else Err (Raise ValueError ("'" ++ name ++ "' must be <=")%string).

(** [attrs.validators.gt] with an [int] bound on a number that is an [int]
    or a [float]: Python compares the two exactly. *)
Definition num_gt (value : pynum) (bound : Z) : bool :=
  match value with
  | PyInt z => bound <? z
  | PyFloat f => fgt f (Fin (inject_Z bound))
  end.

Definition gt_int (bound : Z) : validator pynum :=
  fun name value =>
    if num_gt value bound then Ok tt
    else Err (Raise ValueError ("'" ++ name ++ "' must be >")%string).

(** [attrs.validators.instance_of(int)] on a number: the integer, or a
    [TypeError]. *)
Definition instance_of_int (name : string) (value : pynum) : result Z :=
  match value with
  | PyInt z => Ok z
  | PyFloat _ =>
      Err (Raise TypeError ("'" ++ name ++ "' must be <class 'int'>")%string)
  end.

(** A list of validators runs them in order. *)
Fixpoint and_ {A} (vs : list (validator A)) : validator A :=
  fun name value =>
    match vs with
    | [] => Ok tt
    | v :: vs' => (_ <- v name value ;; and_ vs' name value)%result
    end.

(* ===================================================================== *)
(** ** [baybe/acquisition/acqfs.py] *)

Module Acqfs.

(** Modelled from the spec: the enumeration [SamplingMethod] of
    [baybe.utils.sampling_algorithms] is not among the sources.  The spec
    names uniform random sampling and a structured, greedy diversity method
    (farthest point sampling). *)
Inductive SamplingMethod :=
| Random
| FPS.

Definition comp_row := list pyfloat.

(** The search space as [get_integration_points] uses it: both parts may be
    [None]; the discrete part has [comp_rep]. *)
Record SubspaceDiscrete := MkDiscrete {
  comp_rep : DataFrame comp_row
}.

(** Modelled from the spec: the continuous part is only handed to
    [samples_random]; the spec gives it box constraints. *)
Record SubspaceContinuous := MkContinuous {
  bounds : list (pyfloat * pyfloat)
}.

Record SearchSpace := MkSearchSpace {
  discrete : option SubspaceDiscrete;
  continuous : option SubspaceContinuous
}.

(** Truth value of an [int | None]: [None] and [0] are falsy. *)
Definition truthy (x : option Z) : bool :=
  match x with
  | Some k => negb (k =? 0)
  | None => false
  end.

(** [sampled_conti.index = new_index]. *)
Definition set_index {A} (df : DataFrame A) (new_index : list label)
  : result (DataFrame A) :=
  if (length new_index =? length df)%nat
  then Ok (combine new_index (map snd df))
  else Err (Raise ValueError "Length mismatch").

(** [pd.concat(parts, axis=1)] for the lists the method builds: one frame,
    or two frames over the same index, whose rows are joined side by
    side. *)
Definition concat_axis1 (parts : list (DataFrame comp_row))
  : result (DataFrame comp_row) :=
  match parts with
  | [] => Err (Raise ValueError "No objects to concatenate")
  | first :: rest =>
      Ok (fold_left
            (fun acc part =>
               map (fun ab => (fst (fst ab), snd (fst ab) ++ snd (snd ab)))
                   (combine acc part))
            rest first)
  end.

Module qNegIntegratedPosteriorVariance.

Definition abbreviation : string := "qNIPV".

Record t := Mk {
  sampling_fraction : pyfloat;
  sampling_n_points : option Z;
  sampling_method : SamplingMethod
}.

(** The constructor [attrs] generates: the converter of
    [sampling_fraction], then the validators field by field. *)
Definition new (sampling_fraction : pynum)
    (sampling_n_points : option pynum) (sampling_method : SamplingMethod)
  : result t :=
  (sampling_fraction <- float sampling_fraction ;;
   _ <- and_ [gt (Fin 0); le (Fin 1)] "sampling_fraction"
          sampling_fraction ;;
   sampling_n_points <-
     match sampling_n_points with
     | None => Ok None
     | Some v =>
         _ <- gt_int 0 "sampling_n_points" v ;;
         k <- instance_of_int "sampling_n_points" v ;;
         Ok (Some k)
     end ;;
   Ok (Mk sampling_fraction sampling_n_points sampling_method))%result.

(** The defaults of the three fields. *)
Definition default_sampling_fraction : pynum := PyFloat (Fin 1).
Definition default_sampling_n_points : option pynum := None.
Definition default_sampling_method : SamplingMethod := Random.

(** [str(self.__class__)]. *)
Definition class_repr : string :=
  "<class 'baybe.acquisition.acqfs.qNegIntegratedPosteriorVariance'>".

Definition purely_continuous_msg : string :=
  ("'sampling_n_points' must be provided for '" ++ class_repr ++ "' when"
   ++ "sampling purely continuous search spaces.")%string.

Section Sampling.

(** [sample_numerical_df(df, n_points, method=...)] and
    [SubspaceContinuous.samples_random(n)] are defined outside this module;
    one call of either is a function of its arguments. *)
Variable sample_numerical_df :
  DataFrame comp_row -> Z -> SamplingMethod -> result (DataFrame comp_row).
Variable samples_random :
  SubspaceContinuous -> Z -> result (DataFrame comp_row).

(** [math.ceil(self.sampling_fraction * len(candidates_discrete))]: the
    length is converted to a float for the product, which is rounded to a
    double before [math.ceil] sees it. *)
Definition ceil_of_fraction (self : t)
    (candidates_discrete : DataFrame comp_row) : result Z :=
  (size <- float (PyInt (len candidates_discrete)) ;;
   ceil (fmul (sampling_fraction self) size))%result.

(** [self.sampling_n_points or math.ceil(self.sampling_fraction *
    len(candidates_discrete))]: the right operand is evaluated only when the
    left one is falsy. *)
Definition n_candidates_discrete (self : t)
    (candidates_discrete : DataFrame comp_row) : result Z :=
  match sampling_n_points self with
  | Some k =>
      if truthy (Some k) then Ok k
      else ceil_of_fraction self candidates_discrete
  | None => ceil_of_fraction self candidates_discrete
  end.

(** The block [# Discrete part]: [sampled_parts] and [n_candidates] after
    it. *)
Definition discrete_part (self : t) (searchspace : SearchSpace)
  : result (list (DataFrame comp_row) * option Z) :=
  match discrete searchspace with
  | Some d =>
      let candidates_discrete := comp_rep d in
      (n_candidates <- n_candidates_discrete self candidates_discrete ;;
       sampled_disc <-
         sample_numerical_df candidates_discrete n_candidates
           (sampling_method self) ;;
       Ok ([sampled_disc], Some n_candidates))%result
  | None => Ok ([], None)
  end.

(** The block [# Continuous part], from the state the discrete block
    left. *)
Definition continuous_part (self : t) (searchspace : SearchSpace)
    (sampled_parts : list (DataFrame comp_row)) (n_candidates : option Z)
  : result (list (DataFrame comp_row)) :=
  match continuous searchspace with
  | Some c =>
      let n_candidates :=
        if truthy n_candidates then n_candidates
        else sampling_n_points self in
      match n_candidates with
      | None => Err (Raise ValueError purely_continuous_msg)
      | Some n =>
          (sampled_conti <- samples_random c n ;;
           sampled_conti <-
             match sampled_parts with
             | first :: _ => set_index sampled_conti (index first)
             | [] => Ok sampled_conti
             end ;;
           Ok (sampled_parts ++ [sampled_conti]))%result
      end
  | None => Ok sampled_parts
  end.

Definition get_integration_points (self : t) (searchspace : SearchSpace)
  : result (DataFrame comp_row) :=
  (st <- discrete_part self searchspace ;;
   sampled_parts <- continuous_part self searchspace (fst st) (snd st) ;;
   concat_axis1 sampled_parts)%result.

End Sampling.

End qNegIntegratedPosteriorVariance.

Module UpperConfidenceBound.

Definition abbreviation : string := "UCB".

Record t := Mk { beta : pyfloat }.

Definition new (beta : pynum) : result t :=
  (beta <- float beta ;;
   _ <- ge (Fin 0) "beta" beta ;;
   Ok (Mk beta))%result.

Definition default_beta : pynum := PyFloat (double (2 # 10)).

End UpperConfidenceBound.

Module qUpperConfidenceBound.

Definition abbreviation : string := "qUCB".

Record t := Mk { beta : pyfloat }.

Definition new (beta : pynum) : result t :=
  (beta <- float beta ;;
   _ <- ge (Fin 0) "beta" beta ;;
   Ok (Mk beta))%result.

Definition default_beta : pynum := PyFloat (double (2 # 10)).

End qUpperConfidenceBound.

End Acqfs.

(* ===================================================================== *)
(** ** Tensors *)

(** A one-dimensional tensor is the list of its entries, a two-dimensional
    one the list of its rows. *)
Definition Tensor1 := list pyfloat.
Definition Tensor2 := list (list pyfloat).

(** The floating point types of the tensors: baybe computes in [float64],
    or in [float32] when it is told to; [torch.ones] takes the default
    dtype of [torch], which is [float32] unless the program sets
    another. *)
Inductive dtype :=
| float32
| float64.

Definition format_of (d : dtype) : format :=
  match d with
  | float32 => binary32
  | float64 => binary64
  end.

(** A number as a value of the dtype. *)
Definition cast (d : dtype) (a : pyfloat) : pyfloat :=
  match a with
  | Fin q => round (format_of d) q
  | _ => a
  end.

(** [a + b] in a format. *)
Definition fadd_at (fmt : format) (a b : pyfloat) : pyfloat :=
  match a, b with
  | NaN, _ | _, NaN => NaN
  | Fin x, Fin y => round fmt (x + y)
  | PosInf, NegInf | NegInf, PosInf => NaN
  | PosInf, _ | _, PosInf => PosInf
  | NegInf, _ | _, NegInf => NegInf
  end.

(** [a / b] in a format; a zero divisor counts as positive. *)
Definition fdiv_at (fmt : format) (a b : pyfloat) : pyfloat :=
  match a, b with
  | NaN, _ | _, NaN => NaN
  | Fin x, Fin y =>
      if Qeq_bool y 0 then
        match (x ?= 0)%Q with
        | Eq => NaN
        | Gt => PosInf
        | Lt => NegInf
        end
      else round fmt (x / y)
  | Fin _, _ => Fin 0
  | PosInf, Fin y => if Qle_bool 0 y then PosInf else NegInf
  | NegInf, Fin y => if Qle_bool 0 y then NegInf else PosInf
  | _, _ => NaN
  end.

(** The entry at position [i], counted modulo the length, and the list
    without it. *)
Definition pick {A} (i : nat) (l : list A) (default : A) : A * list A :=
  let k := (i mod length l)%nat in
  (nth k l default, firstn k l ++ skipn (S k) l).

(** [torch] adds up the entries of a tensor in an order of its own (in
    vector lanes, in blocks).  The partial sums still to be added are kept
    in a list; [pair k] names the two of them that are added when [k] are
    left, and their sum takes their place.  Every entry enters the sum
    once, whatever [pair] is. *)
Fixpoint sum_loop (fmt : format) (pair : nat -> nat * nat) (fuel : nat)
    (partial : list pyfloat) : pyfloat :=
  match partial with
  | [] => Fin 0
  | [a] => a
  | a :: _ :: _ =>
      match fuel with
      | O => a
      | S fuel' =>
          let '(i, j) := pair (length partial) in
          let '(x, rest) := pick i partial a in
          let '(y, rest) := pick j rest a in
          sum_loop fmt pair fuel' (fadd_at fmt x y :: rest)
      end
  end.

(** [t.sum()] for a tensor of dtype [d], with [order n] the pairs for a
    tensor of [n] entries. *)
Definition tsum (d : dtype) (order : nat -> nat -> nat * nat)
    (t : Tensor1) : pyfloat :=
  sum_loop (format_of d) (order (length t)) (length t) t.

(** [t.mean()]: the sum divided by the number of entries, in the dtype of
    the tensor (on the CPU). *)
Definition tmean (d : dtype) (order : nat -> nat -> nat * nat)
    (t : Tensor1) : pyfloat :=
  fdiv_at (format_of d) (tsum d order t)
    (cast d (Fin (inject_Z (Z.of_nat (length t))))).

(** [torch.ones(n)], whose entries are [1.0] in every dtype, and [s * t]
    for a Python float [s] and a tensor [t] of dtype [d]: the float becomes
    a value of the dtype, and so does each product. *)
Definition ones (n : nat) : Tensor1 := repeat (Fin 1) n.

Definition scale (d : dtype) (s : pyfloat) (t : Tensor1) : Tensor1 :=
  map (fmul_at (format_of d) (cast d s)) t.

(* ===================================================================== *)
(** ** [baybe/surrogates/naive.py] *)

Module Naive.

Module MeanPredictionSurrogate.

Definition joint_posterior : bool := false.
Definition supports_transfer_learning : bool := false.

(** The only object variable, [None] until the model is fitted. *)
Record t := Mk { _model : option pyfloat }.

(** [field(init=False, default=None)]. *)
Definition new : t := Mk None.

Section Torch.

(** The dtype of the training targets, the default dtype of [torch], and
    the order in which [torch] adds up the targets. *)
Variable target_dtype : dtype.
Variable default_dtype : dtype.
Variable order : nat -> nat -> nat * nat.

(** [_estimate_moments] on a candidate matrix without batch dimensions, for
    which the [batchify] wrapper calls the method once, as it is.
    Multiplying [None] with a tensor is a [TypeError]. *)
Definition _estimate_moments (self : t) (candidates_comp_scaled : Tensor2)
  : result (Tensor1 * Tensor1) :=
  match _model self with
  | None =>
      Err (Raise TypeError
             "unsupported operand type(s) for *: 'NoneType' and 'Tensor'")
  | Some m =>
      let mean :=
        scale default_dtype m (ones (length candidates_comp_scaled)) in
      let var := ones (length candidates_comp_scaled) in
      Ok (mean, var)
  end.

(** [_fit]: the object after the assignment to [self._model]; [item()]
    hands the mean over as a Python float of the same value. *)
Definition _fit (self : t) (train_x : Tensor2) (train_y : Tensor1) : t :=
  Mk (Some (tmean target_dtype order train_y)).

End Torch.

End MeanPredictionSurrogate.

End Naive.

(* ===================================================================== *)
(** ** [baybe/utils/scaling.py] *)

Module Scaling.

(** A value of the mapping: an [InputTransform] object (named by its
    class), or an object of another type (given by its [repr]). *)
Inductive pyobject :=
| InputTransform (cls : string)
| Other (repr : string).

(** A [dict] is the list of its items in insertion order; its keys are
    pairwise different. *)
Definition dict (K V : Type) := list (K * V).
Definition keys {K V} (d : dict K V) : list K := map fst d.

Definition columns := list Z.

(** [repr] of a tuple of integers: [()], [(0,)], [(0, 1)]. *)
Fixpoint repr_items (xs : list Z) : string :=
  match xs with
  | [] => EmptyString
  | [x] => repr_int x
  | x :: rest => (repr_int x ++ ", " ++ repr_items rest)%string
  end.

Definition repr_tuple (xs : columns) : string :=
  match xs with
  | [x] => ("(" ++ repr_int x ++ ",)")%string
  | _ => ("(" ++ repr_items xs ++ ")")%string
  end.

(** [itertools.combinations(l, 2)]. *)
Fixpoint combinations2 {A} (l : list A) : list (A * A) :=
  match l with
  | [] => []
  | x :: rest => map (pair x) rest ++ combinations2 rest
  end.

(** [set(x).isdisjoint(y)]. *)
Definition isdisjoint (x y : columns) : bool :=
  negb (existsb (fun a => mem a y) x).

Definition not_disjoint_msg (x y : columns) : string :=
  ("The provided column specifications " ++ repr_tuple x ++ " and "
   ++ repr_tuple y ++ " are not disjoint.")%string.

(** The validator [deep_mapping] builds: each value must be an
    [InputTransform].  Keys are tuples of integers by their type here. *)
Fixpoint _validate_mapping_types_lazily (value : dict columns pyobject)
  : result unit :=
  match value with
  | [] => Ok tt
  | (_, InputTransform _) :: rest => _validate_mapping_types_lazily rest
  | (_, Other _) :: _ =>
      Err (Raise TypeError
             "'mapping' must be <class 'InputTransform'>")
  end.

(** The loop of [_validate_mapping_is_disjoint] over the pairs still to
    visit. *)
Fixpoint check_pairs (pairs : list (columns * columns)) : result unit :=
  match pairs with
  | [] => Ok tt
  | (x, y) :: rest =>
      if negb (isdisjoint x y)
      then Err (Raise ValueError (not_disjoint_msg x y))
      else check_pairs rest
  end.

Definition _validate_mapping_is_disjoint (value : dict columns pyobject)
  : result unit :=
  check_pairs (combinations2 (keys value)).

Record ColumnTransformer := Mk {
  mapping : dict columns pyobject
}.

(** The constructor: the two validators of [mapping], in the order of
    their definition. *)
Definition new (mapping : dict columns pyobject) : result ColumnTransformer :=
  (_ <- _validate_mapping_types_lazily mapping ;;
   _ <- _validate_mapping_is_disjoint mapping ;;
   Ok (Mk mapping))%result.

End Scaling.

(* ===================================================================== *)
(** ** Concrete inputs *)

Module Inputs.

Import Recommender.

(** Three rows; row [0] was recommended in an earlier call. *)
Definition space3 : Recommender.SearchSpace :=
  Recommender.MkSearchSpace
    (Recommender.MkDiscrete
       [(0, ["A"]); (1, ["B"]); (2, ["C"])]
       [(0, [Fin 0]); (1, [Fin 1]); (2, [Fin 2])]
       [(0, MkMetadata true false false);
        (1, MkMetadata false false false);
        (2, MkMetadata false false false)])
    (Recommender.MkContinuous true).

(** The same rows next to a continuous part that is not empty. *)
Definition space3_hybrid : Recommender.SearchSpace :=
  Recommender.MkSearchSpace (Recommender.discrete space3)
    (Recommender.MkContinuous false).

(** A callback that takes the first [batch_quantity] candidates. *)
Definition take_first : recommend_t :=
  fun _ candidates_comp batch_quantity =>
    Ok (firstn (Z.to_nat batch_quantity) (index candidates_comp)).

(** Two orders of summation: the entries one after the other, and the
    last two partial sums first. *)
Definition index_order : nat -> nat -> nat * nat :=
  fun _ _ => (0%nat, 0%nat).


(** Five discrete rows, one continuous parameter on [[0, 1]]. *)
Definition discrete5 : Acqfs.SubspaceDiscrete :=
  Acqfs.MkDiscrete
    [(10, [Fin 0]); (11, [Fin 1]); (12, [Fin 2]); (13, [Fin 3]);
     (14, [Fin 4])].

Definition unit_box : Acqfs.SubspaceContinuous :=
  Acqfs.MkContinuous [(Fin 0, Fin 1)].

Definition continuous_space : Acqfs.SearchSpace :=
  Acqfs.MkSearchSpace None (Some unit_box).

Definition discrete_space5 : Acqfs.SearchSpace :=
  Acqfs.MkSearchSpace (Some discrete5) None.

Definition hybrid_space5 : Acqfs.SearchSpace :=
  Acqfs.MkSearchSpace (Some discrete5) (Some unit_box).

(** A discrete part without rows next to the continuous parameter. *)
Definition hybrid_space0 : Acqfs.SearchSpace :=
  Acqfs.MkSearchSpace (Some (Acqfs.MkDiscrete [])) (Some unit_box).

(** One outcome of [sample_numerical_df]: the first [n_points] rows; more
    rows than the frame has cannot be drawn. *)
Definition sample_head (df : DataFrame Acqfs.comp_row) (n_points : Z)
    (method : Acqfs.SamplingMethod) : result (DataFrame Acqfs.comp_row) :=
  if (0 <=? n_points) && (n_points <=? len df)
  then Ok (firstn (Z.to_nat n_points) df)
  else Err (Raise ValueError
              "Cannot take a larger sample than population").

(** One outcome of [samples_random]: [n] rows labelled [0 .. n-1], each at
    the lower bounds. *)
Definition samples_lower (c : Acqfs.SubspaceContinuous) (n : Z)
  : result (DataFrame Acqfs.comp_row) :=
  if 0 <=? n
  then Ok (map (fun i => (Z.of_nat i, map fst (Acqfs.bounds c)))
               (seq 0 (Z.to_nat n)))
  else Err (Raise ValueError "negative dimensions are not allowed").

(** Instances with the default fraction, with fraction one half, and with
    three integration points. *)
Definition qnipv_default : Acqfs.qNegIntegratedPosteriorVariance.t :=
  Acqfs.qNegIntegratedPosteriorVariance.Mk (Fin 1) None Acqfs.Random.

Definition qnipv_half : Acqfs.qNegIntegratedPosteriorVariance.t :=
  Acqfs.qNegIntegratedPosteriorVariance.Mk (Fin (1 # 2)) None Acqfs.Random.

Definition qnipv_three : Acqfs.qNegIntegratedPosteriorVariance.t :=
  Acqfs.qNegIntegratedPosteriorVariance.Mk (Fin 1) (Some 3) Acqfs.Random.

(** Column groups that are disjoint, and that overlap in column [1]. *)
Definition disjoint_groups : Scaling.dict Scaling.columns Scaling.pyobject :=
  [([0; 1], Scaling.InputTransform "Normalize");
   ([2], Scaling.InputTransform "InputStandardize")].

Definition overlapping_groups
  : Scaling.dict Scaling.columns Scaling.pyobject :=
  [([0; 1], Scaling.InputTransform "Normalize");
   ([3], Scaling.InputTransform "Normalize");
   ([1; 2], Scaling.InputTransform "InputStandardize")].

End Inputs.

(* ===================================================================== *)
(** ** Vocabulary of the properties *)

Module Statements.

Import Recommender.



(** How the helper leaves a metadata row: [was_recommended] is set when the
    label was selected and kept otherwise; the other flags are kept. *)
Definition marked (idxs : list label)
    (old new : label * Metadata) : Prop :=
  fst new = fst old /\
  was_recommended (snd new)
    = (mem (fst old) idxs || was_recommended (snd old)) /\
  was_measured (snd new) = was_measured (snd old) /\
  dont_recommend (snd new) = dont_recommend (snd old).

(** The instances of [qNegIntegratedPosteriorVariance]: what its
    constructor returns for a Python number as the fraction. *)
Definition constructed (self : Acqfs.qNegIntegratedPosteriorVariance.t)
  : Prop :=
  exists sampling_fraction sampling_n_points sampling_method,
    python_number sampling_fraction /\
    Acqfs.qNegIntegratedPosteriorVariance.new
      sampling_fraction sampling_n_points sampling_method = Ok self.

(** Modelled from the spec: [sample_numerical_df] belongs to
    [baybe.utils.sampling_algorithms], which is not among the sources.  The
    spec has it sample that many rows from the discrete computational
    representation: a call that returns gives [n_points] rows, each of them
    a row of the frame. *)
Definition samples_the_rows_asked
    (sample_numerical_df :
       DataFrame Acqfs.comp_row -> Z -> Acqfs.SamplingMethod ->
       result (DataFrame Acqfs.comp_row)) : Prop :=
  forall df n_points method sampled,
    sample_numerical_df df n_points method = Ok sampled ->
    len sampled = n_points /\ incl sampled df.

(** The number of rows up to which a double holds every count exactly. *)
Definition exact_counts : Z := 2 ^ 53.





(** Two frames over one index side by side, as [pd.concat(axis=1)] lays
    them out. *)
Definition side_by_side (a b : DataFrame Acqfs.comp_row)
  : DataFrame Acqfs.comp_row :=
  map (fun ab => (fst (fst ab), snd (fst ab) ++ snd (snd ab)))
      (combine a b).

(** [x] and [y] are two keys of the dictionary, [x] before [y]. *)
Definition two_keys {V} (d : Scaling.dict Scaling.columns V)
    (x y : Scaling.columns) : Prop :=
  exists i j,
    (i < j)%nat /\
    nth_error (Scaling.keys d) i = Some x /\
    nth_error (Scaling.keys d) j = Some y.

(** Two column tuples share a column index. *)
Definition share_a_column (x y : Scaling.columns) : Prop :=
  exists a, In a x /\ In a y.

(** Every value of the dictionary is an [InputTransform]. *)
Definition values_are_transforms
    (d : Scaling.dict Scaling.columns Scaling.pyobject) : Prop :=
  Forall (fun kv => exists cls, snd kv = Scaling.InputTransform cls) d.

End Statements.

(* ===================================================================== *)
(** ** Exceptions of the callers *)

(** The recommenders and the tensor code raise further exception classes
    besides those of [exn]. *)
Inductive raised :=
| Builtin (e : exn)
| NotImplementedError
| AttributeError (msg : string)
| IndexError (msg : string)
| RuntimeError (msg : string).

Inductive outcome (A : Type) :=
| Returns (a : A)
| Raises (r : raised).
Arguments Returns {A} a.
Arguments Raises {A} r.

(** A [result] as an [outcome]. *)
Definition lift {A} (r : result A) : outcome A :=
  match r with
  | Ok a => Returns a
  | Err e => Raises (Builtin e)
  end.

Definition obind {A B} (c : outcome A) (k : A -> outcome B) : outcome B :=
  match c with
  | Returns a => k a
  | Raises r => Raises r
  end.

Declare Scope outcome_scope.
Delimit Scope outcome_scope with outcome.
Notation "x <- c ;; k" := (obind c (fun x => k))
  (at level 100, c at next level, right associativity) : outcome_scope.

Definition returns {A} (o : outcome A) : bool :=
  match o with Returns _ => true | Raises _ => false end.

(* ===================================================================== *)
(** ** Dictionaries with string keys *)

(** [d[key] = value] on a dictionary kept in insertion order: the value of
    an existing key is replaced where it stands, a new key is appended. *)
Fixpoint dict_set {V} (d : list (string * V)) (key : string) (value : V)
  : list (string * V) :=
  match d with
  | [] => [(key, value)]
  | (k, v) :: rest =>
      if String.eqb k key then (k, value) :: rest
      else (k, v) :: dict_set rest key value
  end.

(** [d.get(key)]. *)
Definition dict_get {V} (d : list (string * V)) (key : string) : option V :=
  option_map snd (find (fun kv => String.eqb (fst kv) key) d).

(* ===================================================================== *)
(** ** [baybe/strategies/recommender.py]: the recommender classes *)

Module Recommenders.

Import Recommender.

(** Modelled from the spec: the enumeration [SearchSpaceType] belongs to the
    search space package, which is not among the sources.  The spec names
    its three members. *)
Inductive SearchSpaceType :=
| DISCRETE
| CONTINUOUS
| HYBRID.

(** The training data: a frame of numbers. *)
Definition train_frame := DataFrame comp_row.

(** A per-variant callback that may raise any exception. *)
Definition recommend_any_t :=
  SearchSpace -> DataFrame comp_row -> Z -> outcome (list label).

Section Helper.

Variable get_candidates : get_candidates_t.

(** [select_candidates_and_recommend] once more, for a callback that may
    raise any exception (the base classes pass one that raises
    [NotImplementedError]). *)
Definition select_candidates_and_recommend'
    (searchspace : SearchSpace) (recommend : recommend_any_t)
    (batch_quantity : Z)
    (allow_repeated_recommendations : bool)
    (allow_recommending_already_measured : bool)
  : outcome (DataFrame exp_row) * SearchSpace :=
  let '(_, candidates_comp) :=
    get_candidates (discrete searchspace)
      (allow_repeated_recommendations
       || negb (empty (continuous searchspace)))
      (allow_recommending_already_measured
       || negb (empty (continuous searchspace))) in
  if len candidates_comp <? batch_quantity then
    (Raises (Builtin (Raise NotEnoughPointsLeftError
                        (not_enough_points_msg batch_quantity))),
     searchspace)
  else
    match recommend searchspace candidates_comp batch_quantity with
    | Raises r => (Raises r, searchspace)
    | Returns idxs =>
        match loc (exp_rep (discrete searchspace)) idxs with
        | Err e => (Raises (Builtin e), searchspace)
        | Ok rec =>
            match loc_set (metadata (discrete searchspace)) idxs
                    (set_was_recommended true) with
            | Err e => (Raises (Builtin e), searchspace)
            | Ok md => (Returns rec, with_metadata searchspace md)
            end
        end
    end.

End Helper.

(** *** [Recommender.__init_subclass__] *)

(** A class as the registration sees it: its name, its attribute [type] if
    it has one, and what [isabstract] says about it. *)
Record class_def := MkClass {
  cls_name : string;
  cls_type : option string;
  cls_abstract : bool
}.

(** The registration of one new subclass in [SUBCLASSES]. *)
Definition __init_subclass__ (SUBCLASSES : list (string * class_def))
    (cls : class_def) : outcome (list (string * class_def)) :=
  if negb (cls_abstract cls) then
    match cls_type cls with
    | Some ty => Returns (dict_set SUBCLASSES ty cls)
    | None =>
        Raises (AttributeError
                  ("type object '" ++ cls_name cls
                   ++ "' has no attribute 'type'")%string)
    end
  else Returns SUBCLASSES.

(** The registry after a sequence of class definitions, the first of which
    to fail ends the sequence with its exception. *)
Fixpoint define_classes (SUBCLASSES : list (string * class_def))
    (classes : list class_def) : outcome (list (string * class_def)) :=
  match classes with
  | [] => Returns SUBCLASSES
  | cls :: rest =>
      (registry <- __init_subclass__ SUBCLASSES cls ;;
       define_classes registry rest)%outcome
  end.

(** *** [NonPredictiveRecommender] *)

Module NonPredictiveRecommender.

(** An object of the class or of a subclass: the three methods a subclass
    may override. *)
Record t := Mk {
  _recommend_discrete : recommend_any_t;
  _recommend_continuous : SearchSpace -> Z -> outcome (DataFrame exp_row);
  _recommend_hybrid : SearchSpace -> Z -> outcome (DataFrame exp_row)
}.

(** The class itself, which overrides nothing. *)
Definition base : t :=
  Mk (fun _ _ _ => Raises NotImplementedError)
     (fun _ _ => Raises NotImplementedError)
     (fun _ _ => Raises NotImplementedError).

Section Recommend.

Variable get_candidates : get_candidates_t.
(** [searchspace.type]. *)
Variable searchspace_type : SearchSpace -> SearchSpaceType.

Definition recommend (self : t) (searchspace : SearchSpace)
    (train_x train_y : train_frame) (batch_quantity : Z)
    (allow_repeated_recommendations : bool)
    (allow_recommending_already_measured : bool)
  : outcome (DataFrame exp_row) * SearchSpace :=
  match searchspace_type searchspace with
  | DISCRETE =>
      select_candidates_and_recommend' get_candidates searchspace
        (_recommend_discrete self) batch_quantity
        allow_repeated_recommendations allow_recommending_already_measured
  | CONTINUOUS =>
      (_recommend_continuous self searchspace batch_quantity, searchspace)
  | HYBRID => (Raises NotImplementedError, searchspace)
  end.

End Recommend.

End NonPredictiveRecommender.

(** *** [BayesianRecommender] *)

Module BayesianRecommender.

Section Recommend.

(** Surrogate model classes and objects, acquisition function objects and
    the value of [train_y.max()] come from other packages. *)
Variables surrogate_cls surrogate acqf best_f : Type.

(** An object of the class or of a subclass: the two names given to
    [__init__] and the three methods a subclass may override. *)
Record t := Mk {
  surrogate_model_cls : string;
  acquisition_function_cls : string;
  _recommend_discrete : acqf -> recommend_any_t;
  _recommend_continuous :
    acqf -> SearchSpace -> Z -> outcome (DataFrame exp_row);
  _recommend_hybrid :
    acqf -> SearchSpace -> Z -> outcome (DataFrame exp_row)
}.

Variable get_candidates : get_candidates_t.
(** [searchspace.type]. *)
Variable searchspace_type : SearchSpace -> SearchSpaceType.
(** [SurrogateModel.SUBCLASSES]. *)
Variable SUBCLASSES : list (string * surrogate_cls).
(** [surrogate_model_cls(searchspace)] followed by
    [surrogate_model.fit( *to_tensor(train_x, train_y))]: the fitted model,
    or the exception of the constructor, the conversion or the fit. *)
Variable construct_and_fit :
  surrogate_cls -> SearchSpace -> train_frame -> train_frame ->
  outcome surrogate.
(** [train_y.max()]. *)
Variable train_max : train_frame -> best_f.
(** [debotorchize(cls)], called with the fitted model and [best_f]. *)
Variable debotorchize : callable -> surrogate -> best_f -> outcome acqf.

(** [train_x.index.equals(train_y.index)]. *)
Definition index_equals (train_x train_y : train_frame) : bool :=
  if list_eq_dec Z.eq_dec (index train_x) (index train_y)
  then true else false.

Definition get_surrogate_model_cls (self : t) : outcome surrogate_cls :=
  match find (fun kv => String.eqb (fst kv) (surrogate_model_cls self))
             SUBCLASSES with
  | Some kv => Returns (snd kv)
  | None => Raises (Builtin (Raise KeyError (surrogate_model_cls self)))
  end.

Definition _fit (self : t) (searchspace : SearchSpace)
    (train_x train_y : train_frame) : outcome surrogate :=
  if negb (index_equals train_x train_y) then
    Raises (Builtin (Raise ValueError
              "Training inputs and targets must have the same index."))
  else
    (surrogate_model_cls <- get_surrogate_model_cls self ;;
     construct_and_fit surrogate_model_cls searchspace train_x train_y
    )%outcome.

Definition recommend (self : t) (searchspace : SearchSpace)
    (train_x train_y : train_frame) (batch_quantity : Z)
    (allow_repeated_recommendations : bool)
    (allow_recommending_already_measured : bool)
  : outcome (DataFrame exp_row) * SearchSpace :=
  let best_f := train_max train_y in
  match
    (surrogate_model <- _fit self searchspace train_x train_y ;;
     acquisition_function_cls <-
       lift (get_acquisition_function_cls _ debotorchize
               (MkBayesianRecommender (surrogate_model_cls self)
                  (acquisition_function_cls self))) ;;
     acquisition_function_cls surrogate_model best_f)%outcome
  with
  | Raises r => (Raises r, searchspace)
  | Returns acqf =>
      match searchspace_type searchspace with
      | DISCRETE =>
          select_candidates_and_recommend' get_candidates searchspace
            (_recommend_discrete self acqf) batch_quantity
            allow_repeated_recommendations
            allow_recommending_already_measured
      | CONTINUOUS =>
          (_recommend_continuous self acqf searchspace batch_quantity,
           searchspace)
      | HYBRID => (Raises NotImplementedError, searchspace)
      end
  end.

End Recommend.

End BayesianRecommender.

End Recommenders.

(* ===================================================================== *)
(** ** [baybe/acquisition/acqfs.py]: the classes and their abbreviations *)

Module AcqfsClasses.

(** The classes of the module, in the order of their definition. *)
Inductive acqf_class :=
| qNegIntegratedPosteriorVariance
| PosteriorMean
| qSimpleRegret
| ExpectedImprovement
| qExpectedImprovement
| LogExpectedImprovement
| qLogExpectedImprovement
| qNoisyExpectedImprovement
| qLogNoisyExpectedImprovement
| ProbabilityOfImprovement
| qProbabilityOfImprovement
| UpperConfidenceBound
| qUpperConfidenceBound.

Definition all_classes : list acqf_class :=
  [qNegIntegratedPosteriorVariance; PosteriorMean; qSimpleRegret;
   ExpectedImprovement; qExpectedImprovement; LogExpectedImprovement;
   qLogExpectedImprovement; qNoisyExpectedImprovement;
   qLogNoisyExpectedImprovement; ProbabilityOfImprovement;
   qProbabilityOfImprovement; UpperConfidenceBound; qUpperConfidenceBound].

(** [cls.__name__]. *)
Definition class_name (c : acqf_class) : string :=
  match c with
  | qNegIntegratedPosteriorVariance => "qNegIntegratedPosteriorVariance"
  | PosteriorMean => "PosteriorMean"
  | qSimpleRegret => "qSimpleRegret"
  | ExpectedImprovement => "ExpectedImprovement"
  | qExpectedImprovement => "qExpectedImprovement"
  | LogExpectedImprovement => "LogExpectedImprovement"
  | qLogExpectedImprovement => "qLogExpectedImprovement"
  | qNoisyExpectedImprovement => "qNoisyExpectedImprovement"
  | qLogNoisyExpectedImprovement => "qLogNoisyExpectedImprovement"
  | ProbabilityOfImprovement => "ProbabilityOfImprovement"
  | qProbabilityOfImprovement => "qProbabilityOfImprovement"
  | UpperConfidenceBound => "UpperConfidenceBound"
  | qUpperConfidenceBound => "qUpperConfidenceBound"
  end.

(** The class variable [abbreviation]. *)
Definition abbreviation (c : acqf_class) : string :=
  match c with
  | qNegIntegratedPosteriorVariance => "qNIPV"
  | PosteriorMean => "PM"
  | qSimpleRegret => "qSR"
  | ExpectedImprovement => "EI"
  | qExpectedImprovement => "qEI"
  | LogExpectedImprovement => "LogEI"
  | qLogExpectedImprovement => "qLogEI"
  | qNoisyExpectedImprovement => "qNEI"
  | qLogNoisyExpectedImprovement => "qLogNEI"
  | ProbabilityOfImprovement => "PI"
  | qProbabilityOfImprovement => "qPI"
  | UpperConfidenceBound => "UCB"
  | qUpperConfidenceBound => "qUCB"
  end.

(** The name under which [recommender.py] imports a class of [botorch]. *)
Definition botorch_name (c : Recommender.botorch_acqf) : string :=
  match c with
  | Recommender.PosteriorMean => "PosteriorMean"
  | Recommender.ProbabilityOfImprovement => "ProbabilityOfImprovement"
  | Recommender.ExpectedImprovement => "ExpectedImprovement"
  | Recommender.UpperConfidenceBound => "UpperConfidenceBound"
  | Recommender.qExpectedImprovement => "qExpectedImprovement"
  | Recommender.qProbabilityOfImprovement => "qProbabilityOfImprovement"
  | Recommender.qUpperConfidenceBound => "qUpperConfidenceBound"
  end.

End AcqfsClasses.

(* ===================================================================== *)
(** ** [baybe/utils/scaling.py]: fitting and transforming *)

Module ColumnTransforms.

Import Scaling.

(** A tensor of two dimensions: the size of its last dimension and its
    rows.  [x[..., cols]] reads and writes along the last dimension, so
    leading dimensions only multiply the rows. *)
Record tensor := MkTensor {
  ncols : nat;
  rows : list (list pyfloat)
}.

(** The position a column index names in a dimension of size [width]:
    indices count from the front, negative ones from the back. *)
Definition resolve (width : nat) (c : Z) : option nat :=
  if (0 <=? c) && (c <? Z.of_nat width) then Some (Z.to_nat c)
  else if (- Z.of_nat width <=? c) && (c <? 0)
       then Some (Z.to_nat (Z.of_nat width + c))
       else None.

Fixpoint resolve_all (width : nat) (cols : columns) : option (list nat) :=
  match cols with
  | [] => Some []
  | c :: rest =>
      match resolve width c, resolve_all width rest with
      | Some j, Some js => Some (j :: js)
      | _, _ => None
      end
  end.

(** [x[..., cols]]: the named columns, in the order named; an index
    outside the dimension is an [IndexError]. *)
Definition getitem (x : tensor) (cols : columns) : outcome tensor :=
  match resolve_all (ncols x) cols with
  | Some js =>
      Returns (MkTensor (length js)
                 (map (fun r => map (fun j => nth j r NaN) js) (rows x)))
  | None => Raises (IndexError "index is out of bounds")
  end.

Fixpoint set_nth (j : nat) (a : pyfloat) (r : list pyfloat)
  : list pyfloat :=
  match r, j with
  | [], _ => []
  | _ :: r', O => a :: r'
  | b :: r', S j' => b :: set_nth j' a r'
  end.

(** One row after the assignment: the values are written to their
    positions one after the other. *)
Definition assign_row (js : list nat) (r v : list pyfloat)
  : list pyfloat :=
  fold_left (fun acc ja => set_nth (fst ja) (snd ja) acc) (combine js v) r.

(** [out[..., cols] = value] for a value of the shape of [out[..., cols]];
    a value of another shape is refused (a smaller value that [torch] would
    broadcast is not modelled and counts as refused). *)
Definition setitem (out : tensor) (cols : columns) (value : tensor)
  : outcome tensor :=
  match resolve_all (ncols out) cols with
  | Some js =>
      if (ncols value =? length js)%nat
         && (length (rows value) =? length (rows out))%nat
         && forallb (fun v => (length v =? length js)%nat) (rows value)
      then Returns (MkTensor (ncols out)
                      (map (fun rv => assign_row js (fst rv) (snd rv))
                           (combine (rows out) (rows value))))
      else Raises (RuntimeError "shape mismatch")
  | None => Raises (IndexError "index is out of bounds")
  end.

(** A reference to an object. *)
Definition ref := nat.

Section Transforms.

(** An [InputTransform] object of [botorch]: [train()] and [eval()] switch
    its mode and a call returns the transformed tensor and may update the
    object. *)
Variable transform_t : Type.
Variable train : transform_t -> transform_t.
Variable eval : transform_t -> transform_t.
Variable forward : transform_t -> tensor -> outcome (transform_t * tensor).

(** The values of the dictionary are references: one object can sit
    under several keys, and what is done to it under one key shows under
    the others.  A store gives every reference its object. *)
Definition store := ref -> transform_t.

Definition update (heap : store) (r : ref) (t : transform_t) : store :=
  fun r' => if (r' =? r)%nat then t else heap r'.

(** The loop of [fit] over the items still to visit: what the method
    returns or raises, and the objects as the loop leaves them.  The
    dictionary itself is not written to. *)
Fixpoint fit_loop (x : tensor) (items : dict columns ref) (heap : store)
  : outcome unit * store :=
  match items with
  | [] => (Returns tt, heap)
  | (cols, r) :: rest =>
      let transformer := train (heap r) in
      match (sub <- getitem x cols ;; forward transformer sub)%outcome with
      | Raises e => (Raises e, update heap r transformer)
      | Returns (transformer, _) =>
          fit_loop x rest (update heap r transformer)
      end
  end.

(** [fit]. *)
Definition fit (mapping : dict columns ref) (heap : store) (x : tensor)
  : outcome unit * store :=
  fit_loop x mapping heap.

(** The loop of [transform] over the items still to visit, from the
    current [out]; each item is taken with an object of its own. *)
Fixpoint transform_loop (out : tensor) (items : dict columns transform_t)
  : outcome tensor * dict columns transform_t :=
  match items with
  | [] => (Returns out, [])
  | (cols, transformer) :: rest =>
      let transformer := eval transformer in
      match (sub <- getitem out cols ;; forward transformer sub)%outcome
      with
      | Raises r => (Raises r, (cols, transformer) :: rest)
      | Returns (transformer, res) =>
          match setitem out cols res with
          | Raises r => (Raises r, (cols, transformer) :: rest)
          | Returns out =>
              let '(o, rest) := transform_loop out rest in
              (o, (cols, transformer) :: rest)
          end
      end
  end.

(** [transform]: [out] starts as a copy of [x]. *)
Definition transform (mapping : dict columns transform_t) (x : tensor)
  : outcome tensor * dict columns transform_t :=
  transform_loop x mapping.

End Transforms.

End ColumnTransforms.

(* ===================================================================== *)
(** ** [baybe/utils/chemistry.py] *)

Module Chemistry.

(** [needle in hay]. *)
Fixpoint contains (needle hay : string) : bool :=
  if prefix needle hay then true
  else match hay with
       | EmptyString => false
       | String _ rest => contains needle rest
       end.

(** [s.replace(old, new)] for a non-empty [old]: the text is read from the
    left, and [skip] characters of an occurrence just replaced are still
    to be passed over. *)
Fixpoint replace_from (skip : nat) (old new s : string) : string :=
  match s with
  | EmptyString => EmptyString
  | String c rest =>
      match skip with
      | S k => replace_from k old new rest
      | O =>
          if prefix old s
          then (new ++ replace_from (String.length old - 1) old new rest)
               %string
          else String c (replace_from 0 old new rest)
      end
  end.

Definition replace (old new s : string) : string :=
  replace_from 0 old new s.

(** [c.casefold()] and [s.casefold()] for the letters of ASCII, of which
    the names below are made. *)
Definition casefold_char (c : ascii) : ascii :=
  let n := nat_of_ascii c in
  if (65 <=? n)%nat && (n <=? 90)%nat then ascii_of_nat (n + 32) else c.

Fixpoint casefold (s : string) : string :=
  match s with
  | EmptyString => EmptyString
  | String c rest => String (casefold_char c) (casefold rest)
  end.

(** The URL [name_to_smiles] asks for. *)
Definition smiles_url (name : string) : string :=
  ("http://cactus.nci.nih.gov/chemical/structure/"
   ++ replace " " "%20" name ++ "/smiles")%string.

Section NameToSmiles.

(** One request: [urlopen(url, context=ctx)], [read()] and
    [decode("utf8")] give the body, or one of them raises. *)
Variable fetch : string -> option string.

Definition name_to_smiles (name : string) : string :=
  match fetch (smiles_url name) with
  | Some smiles =>
      if contains "</div>" smiles then EmptyString else smiles
  | None => EmptyString
  end.

End NameToSmiles.

(** A value of a keyword argument. *)
Inductive kwarg :=
| IntArg (z : Z)
| StrArg (s : string)
| BoolArg (b : bool).

(** A dictionary of keyword arguments in insertion order, and
    [d.update(other)]. *)
Definition kwdict := list (string * kwarg).

Definition kw_update (d other : kwdict) : kwdict :=
  fold_left (fun acc kv => dict_set acc (fst kv) (snd kv)) other d.

(** What is handed to a fingerprint transformer: a SMILES string or a
    molecule with conformers, the latter given by a name. *)
Inductive molecule :=
| Smiles (s : string)
| Conformer (m : string).

(** A fingerprint transformer object: the name of its class, whether it
    needs conformers, the names of its features and what
    [transform([molecule])] returns, an array of rows.  The caches around
    [_molecule_to_fingerprint_features] keep what a call returned for an
    encoder and a molecule; a function of the molecule does not show
    them. *)
Record encoder := MkEncoder {
  encoder_class : string;
  requires_conformers : bool;
  get_feature_names_out : list string;
  transform_one : molecule -> outcome (list (list pyfloat))
}.

(** A frame with named columns. *)
Record fingerprints := MkFingerprints {
  col_names : list string;
  features : DataFrame (list pyfloat)
}.

Definition morgan_warning : string :=
  ("Substance encoding 'MORGAN_FP' is deprecated and will be disabled "
   ++ "in a future version. Use 'ECFP' "
   ++ "with 'fp_size' 1204 and 'radius' 4 instead.")%string.

Definition rdkit_warning : string :=
  ("Substance encoding 'RDKIT' is deprecated and will be disabled "
   ++ "in a future version. Use 'RDKIT2DDESCRIPTORS' "
   ++ "instead.")%string.

(** [np.concatenate(arrays)] of arrays of rows: a [ValueError] for no
    array and for arrays of different widths.  An array is the list of its
    rows, so one without rows carries no width. *)
Definition same_width (arrays : list (list (list pyfloat))) : bool :=
  match concat arrays with
  | [] => true
  | r :: rest => forallb (fun r' => (length r' =? length r)%nat) rest
  end.

Definition np_concatenate (arrays : list (list (list pyfloat)))
  : outcome (list (list pyfloat)) :=
  match arrays with
  | [] =>
      Raises (Builtin (Raise ValueError
                "need at least one array to concatenate"))
  | _ =>
      if same_width arrays then Returns (concat arrays)
      else Raises (Builtin (Raise ValueError
             ("all the input array dimensions except for the "
              ++ "concatenation axis must match exactly")%string))
  end.

(** [pd.DataFrame(data, columns=names)]: rows labelled from [0]; a
    [ValueError] when a row has another width than there are names. *)
Definition new_frame (data : list (list pyfloat)) (names : list string)
  : outcome fingerprints :=
  if forallb (fun r => (length r =? length names)%nat) data
  then Returns (MkFingerprints names
                  (combine (map Z.of_nat (seq 0 (length data))) data))
  else Raises (Builtin (Raise ValueError
         "Shape of passed values does not match the columns")).

(** The calls of [transform_one], one after the other; the first to
    raise ends them. *)
Fixpoint each {A B} (f : A -> outcome B) (l : list A) : outcome (list B) :=
  match l with
  | [] => Returns []
  | a :: rest =>
      (b <- f a ;; bs <- each f rest ;; Returns (b :: bs))%outcome
  end.

Section Fingerprints.

(** [dir(skfp_fingerprints)]: the names the fingerprint module defines, in
    alphabetical order. *)
Variable dir_names : list string.

(** [get_fingerprint_class], for an encoding given by its [name]; the
    class is given by the name under which the module holds it. *)
Definition get_fingerprint_class (encoding : string) : outcome string :=
  if String.eqb encoding "RDKITFINGERPRINT" then
    if existsb (String.eqb "RDKitFingerprint") dir_names
    then Returns "RDKitFingerprint"
    else Raises (AttributeError
           "module has no attribute 'RDKitFingerprint'")
  else
    match find (fun name =>
                  String.eqb (casefold (encoding ++ "Fingerprint"))
                             (casefold name))
               dir_names with
    | Some cls_name => Returns cls_name
    | None =>
        Raises (Builtin (Raise ValueError
          ("No fingerprint class exists for the specified encoding '"
           ++ encoding ++ "'.")%string))
    end.

(** [fingerprint_cls( **kwargs_fingerprint)], and
    [ConformerGenerator( **kwargs_conformer).transform(
    MolFromSmilesTransformer().transform(smiles))]. *)
Variable instantiate : string -> kwdict -> outcome encoder.
Variable make_conformers : kwdict -> list string -> outcome (list molecule).

(** [smiles_to_fingerprint_features]: what the call returns or raises, the
    warnings it issues, and the dictionary the caller passed as
    [kwargs_fingerprint] as the call leaves it. *)
Definition smiles_to_fingerprint_features
    (smiles : list string) (encoding : string) (prefix : string)
    (kwargs_conformer kwargs_fingerprint : option kwdict)
  : outcome fingerprints * list string * option kwdict :=
  (* [x or {}]: the caller's dictionary unless it is [None] or empty *)
  let shared :=
    match kwargs_fingerprint with
    | Some (_ :: _) => true
    | _ => false
    end in
  let kwargs_fp :=
    match kwargs_fingerprint with Some d => d | None => [] end in
  let kwargs_conf :=
    match kwargs_conformer with Some d => d | None => [] end in
  let '(encoding, kwargs_fp, warnings) :=
    if String.eqb encoding "MORGAN_FP" then
      ("ECFP"%string,
       kw_update kwargs_fp
         [("fp_size"%string, IntArg 1024); ("radius"%string, IntArg 4)],
       [morgan_warning])
    else if String.eqb encoding "RDKIT" then
      ("RDKIT2DDESCRIPTORS"%string, kwargs_fp, [rdkit_warning])
    else (encoding, kwargs_fp, []) in
  let caller := if shared then Some kwargs_fp else kwargs_fingerprint in
  ((fingerprint_cls <- get_fingerprint_class encoding ;;
    fingerprint_encoder <- instantiate fingerprint_cls kwargs_fp ;;
    mol_list <-
      (if requires_conformers fingerprint_encoder
       then make_conformers kwargs_conf smiles
       else Returns (map Smiles smiles)) ;;
    arrays <- each (transform_one fingerprint_encoder) mol_list ;;
    features <- np_concatenate arrays ;;
    let name :=
      ("skfp"
       ++ replace "Fingerprint" EmptyString
            (encoder_class fingerprint_encoder)
       ++ "_")%string in
    let col_names :=
      map (fun f => (prefix ++ name ++ f)%string)
          (get_feature_names_out fingerprint_encoder) in
    new_frame features col_names)%outcome,
   warnings, caller).

End Fingerprints.

End Chemistry.

(* ===================================================================== *)
(** ** Further vocabulary and inputs *)

Module Properties.

Import Recommender Recommenders.

(** A metadata row after a call, next to the row before it: the label and
    the flags [was_measured] and [dont_recommend] are the same, and
    [was_recommended] has not been cleared. *)
Definition kept (old new : label * Metadata) : Prop :=
  fst new = fst old /\
  (was_recommended (snd old) = true -> was_recommended (snd new) = true) /\
  was_measured (snd new) = was_measured (snd old) /\
  dont_recommend (snd new) = dont_recommend (snd old).

(** The search space after a call, next to the one before it: only
    [was_recommended] may differ, and only by flags that were set. *)
Definition only_flags_set (before after : SearchSpace) : Prop :=
  exp_rep (discrete after) = exp_rep (discrete before) /\
  comp_rep (discrete after) = comp_rep (discrete before) /\
  continuous after = continuous before /\
  Forall2 kept (metadata (discrete before)) (metadata (discrete after)).

(** The keys of the acquisition function mapping. *)
Definition acquisition_keys : list string :=
  ["PM"; "PI"; "EI"; "UCB"; "qEI"; "qPI"; "qUCB"]%string.

(** A class is found under [key] when it is concrete and [key] is its
    [type]. *)
Definition registers_under (key : string) (cls : class_def) : bool :=
  negb (cls_abstract cls)
  && match cls_type cls with
     | Some ty => String.eqb ty key
     | None => false
     end.

(** Every row of a tensor has the size of the last dimension. *)
Definition well_shaped (x : ColumnTransforms.tensor) : Prop :=
  Forall (fun r => length r = ColumnTransforms.ncols x)
         (ColumnTransforms.rows x).

Definition same_shape (a b : ColumnTransforms.tensor) : Prop :=
  ColumnTransforms.ncols a = ColumnTransforms.ncols b /\
  length (ColumnTransforms.rows a) = length (ColumnTransforms.rows b).

(** Column [j] of a tensor, top to bottom. *)
Definition column (j : nat) (x : ColumnTransforms.tensor) : list pyfloat :=
  map (fun r => nth j r NaN) (ColumnTransforms.rows x).

(** A transform returns a tensor of the shape of its argument. *)
Definition keeps_shape {T}
    (forward : T -> ColumnTransforms.tensor ->
               outcome (T * ColumnTransforms.tensor)) : Prop :=
  forall t sub t' res,
    well_shaped sub -> forward t sub = Returns (t', res) ->
    well_shaped res /\ same_shape res sub.

(** A column tuple names position [j] of a dimension of size [width]. *)
Definition names_column (width : nat) (cols : Scaling.columns) (j : nat)
  : Prop :=
  exists c, In c cols /\ ColumnTransforms.resolve width c = Some j.

(** Every index of the tuple counts from the front and lies inside a
    dimension of size [width]. *)
Definition inside (width : nat) (cols : Scaling.columns) : Prop :=
  forall c, In c cols -> 0 <= c < Z.of_nat width.

(** Two column tuples name no common position. *)
Definition apart (width : nat) (a b : Scaling.columns) : Prop :=
  forall j, names_column width a j -> ~ names_column width b j.

(** The indices of a tuple name pairwise different positions. *)
Definition distinct_positions (width : nat) (cols : Scaling.columns)
  : Prop :=
  forall js, ColumnTransforms.resolve_all width cols = Some js -> NoDup js.

(** The objects after [fit] has gone through [items] without raising:
    one item after the other, the object the item refers to has been
    switched to training mode and has been fed its columns of [x]. *)
Fixpoint fed {transform_t : Type} (train : transform_t -> transform_t)
    (forward : transform_t -> ColumnTransforms.tensor ->
               outcome (transform_t * ColumnTransforms.tensor))
    (x : ColumnTransforms.tensor)
    (items : Scaling.dict Scaling.columns ColumnTransforms.ref)
    (heap heap' : ColumnTransforms.store transform_t) : Prop :=
  match items with
  | [] => heap' = heap
  | (cols, r) :: rest =>
      exists sub t' res,
        ColumnTransforms.getitem x cols = Returns sub /\
        forward (train (heap r)) sub = Returns (t', res) /\
        fed train forward x rest
          (ColumnTransforms.update transform_t heap r t') heap'
  end.

(** What [MORGAN_FP] writes over the keyword arguments:
    [{"fp_size": 1024, "radius": 4}]. *)
Definition morgan_defaults : Chemistry.kwdict :=
  [("fp_size"%string, Chemistry.IntArg 1024);
   ("radius"%string, Chemistry.IntArg 4)].

End Properties.

Module MoreInputs.

Import Recommender Recommenders.

(** The type of a search space by its parts, for the inputs below: a space
    with an empty continuous part is discrete, a space without discrete rows
    is continuous, any other is hybrid. *)
Definition type_by_parts (s : SearchSpace) : SearchSpaceType :=
  if empty (continuous s) then DISCRETE
  else match exp_rep (discrete s) with
       | [] => CONTINUOUS
       | _ => HYBRID
       end.

(** A random recommender: the first candidates in discrete spaces, one
    fixed point in continuous ones. *)
Definition first_candidates : NonPredictiveRecommender.t :=
  NonPredictiveRecommender.Mk
    (fun _ candidates_comp batch_quantity =>
       Returns (firstn (Z.to_nat batch_quantity) (index candidates_comp)))
    (fun _ batch_quantity =>
       Returns (map (fun i => (Z.of_nat i, ["0.5"%string]))
                    (seq 0 (Z.to_nat batch_quantity))))
    (fun _ batch_quantity => Returns []).

(** Training data over the labels [0, 1] and targets over [0, 2]. *)
Definition train_x01 : train_frame := [(0, [Fin 0]); (1, [Fin 1])].
Definition train_y01 : train_frame := [(0, [Fin 3]); (1, [Fin 4])].
Definition train_y02 : train_frame := [(0, [Fin 3]); (2, [Fin 4])].

(** A Bayesian recommender over stand-ins for the other packages: a
    surrogate is the table it was fitted on, an acquisition function the
    class it was built from. *)
Definition sequential_greedy (surrogate_name acqf_name : string)
  : BayesianRecommender.t callable :=
  BayesianRecommender.Mk callable surrogate_name acqf_name
    (fun _ _ candidates_comp batch_quantity =>
       Returns (firstn (Z.to_nat batch_quantity) (index candidates_comp)))
    (fun _ _ _ => Returns [])
    (fun _ _ _ => Returns []).

Definition surrogate_registry : list (string * string) :=
  [("GP", "GaussianProcessModel"); ("RF", "RandomForestModel")]%string.

Definition fit_table (cls : string) (s : SearchSpace)
    (train_x train_y : train_frame) : outcome train_frame :=
  Returns train_y.

Definition build_acqf (cls : callable) (model : train_frame) (best : unit)
  : outcome callable :=
  Returns cls.

(** Class definitions in the order of the module: the abstract bases, two
    concrete recommenders and a later class that reuses the type of the
    first. *)
Definition class_sequence : list class_def :=
  [MkClass "NonPredictiveRecommender" None true;
   MkClass "RandomRecommender" (Some "RANDOM") false;
   MkClass "FPSRecommender" (Some "FPS") false;
   MkClass "MyRandomRecommender" (Some "RANDOM") false]%string.

(** A stand-in for a transform object: its mode and a factor by which a
    call multiplies every entry. *)
Record scaling_transform := MkScaling {
  training : bool;
  factor : Q
}.

Definition to_train (t : scaling_transform) : scaling_transform :=
  MkScaling true (factor t).

Definition to_eval (t : scaling_transform) : scaling_transform :=
  MkScaling false (factor t).

Definition multiply (t : scaling_transform) (sub : ColumnTransforms.tensor)
  : outcome (scaling_transform * ColumnTransforms.tensor) :=
  Returns (t, ColumnTransforms.MkTensor (ColumnTransforms.ncols sub)
                (map (map (fmul (Fin (factor t))))
                     (ColumnTransforms.rows sub))).

(** A store of two objects: the factor [2] under the reference [0], the
    factor [3] under every other one. *)
Definition two_objects : ColumnTransforms.store scaling_transform :=
  fun r => match r with
           | O => MkScaling false 2
           | _ => MkScaling false 3
           end.

(** Two rows of three columns. *)
Definition x23 : ColumnTransforms.tensor :=
  ColumnTransforms.MkTensor 3
    [[Fin 1; Fin 2; Fin 3]; [Fin 4; Fin 5; Fin 6]].

(** Columns [0] and [2] doubled, column [1] times ten. *)
Definition two_groups : Scaling.dict Scaling.columns scaling_transform :=
  [([0; 2], MkScaling true 2); ([1], MkScaling true 10)].

(** A fingerprint module of four classes, and stand-ins for the
    transformers: every molecule gets one row of two features. *)
Definition skfp_names : list string :=
  ["ECFPFingerprint"; "MACCSFingerprint"; "RDKit2DDescriptorsFingerprint";
   "RDKitFingerprint"]%string.

Definition two_bits (cls : string) (kwargs : Chemistry.kwdict)
  : outcome Chemistry.encoder :=
  Returns (Chemistry.MkEncoder cls false ["0"; "1"]%string
             (fun _ => Returns [[Fin 1; Fin 0]])).

Definition by_name (kwargs : Chemistry.kwdict) (smiles : list string)
  : outcome (list Chemistry.molecule) :=
  Returns (map Chemistry.Conformer smiles).

End MoreInputs.

(* ===================================================================== *)
(** ** Facts about data frames *)

Lemma string_app_assoc (a b c : string) :
  ((a ++ b) ++ c)%string = (a ++ b ++ c)%string.
Proof.
  induction a as [| ch a IH]; simpl; [reflexivity | now rewrite IH].
Qed.

Lemma bind_ok {A B} (c : result A) (k : A -> result B) (b : B) :
  bind c k = Ok b -> exists a, c = Ok a /\ k a = Ok b.
Proof.
  destruct c as [a | e]; simpl; [| discriminate].
  intros H. exists a. split; [reflexivity | exact H].
Qed.

Lemma mem_In (l : label) (ls : list label) : mem l ls = true <-> In l ls.
Proof.
  unfold mem. rewrite existsb_exists. split.
  - intros (x & Hx & Heq). apply Z.eqb_eq in Heq. now subst.
  - intros H. exists l. split; [assumption | apply Z.eqb_refl].
Qed.

Lemma all_mem_incl (idxs ls : list label) :
  forallb (fun i => mem i ls) idxs = true <-> incl idxs ls.
Proof.
  rewrite forallb_forall. unfold incl.
  split; intros H i Hi; apply mem_In; auto.
Qed.


Lemma index_length {A} (df : DataFrame A) : length (index df) = length df.
Proof. apply length_map. Qed.




Lemma loc_missing {A} (df : DataFrame A) (idxs : list label) :
  ~ incl idxs (index df) -> raises (loc df idxs) KeyError.
Proof.
  intros H. unfold loc.
  destruct (forallb _ idxs) eqn:E.
  - apply all_mem_incl in E. contradiction.
  - eexists. reflexivity.
Qed.



Lemma loc_set_index {A} (df df' : DataFrame A) idxs upd :
  loc_set df idxs upd = Ok df' -> index df' = index df.
Proof.
  unfold loc_set. destruct (forallb _ idxs); [| discriminate].
  intros [= <-]. unfold index. rewrite map_map. apply map_ext.
  intros [l a]. simpl. now destruct (mem l idxs).
Qed.

(* ===================================================================== *)
(** ** Facts about rounding *)

Module RoundingFacts.

Local Open Scope Q_scope.

Lemma rne_comp (x y : Q) : x == y -> rne x = rne y.
Proof.
  intros H. unfold rne. rewrite (Qfloor_comp x y H).
  now rewrite H.
Qed.

Lemma rne_Z (k : Z) : rne (inject_Z k) = k.
Proof.
  unfold rne. rewrite Qfloor_Z.
  assert (H : (inject_Z k - inject_Z k ?= 1 # 2) = Lt).
  { apply Qlt_alt. setoid_replace (inject_Z k - inject_Z k) with 0 by ring.
    reflexivity. }
  now rewrite H.
Qed.

Lemma rne_floor (x : Q) : (Qfloor x <= rne x <= Qfloor x + 1)%Z.
Proof.
  unfold rne. destruct (x - inject_Z (Qfloor x) ?= 1 # 2);
    [destruct (Z.even (Qfloor x)) | |]; lia.
Qed.

Lemma rne_mono (x y : Q) : x <= y -> (rne x <= rne y)%Z.
Proof.
  intros Hxy. pose proof (Qfloor_resp_le x y Hxy) as Hf.
  destruct (Z.eq_dec (Qfloor x) (Qfloor y)) as [Heq | Hne].
  - unfold rne. rewrite <- Heq.
    assert (Hr : x - inject_Z (Qfloor x) <= y - inject_Z (Qfloor x)).
    { apply Qplus_le_l with (z := inject_Z (Qfloor x)).
      now ring_simplify. }
    destruct (Qcompare_spec (x - inject_Z (Qfloor x)) (1 # 2))
      as [Ex | Ex | Ex];
      destruct (Qcompare_spec (y - inject_Z (Qfloor x)) (1 # 2))
        as [Ey | Ey | Ey];
      try (destruct (Z.even (Qfloor x))); try lia; exfalso;
      first [ rewrite Ex in Hr; exact (Qlt_not_le _ _ Ey Hr)
            | rewrite Ey in Hr; exact (Qlt_not_le _ _ Ex Hr)
            | exact (Qlt_not_le _ _ (Qlt_trans _ _ _ Ey Ex) Hr) ].
  - pose proof (rne_floor x). pose proof (rne_floor y). lia.
Qed.

Lemma pow2_pos (s : Z) : (0 <= s)%Z -> 0 < inject_Z (2 ^ s).
Proof.
  intros Hs. change 0 with (inject_Z 0). rewrite <- Zlt_Qlt.
  now apply Z.pow_pos_nonneg.
Qed.

Lemma grid_comp (p : Z) (X Y : Q) : X == Y -> grid p X = grid p Y.
Proof.
  intros H. unfold grid. rewrite (Qfloor_comp X Y H).
  f_equal. apply rne_comp. now rewrite H.
Qed.

Lemma grid_nonneg (p : Z) (X : Q) : 0 <= X -> (0 <= grid p X)%Z.
Proof.
  intros HX. unfold grid.
  set (s := Z.max 0 (Z.log2 (Qfloor X) - (p - 1))).
  assert (Hs : (0 <= s)%Z) by (unfold s; lia).
  apply Z.mul_nonneg_nonneg; [| apply Z.pow_nonneg; lia].
  rewrite <- (rne_Z 0). apply rne_mono.
  apply Qle_shift_div_l; [now apply pow2_pos |].
  now rewrite Qmult_0_l.
Qed.

(** An integer number of units that is a value is left as it is. *)
Lemma grid_exact (p N : Z) :
  (2 ^ Z.max 0 (Z.log2 N - (p - 1)) | N)%Z ->
  grid p (inject_Z N) = N.
Proof.
  intros [k Hk]. unfold grid. rewrite Qfloor_Z.
  set (s := Z.max 0 (Z.log2 N - (p - 1))) in *.
  assert (Hs : (0 <= s)%Z) by (unfold s; lia).
  rewrite (rne_comp _ (inject_Z k)); [rewrite rne_Z; lia |].
  rewrite Hk at 1. rewrite inject_Z_mult.
  field. intros H0. pose proof (pow2_pos s Hs) as Hp.
  rewrite H0 in Hp. discriminate.
Qed.

Lemma on_grid (p m e : Z) :
  (1 <= p)%Z -> (0 <= m <= 2 ^ p)%Z -> (0 <= e)%Z ->
  (2 ^ Z.max 0 (Z.log2 (m * 2 ^ e) - (p - 1)) | m * 2 ^ e)%Z.
Proof.
  intros Hp Hm He.
  destruct (Z.eq_dec m 0) as [-> | Hm0].
  { rewrite Z.mul_0_l. apply Z.divide_0_r. }
  rewrite Z.log2_mul_pow2 by lia.
  destruct (Z.eq_dec m (2 ^ p)) as [-> | Hlt].
  - rewrite Z.log2_pow2 by lia. rewrite <- Z.pow_add_r by lia.
    replace (Z.max 0 (e + p - (p - 1))) with (e + 1)%Z by lia.
    exists (2 ^ (p - 1))%Z. rewrite <- Z.pow_add_r by lia.
    f_equal. lia.
  - assert (Hlog : (Z.log2 m < p)%Z).
    { apply Z.log2_lt_pow2; lia. }
    set (s := Z.max 0 (e + Z.log2 m - (p - 1))).
    assert (Hs : (0 <= s <= e)%Z) by (unfold s; lia).
    exists (m * 2 ^ (e - s))%Z. rewrite <- Z.mul_assoc.
    rewrite <- Z.pow_add_r by lia. do 2 f_equal. lia.
Qed.

Lemma le_pow2_units (X : Q) (s : Z) :
  (0 <= s)%Z -> X <= inject_Z (2 ^ s) ->
  forall s', (0 <= s' <= s)%Z ->
  (rne (X / inject_Z (2 ^ s')) * 2 ^ s' <= 2 ^ s)%Z.
Proof.
  intros Hs HX s' Hs'.
  assert (H : (rne (X / inject_Z (2 ^ s')) <= 2 ^ (s - s'))%Z).
  { rewrite <- (rne_Z (2 ^ (s - s'))). apply rne_mono.
    apply Qle_shift_div_r; [apply pow2_pos; lia |].
    rewrite <- inject_Z_mult, <- Z.pow_add_r by lia.
    now replace (s - s' + s')%Z with s by lia. }
  replace (2 ^ s)%Z with (2 ^ (s - s') * 2 ^ s')%Z.
  - apply Z.mul_le_mono_nonneg_r; [apply Z.pow_nonneg; lia | exact H].
  - rewrite <- Z.pow_add_r by lia. f_equal. lia.
Qed.

Lemma ge_pow2_units (Y : Q) (s : Z) :
  (0 <= s)%Z -> inject_Z (2 ^ s) <= Y ->
  forall s', (0 <= s' <= s)%Z ->
  (2 ^ s <= rne (Y / inject_Z (2 ^ s')) * 2 ^ s')%Z.
Proof.
  intros Hs HY s' Hs'.
  assert (H : (2 ^ (s - s') <= rne (Y / inject_Z (2 ^ s')))%Z).
  { rewrite <- (rne_Z (2 ^ (s - s'))) at 1. apply rne_mono.
    apply Qle_shift_div_l; [apply pow2_pos; lia |].
    rewrite <- inject_Z_mult, <- Z.pow_add_r by lia.
    now replace (s - s' + s')%Z with s by lia. }
  replace (2 ^ s)%Z with (2 ^ (s - s') * 2 ^ s')%Z.
  - apply Z.mul_le_mono_nonneg_r; [apply Z.pow_nonneg; lia | exact H].
  - rewrite <- Z.pow_add_r by lia. f_equal. lia.
Qed.

Lemma floor_nonneg (X : Q) : 0 <= X -> (0 <= Qfloor X)%Z.
Proof.
  intros H. rewrite <- (Qfloor_Z 0). now apply Qfloor_resp_le.
Qed.

(** Rounding keeps the order. *)
Lemma grid_mono (p : Z) (X Y : Q) :
  (1 <= p)%Z -> 0 <= X -> X <= Y -> (grid p X <= grid p Y)%Z.
Proof.
  intros Hp HX HXY.
  pose proof (Qfloor_resp_le X Y HXY) as Hf.
  pose proof (floor_nonneg X HX) as HfX.
  unfold grid.
  set (tX := Qfloor X) in *. set (tY := Qfloor Y) in *.
  set (sX := Z.max 0 (Z.log2 tX - (p - 1))).
  set (sY := Z.max 0 (Z.log2 tY - (p - 1))).
  pose proof (Z.log2_le_mono tX tY Hf) as Hlog.
  assert (HsX : (0 <= sX)%Z) by (unfold sX; lia).
  assert (Hss : (sX <= sY)%Z) by (unfold sX, sY; lia).
  destruct (Z.eq_dec sX sY) as [Heq | Hne].
  - rewrite <- Heq. apply Z.mul_le_mono_nonneg_r;
      [apply Z.pow_nonneg; lia |].
    apply rne_mono. apply Qmult_le_compat_r; [exact HXY |].
    apply Qinv_le_0_compat. apply Qlt_le_weak. now apply pow2_pos.
  - assert (HsY : sY = (Z.log2 tY - (p - 1))%Z) by (unfold sY in *; lia).
    assert (HtY : (0 < tY)%Z).
    { destruct (Z.lt_trichotomy tY 0) as [H | [H | H]]; try exact H.
      - rewrite (Z.log2_nonpos tY) in HsY by lia. lia.
      - rewrite H in HsY. simpl in HsY. lia. }
    apply Z.le_trans with (2 ^ (sX + p))%Z.
    + apply le_pow2_units; [lia | | lia].
      apply Qle_trans with (inject_Z (tX + 1)).
      * apply Qlt_le_weak. apply Qlt_floor.
      * rewrite <- Zle_Qle.
        destruct (Z.eq_dec tX 0) as [-> | HtX].
        { apply (Z.pow_le_mono_r 2 0 (sX + p)); lia. }
        pose proof (Z.log2_spec tX ltac:(lia)) as [_ Hup].
        apply Z.le_trans with (2 ^ Z.succ (Z.log2 tX))%Z; [lia |].
        apply Z.pow_le_mono_r; [lia |]. unfold sX. lia.
    + apply Z.le_trans with (2 ^ (sY + (p - 1)))%Z.
      * apply Z.pow_le_mono_r; lia.
      * apply ge_pow2_units; [lia | | lia].
        apply Qle_trans with (inject_Z tY); [| apply Qfloor_le].
        rewrite <- Zle_Qle.
        pose proof (Z.log2_spec tY HtY) as [Hlow _].
        replace (sY + (p - 1))%Z with (Z.log2 tY) by lia. exact Hlow.
Qed.


Lemma binary64_well_formed : well_formed binary64.
Proof. split; discriminate. Qed.

Lemma binary32_well_formed : well_formed binary32.
Proof. split; discriminate. Qed.

Lemma Fin_inj (a b : Q) : Fin a = Fin b -> a = b.
Proof. now intros [= H]. Qed.

Lemma units_value (v u : Z) :
  (0 < u)%Z -> v # Z.to_pos u == inject_Z v / inject_Z u.
Proof.
  intros Hu. rewrite Qmake_Qdiv. now rewrite Z2Pos.id.
Qed.

Lemma Qred_Z (z : Z) : Qred (inject_Z z) = inject_Z z.
Proof.
  unfold Qred, inject_Z.
  pose proof (Z.ggcd_gcd z 1) as Hg.
  pose proof (Z.ggcd_correct_divisors z 1) as Hd.
  destruct (Z.ggcd z 1) as [g [a b]]. simpl in Hg, Hd.
  rewrite Z.gcd_1_r in Hg. subst g. destruct Hd as [Ha Hb].
  rewrite !Z.mul_1_l in *. subst a. subst b. reflexivity.
Qed.

Lemma round_pos_comp (fmt : format) (q q' : Q) :
  q == q' -> round_pos fmt q = round_pos fmt q'.
Proof.
  intros H. unfold round_pos.
  assert (Hg : grid (prec fmt) (q * inject_Z (2 ^ (- emin fmt)))
               = grid (prec fmt) (q' * inject_Z (2 ^ (- emin fmt)))).
  { apply grid_comp. now rewrite H. }
  now rewrite Hg.
Qed.

Lemma round_comp (fmt : format) (q q' : Q) :
  q == q' -> round fmt q = round fmt q'.
Proof.
  intros H. unfold round.
  assert (Hb : Qle_bool 0 q = Qle_bool 0 q').
  { destruct (Qle_bool 0 q) eqn:E; destruct (Qle_bool 0 q') eqn:E';
      try reflexivity.
    - apply Qle_bool_iff in E. rewrite H in E.
      apply Qle_bool_iff in E. congruence.
    - apply Qle_bool_iff in E'. rewrite <- H in E'.
      apply Qle_bool_iff in E'. congruence. }
  rewrite Hb. destruct (Qle_bool 0 q').
  - now apply round_pos_comp.
  - f_equal. apply round_pos_comp. now rewrite H.
Qed.

(** A magnitude that is a value of the format is left as it is. *)
Lemma round_pos_exact (fmt : format) (q : Q) (m e : Z) :
  well_formed fmt ->
  (0 <= m <= 2 ^ prec fmt)%Z -> (0 <= e)%Z ->
  q * inject_Z (2 ^ (- emin fmt)) == inject_Z (m * 2 ^ e) ->
  (m * 2 ^ e < 2 ^ (emax fmt - emin fmt))%Z ->
  round_pos fmt q = Fin (Qred q).
Proof.
  intros [Hp He0] Hm He Hq Hrange. unfold round_pos.
  rewrite (grid_comp _ _ _ Hq).
  rewrite grid_exact by now apply on_grid.
  destruct (Z.leb_spec (2 ^ (emax fmt - emin fmt)) (m * 2 ^ e)); [lia |].
  f_equal. apply Qred_complete.
  assert (Hu : (0 < 2 ^ (- emin fmt))%Z) by (apply Z.pow_pos_nonneg; lia).
  rewrite units_value by exact Hu. rewrite <- Hq.
  field. intros H0. pose proof (pow2_pos (- emin fmt) ltac:(lia)) as Hpos.
  rewrite H0 in Hpos. discriminate.
Qed.

(** Rounding keeps the order of magnitudes. *)
Lemma round_pos_mono (fmt : format) (x y : Q) :
  well_formed fmt -> 0 <= x -> x <= y ->
  fle (round_pos fmt x) (round_pos fmt y) = true.
Proof.
  intros [Hp He0] Hx Hxy. unfold round_pos.
  assert (Hu : (0 < 2 ^ (- emin fmt))%Z) by (apply Z.pow_pos_nonneg; lia).
  assert (HU : 0 < inject_Z (2 ^ (- emin fmt))) by (apply pow2_pos; lia).
  assert (Hg : (grid (prec fmt) (x * inject_Z (2 ^ (- emin fmt)))
                <= grid (prec fmt) (y * inject_Z (2 ^ (- emin fmt))))%Z).
  { apply grid_mono; [exact Hp | |].
    - apply Qmult_le_0_compat; [exact Hx | now apply Qlt_le_weak].
    - apply Qmult_le_compat_r; [exact Hxy | now apply Qlt_le_weak]. }
  destruct (Z.leb_spec (2 ^ (emax fmt - emin fmt))
              (grid (prec fmt) (x * inject_Z (2 ^ (- emin fmt)))));
    destruct (Z.leb_spec (2 ^ (emax fmt - emin fmt))
                (grid (prec fmt) (y * inject_Z (2 ^ (- emin fmt)))));
    try reflexivity; [lia |].
  unfold fle. apply Qle_bool_iff. rewrite !Qred_correct.
  rewrite !units_value by exact Hu.
  apply Qmult_le_compat_r.
  - now rewrite <- Zle_Qle.
  - apply Qinv_le_0_compat. now apply Qlt_le_weak.
Qed.

(** A positive value is at least the least positive value. *)
Lemma round_positive (fmt : format) (q r : Q) :
  well_formed fmt ->
  round fmt q = Fin r -> 0 < r -> 1 <= r * inject_Z (2 ^ (- emin fmt)).
Proof.
  intros [Hp He0] Hr Hpos.
  assert (Hu : (0 < 2 ^ (- emin fmt))%Z) by (apply Z.pow_pos_nonneg; lia).
  assert (HU : 0 < inject_Z (2 ^ (- emin fmt))) by (apply pow2_pos; lia).
  assert (Hnz : ~ inject_Z (2 ^ (- emin fmt)) == 0).
  { intros H0. rewrite H0 in HU. discriminate. }
  unfold round in Hr. destruct (Qle_bool 0 q) eqn:Hq.
  - unfold round_pos in Hr.
    set (v := grid (prec fmt) (q * inject_Z (2 ^ (- emin fmt)))) in *.
    destruct (2 ^ (emax fmt - emin fmt) <=? v)%Z; [discriminate |].
    apply Fin_inj in Hr. subst r. rewrite Qred_correct in Hpos.
    rewrite Qred_correct. rewrite units_value in Hpos by exact Hu.
    rewrite units_value by exact Hu.
    assert (Hv : (0 < v)%Z).
    { destruct (Z.lt_trichotomy v 0) as [H | [H | H]]; try exact H;
        exfalso; apply (Qlt_not_le _ _ Hpos).
      - apply Qle_shift_div_r; [exact HU |]. rewrite Qmult_0_l.
        change 0 with (inject_Z 0). rewrite <- Zle_Qle. lia.
      - rewrite H. unfold Qdiv. rewrite Qmult_0_l. apply Qle_refl. }
    setoid_replace (inject_Z v / inject_Z (2 ^ (- emin fmt))
                    * inject_Z (2 ^ (- emin fmt))) with (inject_Z v)
      by (field; exact Hnz).
    change 1 with (inject_Z 1). rewrite <- Zle_Qle. lia.
  - exfalso. unfold round_pos in Hr.
    set (v := grid (prec fmt) (- q * inject_Z (2 ^ (- emin fmt)))) in *.
    assert (Hv : (0 <= v)%Z).
    { apply grid_nonneg. apply Qmult_le_0_compat;
        [| now apply Qlt_le_weak].
      destruct (Qlt_le_dec q 0) as [Hlt | Hge].
      - apply Qlt_le_weak. apply (Qplus_lt_l _ _ q). now ring_simplify.
      - apply Qle_bool_iff in Hge. congruence. }
    destruct (2 ^ (emax fmt - emin fmt) <=? v)%Z; [discriminate |].
    cbn [fneg] in Hr. apply Fin_inj in Hr. subst r.
    apply (Qlt_not_le _ _ Hpos).
    rewrite Qred_correct, units_value by exact Hu.
    apply (Qplus_le_l _ _ (inject_Z v / inject_Z (2 ^ (- emin fmt)))).
    ring_simplify. apply Qle_shift_div_l; [exact HU |].
    rewrite Qmult_0_l. change 0 with (inject_Z 0).
    now rewrite <- Zle_Qle.
Qed.


Lemma grid_significand (p : Z) (X : Q) :
  (1 <= p)%Z -> 0 <= X ->
  (0 <= rne (X / inject_Z (2 ^ Z.max 0 (Z.log2 (Qfloor X) - (p - 1))))
   <= 2 ^ p)%Z.
Proof.
  intros Hp HX. pose proof (floor_nonneg X HX) as Ht.
  set (s := Z.max 0 (Z.log2 (Qfloor X) - (p - 1))).
  assert (Hs : (0 <= s)%Z) by (unfold s; lia).
  split.
  - rewrite <- (rne_Z 0). apply rne_mono.
    apply Qle_shift_div_l; [now apply pow2_pos |].
    now rewrite Qmult_0_l.
  - rewrite <- (rne_Z (2 ^ p)). apply rne_mono.
    apply Qle_shift_div_r; [now apply pow2_pos |].
    rewrite <- inject_Z_mult, <- Z.pow_add_r by lia.
    apply Qle_trans with (inject_Z (Qfloor X + 1)).
    + apply Qlt_le_weak. apply Qlt_floor.
    + rewrite <- Zle_Qle.
      destruct (Z.eq_dec (Qfloor X) 0) as [-> | Hnz].
      { apply (Z.pow_le_mono_r 2 0 (p + s)); lia. }
      pose proof (Z.log2_spec (Qfloor X) ltac:(lia)) as [_ Hup].
      apply Z.le_trans with (2 ^ Z.succ (Z.log2 (Qfloor X)))%Z; [lia |].
      apply Z.pow_le_mono_r; [lia |]. unfold s. lia.
Qed.

(** What rounding gives is a value: rounding it again changes nothing. *)
Lemma grid_idem (p : Z) (X : Q) :
  (1 <= p)%Z -> 0 <= X -> grid p (inject_Z (grid p X)) = grid p X.
Proof.
  intros Hp HX. apply grid_exact. unfold grid.
  apply on_grid; [exact Hp | now apply grid_significand | lia].
Qed.

Lemma round_pos_value (fmt : format) (q r : Q) :
  well_formed fmt -> 0 <= q -> round_pos fmt q = Fin r ->
  0 <= r /\ round_pos fmt r = Fin r.
Proof.
  intros [Hp He0] Hq Hr. unfold round_pos in Hr.
  assert (Hu : (0 < 2 ^ (- emin fmt))%Z) by (apply Z.pow_pos_nonneg; lia).
  assert (HU : 0 < inject_Z (2 ^ (- emin fmt))) by (apply pow2_pos; lia).
  assert (Hnz : ~ inject_Z (2 ^ (- emin fmt)) == 0).
  { intros H0. rewrite H0 in HU. discriminate. }
  assert (HX : 0 <= q * inject_Z (2 ^ (- emin fmt))).
  { apply Qmult_le_0_compat; [exact Hq | now apply Qlt_le_weak]. }
  set (v := grid (prec fmt) (q * inject_Z (2 ^ (- emin fmt)))) in *.
  destruct (Z.leb_spec (2 ^ (emax fmt - emin fmt)) v) as [| Hv];
    [discriminate |].
  apply Fin_inj in Hr. subst r.
  assert (Hv0 : (0 <= v)%Z) by now apply grid_nonneg.
  assert (Hval : Qred (v # Z.to_pos (2 ^ (- emin fmt)))
                 * inject_Z (2 ^ (- emin fmt)) == inject_Z v).
  { rewrite Qred_correct, units_value by exact Hu. now field. }
  split.
  - rewrite Qred_correct, units_value by exact Hu.
    apply Qle_shift_div_l; [exact HU |]. rewrite Qmult_0_l.
    change 0 with (inject_Z 0). now rewrite <- Zle_Qle.
  - assert (Hg : grid (prec fmt) (inject_Z v) = v).
    { unfold v. now apply grid_idem. }
    unfold round_pos. rewrite (grid_comp _ _ _ Hval), Hg.
    destruct (Z.leb_spec (2 ^ (emax fmt - emin fmt)) v); [lia |].
    reflexivity.
Qed.

Lemma round_idem (fmt : format) (q r : Q) :
  well_formed fmt -> round fmt q = Fin r -> round fmt r = Fin r.
Proof.
  intros Hwf Hr. unfold round in Hr. destruct (Qle_bool 0 q) eqn:Hq.
  - apply Qle_bool_iff in Hq.
    destruct (round_pos_value fmt q r Hwf Hq Hr) as [Hr0 Hidem].
    unfold round. apply Qle_bool_iff in Hr0. now rewrite Hr0.
  - assert (Hneg : 0 <= - q).
    { destruct (Qlt_le_dec q 0) as [Hlt | Hge].
      - apply Qlt_le_weak. apply (Qplus_lt_l _ _ q). now ring_simplify.
      - apply Qle_bool_iff in Hge. congruence. }
    destruct (round_pos fmt (- q)) as [| r0 | |] eqn:Hr0;
      try discriminate.
    cbn [fneg] in Hr. apply Fin_inj in Hr. subst r.
    destruct (round_pos_value fmt (- q) r0 Hwf Hneg Hr0) as [Hpos Hidem].
    unfold round. destruct (Qle_bool 0 (- r0)) eqn:Hs.
    + apply Qle_bool_iff in Hs.
      assert (Hz : r0 == 0).
      { apply Qle_antisym; [| exact Hpos].
        apply (Qplus_le_l _ _ (- r0)). now ring_simplify. }
      assert (Hr00 : r0 = 0).
      { unfold round_pos in Hr0.
        destruct (2 ^ (emax fmt - emin fmt) <=? _)%Z; [discriminate |].
        apply Fin_inj in Hr0. rewrite <- Hr0 in Hz |- *.
        rewrite Qred_correct in Hz.
        rewrite (Qred_complete _ _ Hz). reflexivity. }
      subst r0. exact Hidem.
    + rewrite (round_pos_comp fmt (- - r0) r0) by ring.
      now rewrite Hidem.
Qed.


(** *** Doubles *)

Lemma double_sign (q : Q) :
  0 <= q ->
  double q = PosInf \/ exists r, double q = Fin r /\ 0 <= r.
Proof.
  intros Hq. unfold double, round.
  rewrite (proj2 (Qle_bool_iff 0 q) Hq).
  destruct (round_pos binary64 q) as [| r | |] eqn:Hr.
  - unfold round_pos in Hr. destruct (_ <=? _)%Z; discriminate.
  - right. exists r. split; [reflexivity |].
    exact (proj1 (round_pos_value _ _ _ binary64_well_formed Hq Hr)).
  - now left.
  - unfold round_pos in Hr. destruct (_ <=? _)%Z; discriminate.
Qed.

(** Every count up to [2^53] is a double. *)
Lemma double_count (z : Z) :
  (0 <= z <= 2 ^ 53)%Z -> double (inject_Z z) = Fin (inject_Z z).
Proof.
  intros Hz. unfold double, round.
  assert (H0 : 0 <= inject_Z z).
  { change 0 with (inject_Z 0). rewrite <- Zle_Qle. lia. }
  rewrite (proj2 (Qle_bool_iff _ _) H0).
  rewrite (round_pos_exact binary64 (inject_Z z) z 1074
             binary64_well_formed); cbn [prec emin emax binary64].
  - now rewrite Qred_Z.
  - exact Hz.
  - lia.
  - now rewrite inject_Z_mult.
  - apply Z.le_lt_trans with (2 ^ 53 * 2 ^ 1074)%Z.
    + apply Z.mul_le_mono_nonneg_r; [apply Z.pow_nonneg |]; lia.
    + rewrite <- Z.pow_add_r by lia. apply Z.pow_lt_mono_r; lia.
Qed.

(** So is half of one. *)
Lemma double_half_count (z : Z) :
  (0 <= z <= 2 ^ 53)%Z ->
  double ((1 # 2) * inject_Z z) = Fin (Qred ((1 # 2) * inject_Z z)).
Proof.
  intros Hz. unfold double, round.
  assert (H0 : 0 <= (1 # 2) * inject_Z z).
  { apply Qmult_le_0_compat; [discriminate |].
    change 0 with (inject_Z 0). rewrite <- Zle_Qle. lia. }
  rewrite (proj2 (Qle_bool_iff _ _) H0).
  apply (round_pos_exact binary64 _ z 1073 binary64_well_formed);
    cbn [prec emin emax binary64].
  - exact Hz.
  - lia.
  - rewrite inject_Z_mult.
    change (- -1074)%Z with 1074%Z.
    replace (2 ^ 1074)%Z with (2 * 2 ^ 1073)%Z
      by (rewrite <- Z.pow_succ_r by lia; reflexivity).
    rewrite inject_Z_mult. field.
  - apply Z.le_lt_trans with (2 ^ 53 * 2 ^ 1073)%Z.
    + apply Z.mul_le_mono_nonneg_r; [apply Z.pow_nonneg |]; lia.
    + rewrite <- Z.pow_add_r by lia. apply Z.pow_lt_mono_r; lia.
Qed.

Lemma double_le (x y : Q) :
  0 <= x -> x <= y -> fle (double x) (double y) = true.
Proof.
  intros Hx Hxy. unfold double, round.
  rewrite (proj2 (Qle_bool_iff _ _) Hx).
  rewrite (proj2 (Qle_bool_iff _ _) (Qle_trans _ _ _ Hx Hxy)).
  now apply round_pos_mono; [apply binary64_well_formed | |].
Qed.

(** Below a count the nearest double is no larger than the count. *)
Lemma double_below_count (q : Q) (D : Z) :
  0 <= q -> q <= inject_Z D -> (D <= 2 ^ 53)%Z ->
  exists r, double q = Fin r /\ 0 <= r /\ r <= inject_Z D.
Proof.
  intros Hq HqD HD.
  assert (HD0 : (0 <= D)%Z).
  { rewrite Zle_Qle. exact (Qle_trans _ _ _ Hq HqD). }
  pose proof (double_le q (inject_Z D) Hq HqD) as Hle.
  rewrite double_count in Hle by lia.
  destruct (double_sign q Hq) as [Hinf | (r & Hr & Hr0)].
  - rewrite Hinf in Hle. discriminate.
  - exists r. rewrite Hr in Hle. repeat split; try assumption.
    now apply Qle_bool_iff.
Qed.

(** A double that is more than zero is at least [2^-1074]. *)
Lemma is_double_positive (q : Q) :
  is_double (Fin q) -> 0 < q -> 1 <= q * inject_Z (2 ^ 1074).
Proof.
  intros Hd Hq. unfold is_double in Hd.
  destruct (double q) as [| r | |] eqn:Hr; try contradiction.
  cbn [feq] in Hd. rewrite <- Hd in Hq |- *.
  exact (round_positive binary64 q r binary64_well_formed Hr Hq).
Qed.

(** A magnitude of at least [2^-1074] is not rounded to zero. *)
Lemma double_positive (q r : Q) :
  1 <= q * inject_Z (2 ^ 1074) -> double q = Fin r -> 0 < r.
Proof.
  intros Hq Hr.
  assert (HU : 0 < inject_Z (2 ^ 1074)) by (apply pow2_pos; lia).
  assert (Hq0 : 0 <= q).
  { destruct (Qlt_le_dec q 0) as [Hlt | Hge]; [| exact Hge].
    exfalso.
    assert (Hneg : q * inject_Z (2 ^ 1074) < 0 * inject_Z (2 ^ 1074)).
    { apply Qmult_lt_compat_r; [exact HU | exact Hlt]. }
    rewrite Qmult_0_l in Hneg.
    apply (Qlt_not_le _ _ Hneg). apply Qle_trans with (2 := Hq).
    discriminate. }
  unfold double, round in Hr.
  rewrite (proj2 (Qle_bool_iff _ _) Hq0) in Hr.
  unfold round_pos in Hr. cbn [prec emin emax binary64] in Hr.
  change (- -1074)%Z with 1074%Z in Hr.
  set (v := grid 53 (q * inject_Z (2 ^ 1074))) in *.
  assert (Hv : (1 <= v)%Z).
  { rewrite <- (grid_exact 53 1) by (exists 1%Z; reflexivity).
    apply grid_mono; [lia | discriminate | exact Hq]. }
  destruct (_ <=? v)%Z; [discriminate |].
  apply Fin_inj in Hr. subst r.
  rewrite Qred_correct, units_value by (apply Z.pow_pos_nonneg; lia).
  apply Qlt_shift_div_l; [exact HU |]. rewrite Qmult_0_l.
  change 0 with (inject_Z 0). rewrite <- Zlt_Qlt. lia.
Qed.

(** What [float] returns is a double. *)
Lemma float_is_double (x : pynum) (f : pyfloat) :
  python_number x -> float x = Ok f -> is_double f.
Proof.
  destruct x as [z | g]; simpl.
  - intros _. destruct (double (inject_Z z)) as [| q | |] eqn:Hq;
      try discriminate.
    intros [= <-]. unfold is_double, double.
    rewrite (round_idem binary64 _ q binary64_well_formed Hq).
    apply Qeq_refl.
  - now intros Hg [= <-].
Qed.

Lemma float_count (z : Z) :
  (0 <= z <= 2 ^ 53)%Z -> float (PyInt z) = Ok (Fin (inject_Z z)).
Proof.
  intros Hz. unfold float. now rewrite double_count.
Qed.

End RoundingFacts.

(* ===================================================================== *)
(** ** The discrete selection helper *)

Module RecommenderFacts.

Import Recommender Statements Inputs.

Lemma marked_rows (idxs : list label) (md : DataFrame Metadata) :
  Forall2 (marked idxs) md
    (map (fun r =>
            if mem (fst r) idxs
            then (fst r, set_was_recommended true (snd r)) else r) md).
Proof.
  induction md as [| [l m] md IH]; simpl; constructor; [| exact IH].
  unfold marked. simpl. destruct (mem l idxs); simpl; auto.
Qed.

(** One row requested from [space3]: row [0] is not offered, row [1] is
    returned and flagged, and row [0] keeps its flag. *)
Example space3_one_row :
  select_candidates_and_recommend get_candidates space3 take_first 1
    false true
  = (Ok [(1, ["B"%string])],
     with_metadata space3
       [(0, MkMetadata true false false);
        (1, MkMetadata true false false);
        (2, MkMetadata false false false)]).
Proof. reflexivity. Qed.




(** A callback that names a label twice gets its row twice, and a label
    outside the index is a [KeyError] that leaves the flags alone. *)
Example space3_other_callbacks :
  select_candidates_and_recommend get_candidates space3
    (fun _ _ _ => Ok [1; 1]) 2 false true
  = (Ok [(1, ["B"%string]); (1, ["B"%string])],
     with_metadata space3
       [(0, MkMetadata true false false);
        (1, MkMetadata true false false);
        (2, MkMetadata false false false)]) /\
  select_candidates_and_recommend get_candidates space3
    (fun _ _ _ => Ok [1; 7]) 2 false true
  = (Err (Raise KeyError "not in index"), space3).
Proof. split; reflexivity. Qed.

(** Whatever the call raises, it raises before the assignment to the
    metadata table. *)
Lemma select_error_keeps_searchspace
    (gc : get_candidates_t) (searchspace searchspace' : SearchSpace)
    (recommend : recommend_t) (batch_quantity : Z)
    (allow_repeated allow_measured : bool) (e : exn) :
  select_candidates_and_recommend gc searchspace recommend batch_quantity
    allow_repeated allow_measured = (Err e, searchspace') ->
  searchspace' = searchspace.
Proof.
  unfold select_candidates_and_recommend.
  destruct (gc (discrete searchspace) _ _) as [cand_exp cand_comp].
  destruct (len cand_comp <? batch_quantity); [now intros [= _ <-] |].
  destruct (recommend searchspace cand_comp batch_quantity) as [idxs | e1];
    [| now intros [= _ <-]].
  destruct (loc _ idxs) as [rec | e2]; [| now intros [= _ <-]].
  destruct (loc_set _ idxs _) as [md | e3]; [discriminate |].
  now intros [= _ <-].
Qed.

(** C2: with fewer filtered candidates than [batch_quantity] the call
    raises [NotEnoughPointsLeftError] and leaves the search space, metadata
    included, as it was; and a call that raises anything leaves the search
    space as it was, so the metadata is written only once the selection has
    succeeded. *)
Theorem select_not_enough_points_left
    (gc : get_candidates_t) (searchspace : SearchSpace)
    (recommend : recommend_t) (batch_quantity : Z)
    (allow_repeated allow_measured : bool) :
  (len (snd (gc (discrete searchspace)
               (allow_repeated || negb (empty (continuous searchspace)))
               (allow_measured || negb (empty (continuous searchspace)))))
     < batch_quantity ->
   select_candidates_and_recommend gc searchspace recommend batch_quantity
     allow_repeated allow_measured
   = (Err (Raise NotEnoughPointsLeftError
             (not_enough_points_msg batch_quantity)),
      searchspace)) /\
  (forall e searchspace',
     select_candidates_and_recommend gc searchspace recommend
       batch_quantity allow_repeated allow_measured
     = (Err e, searchspace') ->
     searchspace' = searchspace /\
     metadata (discrete searchspace') = metadata (discrete searchspace)).
Proof.
  split.
  - intros Hlt. unfold select_candidates_and_recommend.
    destruct (gc (discrete searchspace) _ _) as [cand_exp cand_comp].
    simpl in Hlt. apply Z.ltb_lt in Hlt. now rewrite Hlt.
  - intros e searchspace' Hrun.
    rewrite (select_error_keeps_searchspace _ _ _ _ _ _ _ _ Hrun).
    split; reflexivity.
Qed.

(** The theorem at [space3]: two candidates are left, five are asked
    for. *)
Lemma select_not_enough_points_left_space3 :
  select_candidates_and_recommend get_candidates space3 take_first 5
    false true
  = (Err (Raise NotEnoughPointsLeftError (not_enough_points_msg 5)),
     space3) /\
  metadata (discrete
              (snd (select_candidates_and_recommend get_candidates space3
                      take_first 5 false true)))
  = metadata (discrete space3).
Proof.
  destruct (select_not_enough_points_left get_candidates space3 take_first
              5 false true) as [Hfew Herr].
  split.
  - apply Hfew. unfold len. simpl. lia.
  - apply (Herr (Raise NotEnoughPointsLeftError (not_enough_points_msg 5))).
    reflexivity.
Defined.

(** C3: the candidates the helper works with are the computational
    representation [get_candidates] returns at the caller's flags, each
    joined by [or] with [not searchspace.continuous.empty]: their number
    is compared with [batch_quantity], and they are what the callback is
    handed, whose exception or selection decides the call.
    [get_candidates] is consulted at this pair of flags only, and the
    callback at these candidates only.  With a continuous part that is not
    empty both flags are [True], whatever the caller passed; with an empty
    one they are the caller's. *)
Theorem select_candidate_flags
    (gc : get_candidates_t) (searchspace : SearchSpace)
    (recommend : recommend_t) (batch_quantity : Z)
    (allow_repeated allow_measured : bool)
    (candidates : DataFrame comp_row) :
  candidates
  = snd (gc (discrete searchspace)
           (allow_repeated || negb (empty (continuous searchspace)))
           (allow_measured || negb (empty (continuous searchspace)))) ->
  (len candidates < batch_quantity ->
   select_candidates_and_recommend gc searchspace recommend
     batch_quantity allow_repeated allow_measured
   = (Err (Raise NotEnoughPointsLeftError
             (not_enough_points_msg batch_quantity)),
      searchspace)) /\
  (batch_quantity <= len candidates ->
   (forall e,
      recommend searchspace candidates batch_quantity = Err e ->
      select_candidates_and_recommend gc searchspace recommend
        batch_quantity allow_repeated allow_measured
      = (Err e, searchspace)) /\
   (forall idxs,
      recommend searchspace candidates batch_quantity = Ok idxs ->
      fst (select_candidates_and_recommend gc searchspace recommend
             batch_quantity allow_repeated allow_measured)
      = (rec <- loc (exp_rep (discrete searchspace)) idxs ;;
         _ <- loc_set (metadata (discrete searchspace)) idxs
                (set_was_recommended true) ;;
         Ok rec)%result)) /\
  (forall recommend' : recommend_t,
     recommend' searchspace candidates batch_quantity
     = recommend searchspace candidates batch_quantity ->
     select_candidates_and_recommend gc searchspace recommend'
       batch_quantity allow_repeated allow_measured
     = select_candidates_and_recommend gc searchspace recommend
         batch_quantity allow_repeated allow_measured) /\
  (forall gc' : get_candidates_t,
     gc' (discrete searchspace)
         (allow_repeated || negb (empty (continuous searchspace)))
         (allow_measured || negb (empty (continuous searchspace)))
     = gc (discrete searchspace)
         (allow_repeated || negb (empty (continuous searchspace)))
         (allow_measured || negb (empty (continuous searchspace))) ->
     select_candidates_and_recommend gc' searchspace recommend
       batch_quantity allow_repeated allow_measured
     = select_candidates_and_recommend gc searchspace recommend
         batch_quantity allow_repeated allow_measured) /\
  (empty (continuous searchspace) = false ->
   candidates = snd (gc (discrete searchspace) true true) /\
   select_candidates_and_recommend gc searchspace recommend
     batch_quantity allow_repeated allow_measured
   = select_candidates_and_recommend gc searchspace recommend
       batch_quantity true true) /\
  (empty (continuous searchspace) = true ->
   candidates = snd (gc (discrete searchspace) allow_repeated
                       allow_measured)).
Proof.
  intros Hc.
  assert (Hrun :
    select_candidates_and_recommend gc searchspace recommend
      batch_quantity allow_repeated allow_measured
    = if len candidates <? batch_quantity then
        (Err (Raise NotEnoughPointsLeftError
                (not_enough_points_msg batch_quantity)), searchspace)
      else
        match recommend searchspace candidates batch_quantity with
        | Err e => (Err e, searchspace)
        | Ok idxs =>
            match loc (exp_rep (discrete searchspace)) idxs with
            | Err e => (Err e, searchspace)
            | Ok rec =>
                match loc_set (metadata (discrete searchspace)) idxs
                        (set_was_recommended true) with
                | Err e => (Err e, searchspace)
                | Ok md => (Ok rec, with_metadata searchspace md)
                end
            end
        end).
  { unfold select_candidates_and_recommend. rewrite Hc.
    now destruct (gc _ _ _). }
  split; [| split; [| split; [| split; [| split]]]].
  - intros Hfew. rewrite Hrun.
    now rewrite (proj2 (Z.ltb_lt _ _) Hfew).
  - intros Henough.
    assert (Hge : (len candidates <? batch_quantity) = false).
    { apply Z.ltb_ge. exact Henough. }
    split.
    + intros e He. now rewrite Hrun, Hge, He.
    + intros idxs Hidxs. rewrite Hrun, Hge, Hidxs.
      destruct (loc (exp_rep (discrete searchspace)) idxs); [| reflexivity].
      cbn [bind].
      now destruct (loc_set (metadata (discrete searchspace)) idxs _).
  - intros recommend' Hsame. clear Hrun. subst candidates.
    unfold select_candidates_and_recommend.
    destruct (gc _ _ _) as [ce cc]. cbn [snd] in Hsame.
    now rewrite Hsame.
  - intros gc' Hagree. unfold select_candidates_and_recommend.
    now rewrite Hagree.
  - intros Hne. rewrite Hc. unfold select_candidates_and_recommend.
    rewrite Hne. simpl. now rewrite !orb_true_r.
  - intros He. rewrite Hc, He. simpl. now rewrite !orb_false_r.
Qed.

(** The theorem at [space3_hybrid]: with both flags [False] all three rows
    are offered, the flagged row [0] among them, and the call is the call
    with both flags [True]. *)
Lemma select_candidate_flags_space3_hybrid :
  select_candidates_and_recommend get_candidates space3_hybrid take_first 3
    false false
  = select_candidates_and_recommend get_candidates space3_hybrid take_first
      3 true true.
Proof.
  apply (select_candidate_flags get_candidates space3_hybrid take_first 3
           false false
           [(0, [Fin 0]); (1, [Fin 1]); (2, [Fin 2])] eq_refl).
  reflexivity.
Defined.

(** With the flags [False] a discrete space offers rows [1] and [2]; next
    to a continuous part all three rows are offered, the flagged row [0]
    among them. *)
Example candidates_space3 :
  index (snd (get_candidates (discrete space3) false false)) = [1; 2] /\
  fst (select_candidates_and_recommend get_candidates space3_hybrid
         take_first 3 false false)
  = Ok [(0, ["A"%string]); (1, ["B"%string]); (2, ["C"%string])] /\
  exn_cls_of (fst (select_candidates_and_recommend get_candidates space3
                     take_first 3 false false))
  = Some NotEnoughPointsLeftError.
Proof. repeat split. Qed.

(** A keyword given at the call wins over the one a partial object
    stores; without it the stored one is used. *)
Lemma partial_beta (cls : botorch_acqf) (stored : pyfloat) (kw : kwargs) :
  beta_of (call (Partial cls [("beta"%string, stored)]) kw)
  = match kw_lookup "beta" kw with
    | Some b => Some b
    | None => Some stored
    end.
Proof.
  unfold beta_of, call, kw_lookup. simpl.
  induction kw as [| [name b] kw IH]; simpl; [reflexivity |].
  destruct (String.eqb name "beta"); [reflexivity | exact IH].
Qed.

(** C4: under the keys [UCB] and [qUCB] the mapping holds the class with
    [beta=1.0] bound; [get_acquisition_function_cls] hands that entry to
    [debotorchize]; an instance built from it has [beta = 1.0] unless the
    call passes [beta] itself. *)
Theorem ucb_family_beta_is_one
    (wrapped : Type) (debotorchize : callable -> wrapped)
    (self : BayesianRecommender) :
  In (acquisition_function_cls self) ["UCB"%string; "qUCB"%string] ->
  exists cls,
    In cls [UpperConfidenceBound; qUpperConfidenceBound] /\
    getitem (acquisition_function_cls self)
    = Ok (Partial cls [("beta"%string, Fin 1)]) /\
    get_acquisition_function_cls wrapped debotorchize self
    = Ok (debotorchize (Partial cls [("beta"%string, Fin 1)])) /\
    beta_of (call (Partial cls [("beta"%string, Fin 1)]) []) = Some (Fin 1) /\
    forall kw,
      beta_of (call (Partial cls [("beta"%string, Fin 1)]) kw)
      = match kw_lookup "beta" kw with
        | Some b => Some b
        | None => Some (Fin 1)
        end.
Proof.
  unfold get_acquisition_function_cls.
  intros [<- | [<- | []]].
  - exists UpperConfidenceBound. simpl.
    split; [tauto |]. repeat split. intros kw. apply partial_beta.
  - exists qUpperConfidenceBound. simpl.
    split; [tauto |]. repeat split. intros kw. apply partial_beta.
Qed.

(** The theorem for a recommender built with [acquisition_function_cls =
    "UCB"], the wrapper left as the identity. *)
Lemma ucb_family_beta_is_one_UCB :
  exists cls,
    In cls [UpperConfidenceBound; qUpperConfidenceBound] /\
    getitem "UCB" = Ok (Partial cls [("beta"%string, Fin 1)]) /\
    get_acquisition_function_cls callable (fun f => f)
      (MkBayesianRecommender "GP" "UCB")
    = Ok (Partial cls [("beta"%string, Fin 1)]) /\
    beta_of (call (Partial cls [("beta"%string, Fin 1)]) []) = Some (Fin 1) /\
    forall kw,
      beta_of (call (Partial cls [("beta"%string, Fin 1)]) kw)
      = match kw_lookup "beta" kw with
        | Some b => Some b
        | None => Some (Fin 1)
        end.
Proof.
  apply (ucb_family_beta_is_one callable (fun f => f)
           (MkBayesianRecommender "GP" "UCB")).
  simpl. tauto.
Defined.

(** The other entries bind no keyword, and an unknown key is a
    [KeyError]. *)
Example mapping_other_entries :
  getitem "qEI" = Ok (Class qExpectedImprovement) /\
  beta_of (call (Class ExpectedImprovement) []) = None /\
  raises (getitem "qNIPV") KeyError.
Proof. repeat split. eexists. reflexivity. Qed.

End RecommenderFacts.

(* ===================================================================== *)
(** ** Acquisition functions *)

Module AcqfsFacts.

Import Acqfs Statements Inputs.
Import Acqfs.qNegIntegratedPosteriorVariance.

Local Open Scope Q_scope.

Lemma fgt_Fin (x y : Q) : fgt (Fin x) (Fin y) = true <-> y < x.
Proof.
  unfold fgt, flt, fle. rewrite negb_true_iff.
  split.
  - intros H. apply Qnot_le_lt. intros Hle.
    apply Qle_bool_iff in Hle. congruence.
  - intros H. destruct (Qle_bool x y) eqn:E; [| reflexivity].
    apply Qle_bool_iff in E. exfalso. exact (Qlt_not_le _ _ H E).
Qed.

Lemma fle_Fin (x y : Q) : fle (Fin x) (Fin y) = true <-> x <= y.
Proof. unfold fle. apply Qle_bool_iff. Qed.

Lemma fge_Fin (x y : Q) : fge (Fin x) (Fin y) = true <-> y <= x.
Proof. unfold fge. apply fle_Fin. Qed.

(** Only a finite value can lie in the interval of the validators. *)
Lemma in_unit_interval (f : pyfloat) :
  fgt f (Fin 0) = true -> fle f (Fin 1) = true ->
  exists q, f = Fin q /\ 0 < q /\ q <= 1.
Proof.
  destruct f as [| q | |]; try discriminate.
  intros Hgt Hle. exists q. split; [reflexivity |].
  split; [now apply fgt_Fin | now apply fle_Fin].
Qed.

(** What the constructor guarantees about an instance. *)
Lemma constructed_valid (self : t) :
  constructed self ->
  exists q,
    sampling_fraction self = Fin q /\ 0 < q /\ q <= 1 /\
    is_double (Fin q) /\
    (sampling_n_points self = None \/
     exists k, sampling_n_points self = Some k /\ (0 < k)%Z).
Proof.
  intros (sf & snp & method & Hnum & Hnew). unfold new in Hnew.
  apply bind_ok in Hnew as (f & Hf & Hnew).
  apply bind_ok in Hnew as ([] & Hsf & Hnew).
  apply bind_ok in Hnew as (n & Hsnp & Hnew).
  injection Hnew as <-. cbn [sampling_fraction sampling_n_points].
  cbn [and_] in Hsf.
  apply bind_ok in Hsf as ([] & Hgt & Hsf).
  apply bind_ok in Hsf as ([] & Hle & _).
  unfold gt in Hgt. unfold le in Hle.
  destruct (fgt f (Fin 0)) eqn:Egt; [| discriminate].
  destruct (fle f (Fin 1)) eqn:Ele; [| discriminate].
  destruct (in_unit_interval _ Egt Ele) as (q & -> & Hpos & Hone).
  exists q. split; [reflexivity |]. split; [exact Hpos |].
  split; [exact Hone |].
  split; [exact (RoundingFacts.float_is_double sf _ Hnum Hf) |].
  destruct snp as [v |].
  - apply bind_ok in Hsnp as ([] & Hv & Hsnp).
    apply bind_ok in Hsnp as (k & Hk & Hsnp).
    injection Hsnp as <-. right. exists k. split; [reflexivity |].
    unfold gt_int in Hv. destruct (num_gt v 0) eqn:Ev; [| discriminate].
    destruct v as [z | g]; [| discriminate].
    injection Hk as <-. cbn [num_gt] in Ev. now apply Z.ltb_lt in Ev.
  - injection Hsnp as <-. now left.
Qed.

(** An integer other than one does not convert to a fraction in
    (0, 1]. *)
Lemma integer_fraction (z : Z) (q : Q) :
  z <> 1%Z -> float (PyInt z) = Ok (Fin q) -> ~ (0 < q /\ q <= 1).
Proof.
  intros Hz Hf [Hpos Hone]. unfold float in Hf.
  destruct (double (inject_Z z)) as [| r | |] eqn:Hr; try discriminate.
  injection Hf as ->.
  destruct (Z.lt_trichotomy z 1) as [Hlt | [Heq | Hgt]]; [| lia |].
  - unfold double, round in Hr.
    destruct (Qle_bool 0 (inject_Z z)) eqn:Hs.
    + apply Qle_bool_iff in Hs. change 0 with (inject_Z 0) in Hs.
      rewrite <- Zle_Qle in Hs. assert (z = 0%Z) as -> by lia.
      vm_compute in Hr. injection Hr as <-. discriminate Hpos.
    + assert (Hneg : 0 <= - inject_Z z).
      { rewrite <- inject_Z_opp. change 0 with (inject_Z 0).
        rewrite <- Zle_Qle. lia. }
      destruct (round_pos binary64 (- inject_Z z)) as [| r0 | |] eqn:Hr0;
        try discriminate.
      cbn [fneg] in Hr. injection Hr as <-.
      destruct (RoundingFacts.round_pos_value binary64 _ r0
                  RoundingFacts.binary64_well_formed Hneg Hr0)
        as [Hr0pos _].
      apply (Qlt_not_le _ _ Hpos).
      apply (Qplus_le_l _ _ r0). now ring_simplify.
  - assert (Hle : fle (double (inject_Z 2)) (double (inject_Z z)) = true).
    { apply RoundingFacts.double_le; [discriminate |].
      rewrite <- Zle_Qle. lia. }
    rewrite RoundingFacts.double_count, Hr in Hle by lia.
    apply Qle_bool_iff in Hle.
    apply (Qle_not_lt _ _ (Qle_trans _ _ _ Hle Hone)). reflexivity.
Qed.

(** C9: [beta = -0.1] is refused and [beta = 0], [beta = 2.5] are
    accepted by [UpperConfidenceBound] and by [qUpperConfidenceBound], which
    accept exactly the numbers that convert to a float [>= 0.0] and refuse
    the others with a [ValueError]; [qNegIntegratedPosteriorVariance]
    refuses with a [ValueError] every [sampling_fraction] that converts to
    a float outside (0, 1], every integer fraction other than [1], and,
    for a fraction that converts, every [sampling_n_points <= 0].  An
    integer too large for a float is refused by the converter, with its
    [OverflowError], before a validator runs. *)
Theorem hyperparameters_validated :
  (raises (UpperConfidenceBound.new (PyFloat (double (-1 # 10))))
     ValueError /\
   UpperConfidenceBound.new (PyInt 0)
   = Ok (UpperConfidenceBound.Mk (Fin 0)) /\
   UpperConfidenceBound.new (PyFloat (Fin (5 # 2)))
   = Ok (UpperConfidenceBound.Mk (Fin (5 # 2))) /\
   (forall b f,
      float b = Ok f ->
      (fge f (Fin 0) = true ->
       UpperConfidenceBound.new b = Ok (UpperConfidenceBound.Mk f)) /\
      (fge f (Fin 0) = false ->
       raises (UpperConfidenceBound.new b) ValueError)) /\
   (forall b e,
      float b = Err e ->
      UpperConfidenceBound.new b = Err e /\ exn_cls e = OverflowError)) /\
  (raises (qUpperConfidenceBound.new (PyFloat (double (-1 # 10))))
     ValueError /\
   qUpperConfidenceBound.new (PyInt 0)
   = Ok (qUpperConfidenceBound.Mk (Fin 0)) /\
   qUpperConfidenceBound.new (PyFloat (Fin (5 # 2)))
   = Ok (qUpperConfidenceBound.Mk (Fin (5 # 2))) /\
   (forall b f,
      float b = Ok f ->
      (fge f (Fin 0) = true ->
       qUpperConfidenceBound.new b = Ok (qUpperConfidenceBound.Mk f)) /\
      (fge f (Fin 0) = false ->
       raises (qUpperConfidenceBound.new b) ValueError)) /\
   (forall b e,
      float b = Err e ->
      qUpperConfidenceBound.new b = Err e /\ exn_cls e = OverflowError)) /\
  (forall sf f snp method,
     float sf = Ok f ->
     (forall q, f = Fin q -> ~ (0 < q /\ q <= 1)) ->
     raises (new sf snp method) ValueError) /\
  (forall z snp method,
     z <> 1%Z -> is_ok (new (PyInt z) snp method) = false) /\
  (forall sf f k method,
     float sf = Ok f -> (k <= 0)%Z ->
     raises (new sf (Some (PyInt k)) method) ValueError) /\
  (forall sf e snp method,
     float sf = Err e ->
     new sf snp method = Err e /\ exn_cls e = OverflowError).
Proof.
  assert (Hover : forall x e, float x = Err e -> exn_cls e = OverflowError).
  { intros [z | g] e; simpl; [| discriminate].
    destruct (double (inject_Z z)); try discriminate; now intros [= <-]. }
  assert (Hout : forall sf f snp method,
     float sf = Ok f ->
     (forall q, f = Fin q -> ~ (0 < q /\ q <= 1)) ->
     raises (new sf snp method) ValueError).
  { intros sf f snp method Hf Hq. unfold new. rewrite Hf. cbn [bind and_].
    unfold gt, le.
    destruct (fgt f (Fin 0)) eqn:Egt; [| eexists; reflexivity].
    destruct (fle f (Fin 1)) eqn:Ele; [| eexists; reflexivity].
    destruct (in_unit_interval _ Egt Ele) as (q & Hfq & Hpos & Hone).
    exfalso. apply (Hq q Hfq). split; assumption. }
  split; [| split; [| split; [| split; [| split]]]].
  - split; [eexists; vm_compute; reflexivity |].
    split; [vm_compute; reflexivity |]. split; [reflexivity |].
    split.
    + intros b f Hf. unfold UpperConfidenceBound.new, ge. rewrite Hf.
      cbn [bind]. split; intros ->; [reflexivity | eexists; reflexivity].
    + intros b e He. split; [| exact (Hover _ _ He)].
      unfold UpperConfidenceBound.new. now rewrite He.
  - split; [eexists; vm_compute; reflexivity |].
    split; [vm_compute; reflexivity |]. split; [reflexivity |].
    split.
    + intros b f Hf. unfold qUpperConfidenceBound.new, ge. rewrite Hf.
      cbn [bind]. split; intros ->; [reflexivity | eexists; reflexivity].
    + intros b e He. split; [| exact (Hover _ _ He)].
      unfold qUpperConfidenceBound.new. now rewrite He.
  - exact Hout.
  - intros z snp method Hz.
    destruct (float (PyInt z)) as [f | e] eqn:Hf.
    + destruct (Hout (PyInt z) f snp method Hf) as (m & ->);
        [| reflexivity].
      intros q ->. exact (integer_fraction z q Hz Hf).
    + unfold new. now rewrite Hf.
  - intros sf f k method Hf Hk. unfold new. rewrite Hf. cbn [bind and_].
    unfold gt, le.
    destruct (fgt f (Fin 0)); [| eexists; reflexivity].
    destruct (fle f (Fin 1)); [| eexists; reflexivity].
    cbn [bind]. unfold gt_int. cbn [num_gt].
    destruct (Z.ltb_spec 0 k); [lia |]. eexists. reflexivity.
  - intros sf e snp method He. split; [| exact (Hover _ _ He)].
    unfold new. now rewrite He.
Qed.

(** C9 at the fraction [1.5], at zero integration points and at a [beta]
    too large for a float. *)
Lemma hyperparameters_validated_examples :
  raises (new (PyFloat (Fin (3 # 2))) None Random) ValueError /\
  raises (new (PyInt 1) (Some (PyInt 0)) Random) ValueError /\
  exn_cls_of (UpperConfidenceBound.new (PyInt (10 ^ 400)))
  = Some OverflowError.
Proof.
  destruct hyperparameters_validated
    as ((_ & _ & _ & _ & Hbeta) & _ & Hfraction & _ & Hpoints & _).
  split; [| split].
  - apply (Hfraction _ (Fin (3 # 2))); [reflexivity |].
    intros q [= <-] [_ Hle].
    apply Qle_bool_iff in Hle. discriminate.
  - apply (Hpoints _ (Fin 1)); [vm_compute; reflexivity | lia].
  - destruct (Hbeta (PyInt (10 ^ 400))
                (Raise OverflowError "int too large to convert to float"))
      as [-> _]; [vm_compute; reflexivity | reflexivity].
Defined.

(** The values [0.5] and [1.0] of [sampling_fraction] and one, three or no
    [sampling_n_points] are accepted; [0.0], [1.5], NaN and zero points are
    refused, and so is a number of points that is not an integer.  The
    number of points is compared as the integer it is: one too large for a
    float is accepted. *)
Example qnipv_construction :
  new (PyFloat (Fin (1 # 2))) None Random = Ok qnipv_half /\
  new default_sampling_fraction (Some (PyInt 3)) default_sampling_method
  = Ok qnipv_three /\
  new default_sampling_fraction default_sampling_n_points
    default_sampling_method = Ok qnipv_default /\
  exn_cls_of (new (PyFloat (Fin 0)) None Random) = Some ValueError /\
  exn_cls_of (new (PyFloat (Fin (3 # 2))) None Random) = Some ValueError /\
  exn_cls_of (new (PyFloat NaN) None Random) = Some ValueError /\
  exn_cls_of (new (PyInt 1) (Some (PyInt 0)) Random) = Some ValueError /\
  exn_cls_of (new (PyInt 1) (Some (PyFloat (Fin (5 # 2)))) Random)
  = Some TypeError /\
  exn_cls_of (new (PyInt (10 ^ 400)) None Random) = Some OverflowError /\
  is_ok (new (PyInt 1) (Some (PyInt (10 ^ 400))) Random) = true.
Proof. vm_compute. repeat split. Qed.

Lemma constructed_inputs :
  constructed qnipv_default /\ constructed qnipv_half /\
  constructed qnipv_three.
Proof.
  split; [| split].
  - exists default_sampling_fraction, None, Random.
    split; [vm_compute |]; reflexivity.
  - exists (PyFloat (Fin (1 # 2))), None, Random.
    split; [vm_compute |]; reflexivity.
  - exists (PyInt 1), (Some (PyInt 3)), Random.
    split; [exact I | vm_compute; reflexivity].
Defined.

Section IntegrationPoints.

Variable sample_numerical_df :
  DataFrame comp_row -> Z -> SamplingMethod -> result (DataFrame comp_row).
Variable samples_random :
  SubspaceContinuous -> Z -> result (DataFrame comp_row).

Lemma class_named_in_msg :
  occurs_in "qNegIntegratedPosteriorVariance" purely_continuous_msg.
Proof.
  exists ("'sampling_n_points' must be provided for '"
          ++ "<class 'baybe.acquisition.acqfs.")%string.
  exists "'>' whensampling purely continuous search spaces."%string.
  reflexivity.
Qed.

(** C5: on a purely continuous search space, an instance without
    [sampling_n_points] raises the [ValueError] whose message names the
    class; an instance with [sampling_n_points = k], [k > 0], returns what
    [samples_random(k)] returns, which is a frame of [k] rows. *)
Theorem integration_points_purely_continuous
    (self : t) (c : SubspaceContinuous) :
  (sampling_n_points self = None ->
   get_integration_points sample_numerical_df samples_random self
     (MkSearchSpace None (Some c))
   = Err (Raise ValueError purely_continuous_msg) /\
   occurs_in "qNegIntegratedPosteriorVariance" purely_continuous_msg) /\
  (forall k,
     sampling_n_points self = Some k -> (0 < k)%Z ->
     get_integration_points sample_numerical_df samples_random self
       (MkSearchSpace None (Some c))
     = samples_random c k /\
     forall sampled,
       samples_random c k = Ok sampled -> len sampled = k ->
       exists rows,
         get_integration_points sample_numerical_df samples_random self
           (MkSearchSpace None (Some c))
         = Ok rows /\
         len rows = k).
Proof.
  split.
  - intros Hnone. split; [| exact class_named_in_msg].
    unfold get_integration_points, discrete_part, continuous_part.
    simpl. now rewrite Hnone.
  - intros k Hk Hpos.
    assert (Heq :
      get_integration_points sample_numerical_df samples_random self
        (MkSearchSpace None (Some c))
      = samples_random c k).
    { unfold get_integration_points, discrete_part, continuous_part.
      simpl. rewrite Hk. now destruct (samples_random c k). }
    split; [exact Heq |].
    intros sampled Hs Hlen. exists sampled. now rewrite Heq.
Qed.

Lemma ceil_half (D : Z) :
  Qceiling ((1 # 2) * inject_Z D) = ((D + 1) / 2)%Z.
Proof.
  unfold Qceiling, Qfloor, Qmult, Qopp, inject_Z. simpl.
  replace (match D with 0%Z => 0%Z | Z.pos y' => Z.pos y'
                      | Z.neg y' => Z.neg y' end) with D by now destruct D.
  pose proof (Z.div_mod (- D) 2) as H1.
  pose proof (Z.mod_pos_bound (- D) 2) as H2.
  pose proof (Z.div_mod (D + 1) 2) as H3.
  pose proof (Z.mod_pos_bound (D + 1) 2) as H4.
  lia.
Qed.

(** The double product of a fraction in [[0, 1]] and a count lies
    between nought and the count. *)
Lemma fraction_of_count (q : Q) (D : Z) :
  0 <= q -> q <= 1 -> (0 <= D <= exact_counts)%Z ->
  exists r,
    fmul (Fin q) (Fin (inject_Z D)) = Fin r /\ 0 <= r /\ r <= inject_Z D.
Proof.
  intros Hq Hone [HD0 HD].
  assert (HDq : 0 <= inject_Z D).
  { change 0 with (inject_Z 0). now rewrite <- Zle_Qle. }
  apply (RoundingFacts.double_below_count (q * inject_Z D) D).
  - now apply Qmult_le_0_compat.
  - rewrite <- (Qmult_1_l (inject_Z D)) at 2.
    now apply Qmult_le_compat_r.
  - exact HD.
Qed.

(** The number of candidates an instance derives from a discrete part. *)
Lemma n_candidates_discrete_value (self : t) (cands : DataFrame comp_row) :
  constructed self -> (len cands <= exact_counts)%Z ->
  exists n,
    n_candidates_discrete self cands = Ok n /\
    (forall k, sampling_n_points self = Some k -> n = k) /\
    (sampling_n_points self = None ->
     exists q r,
       sampling_fraction self = Fin q /\
       fmul (Fin q) (Fin (inject_Z (len cands))) = Fin r /\
       0 <= r /\ r <= inject_Z (len cands) /\ n = Qceiling r).
Proof.
  intros Hc HD.
  destruct (constructed_valid self Hc) as (q & Hq & Hpos & Hone & _ & Hsnp).
  assert (HD0 : (0 <= len cands)%Z) by (unfold len; lia).
  destruct (fraction_of_count q (len cands) (Qlt_le_weak _ _ Hpos) Hone
              (conj HD0 HD)) as (r & Hr & Hr0 & HrD).
  assert (Hceil : ceil_of_fraction self cands = Ok (Qceiling r)).
  { unfold ceil_of_fraction.
    rewrite RoundingFacts.float_count by (unfold exact_counts in HD; lia).
    cbn [bind]. now rewrite Hq, Hr. }
  unfold n_candidates_discrete.
  destruct Hsnp as [Hnone | (k & Hk & Hkpos)].
  - rewrite Hnone, Hceil. exists (Qceiling r). split; [reflexivity |].
    split; [discriminate |]. intros _. now exists q, r.
  - rewrite Hk. cbn [truthy].
    destruct (Z.eqb_spec k 0) as [-> | _]; [lia |].
    cbn [negb]. exists k. split; [reflexivity |].
    split; [now intros k' [= <-] | discriminate].
Qed.

(** Re-indexing the continuous sample and joining it to the discrete one
    lays the rows of the two samples side by side. *)
Lemma set_index_same_length {A} (df : DataFrame A) (new_index : list label) :
  length new_index = length df ->
  set_index df new_index = Ok (combine new_index (map snd df)).
Proof.
  intros H. unfold set_index. now rewrite H, Nat.eqb_refl.
Qed.

Lemma join_reindexed (a b : DataFrame comp_row) :
  map (fun ab => (fst (fst ab), snd (fst ab) ++ snd (snd ab)))
      (combine a (combine (index a) (map snd b)))
  = side_by_side a b.
Proof.
  unfold side_by_side. revert b.
  induction a as [| [l x] a IH]; intros [| [l' y] b]; simpl;
    try reflexivity.
  f_equal. apply IH.
Qed.

Lemma side_by_side_rows (a b : DataFrame comp_row) :
  length a = length b ->
  length (side_by_side a b) = length a /\
  index (side_by_side a b) = index a.
Proof.
  unfold side_by_side, index. revert b.
  induction a as [| [l x] a IH]; intros [| [l' y] b]; simpl;
    try discriminate; intros H.
  - split; reflexivity.
  - destruct (IH b) as [IH1 IH2]; [congruence |].
    split; congruence.
Qed.

(** C6: for an instance and a discrete part of [D] rows, the number of
    candidates is [sampling_n_points] when it is given and
    [math.ceil(sampling_fraction * D)] otherwise, the product being the
    double product, which is [ceil(0.5 * D)] for the fraction one half;
    [sample_numerical_df] is asked for that many rows, and the frame
    returned has the rows it delivers: alone for a discrete space, side by
    side with as many continuous rows for a mixed one.  [D] is a count
    that a double holds exactly. *)
Theorem integration_points_discrete_count
    (self : t) (d : SubspaceDiscrete) :
  constructed self ->
  (len (comp_rep d) <= exact_counts)%Z ->
  exists n,
    n_candidates_discrete self (comp_rep d) = Ok n /\
    (forall k, sampling_n_points self = Some k -> n = k) /\
    (sampling_n_points self = None ->
     ceil (fmul (sampling_fraction self)
                (Fin (inject_Z (len (comp_rep d))))) = Ok n) /\
    (sampling_n_points self = None ->
     sampling_fraction self = Fin (1 # 2) ->
     n = Qceiling ((1 # 2) * inject_Z (len (comp_rep d))) /\
     n = ((len (comp_rep d) + 1) / 2)%Z) /\
    get_integration_points sample_numerical_df samples_random self
      (MkSearchSpace (Some d) None)
    = sample_numerical_df (comp_rep d) n (sampling_method self) /\
    forall sampled,
      sample_numerical_df (comp_rep d) n (sampling_method self)
      = Ok sampled ->
      len sampled = n ->
      forall c sampled_conti,
        n <> 0%Z ->
        samples_random c n = Ok sampled_conti ->
        len sampled_conti = n ->
        get_integration_points sample_numerical_df samples_random self
          (MkSearchSpace (Some d) (Some c))
        = Ok (side_by_side sampled sampled_conti) /\
        len (side_by_side sampled sampled_conti) = n /\
        index (side_by_side sampled sampled_conti) = index sampled.
Proof.
  intros Hc HD.
  destruct (n_candidates_discrete_value self (comp_rep d) Hc HD)
    as (n & Hn & Hgiven & Hfrac).
  assert (HD0 : (0 <= len (comp_rep d))%Z) by (unfold len; lia).
  exists n. split; [exact Hn |]. split; [exact Hgiven |].
  split; [| split; [| split]].
  - intros Hnone.
    destruct (Hfrac Hnone) as (q & r & Hq & Hr & _ & _ & ->).
    now rewrite Hq, Hr.
  - intros Hnone Hhalf.
    destruct (Hfrac Hnone) as (q & r & Hq & Hr & _ & _ & ->).
    rewrite Hhalf in Hq. injection Hq as <-.
    unfold fmul, fmul_at in Hr.
    change (round binary64 ?x) with (double x) in Hr.
    rewrite RoundingFacts.double_half_count in Hr
      by (unfold exact_counts in HD; lia).
    apply RoundingFacts.Fin_inj in Hr. subst r.
    rewrite (Qceiling_comp _ _ (Qred_correct _)).
    split; [reflexivity | apply ceil_half].
  - unfold get_integration_points, discrete_part, continuous_part.
    cbn [discrete continuous]. rewrite Hn. cbn [bind].
    now destruct (sample_numerical_df (comp_rep d) n (sampling_method self)).
  - intros sampled Hs Hlen c sc Hnz Hsc Hlensc.
    assert (Hsame : length sampled = length sc).
    { unfold len in *. lia. }
    destruct (side_by_side_rows sampled sc Hsame) as [Hrows Hidx].
    split; [| split; [unfold len in *; lia | exact Hidx]].
    unfold get_integration_points, discrete_part, continuous_part.
    cbn [discrete continuous]. rewrite Hn. cbn [bind]. rewrite Hs.
    cbn [bind fst snd truthy].
    destruct (Z.eqb_spec n 0) as [-> | _]; [contradiction |].
    cbn [negb]. rewrite Hsc. cbn [bind].
    rewrite set_index_same_length
      by (rewrite index_length; exact Hsame).
    cbn [bind app concat_axis1 fold_left].
    now rewrite join_reindexed.
Qed.

(** C10: on a search space whose discrete part has no rows next to a
    continuous part, an instance without [sampling_n_points] derives zero
    candidates from the discrete part and asks the discrete sampler for
    no rows; what the sampler raises is raised, and once it has returned
    the zero counts as absent and the call raises the [ValueError] of the
    purely continuous case.  With [sampling_n_points = k] the discrete
    sampler is asked for [k] rows of the empty frame first: what it raises
    is raised, and a sampler that gives the rows it is asked for, out of
    the frame, has to raise, so that no continuous row is sampled; only
    after a discrete sample has come back is the continuous part sampled
    with [k]. *)
Theorem integration_points_empty_discrete
    (self : t) (c : SubspaceContinuous) :
  constructed self ->
  (sampling_n_points self = None ->
   n_candidates_discrete self [] = Ok 0%Z /\
   (forall e,
      sample_numerical_df [] 0%Z (sampling_method self) = Err e ->
      get_integration_points sample_numerical_df samples_random self
        (MkSearchSpace (Some (MkDiscrete [])) (Some c)) = Err e) /\
   (forall sampled,
      sample_numerical_df [] 0%Z (sampling_method self) = Ok sampled ->
      get_integration_points sample_numerical_df samples_random self
        (MkSearchSpace (Some (MkDiscrete [])) (Some c))
      = Err (Raise ValueError purely_continuous_msg))) /\
  (forall k,
     sampling_n_points self = Some k ->
     (0 < k)%Z /\
     n_candidates_discrete self [] = Ok k /\
     (forall e,
        sample_numerical_df [] k (sampling_method self) = Err e ->
        get_integration_points sample_numerical_df samples_random self
          (MkSearchSpace (Some (MkDiscrete [])) (Some c)) = Err e) /\
     (samples_the_rows_asked sample_numerical_df ->
      exists e,
        sample_numerical_df [] k (sampling_method self) = Err e /\
        get_integration_points sample_numerical_df samples_random self
          (MkSearchSpace (Some (MkDiscrete [])) (Some c)) = Err e) /\
     (forall sampled,
        sample_numerical_df [] k (sampling_method self) = Ok sampled ->
        get_integration_points sample_numerical_df samples_random self
          (MkSearchSpace (Some (MkDiscrete [])) (Some c))
        = (sampled_conti <- samples_random c k ;;
           sampled_conti <- set_index sampled_conti (index sampled) ;;
           concat_axis1 [sampled; sampled_conti])%result)).
Proof.
  intros Hc.
  assert (Hempty : (len (@nil (label * comp_row)) <= exact_counts)%Z)
    by discriminate.
  destruct (n_candidates_discrete_value self [] Hc Hempty)
    as (n & Hn & Hgiven & Hfrac).
  destruct (constructed_valid self Hc) as (q & Hq & _ & _ & _ & Hsnp).
  assert (Hraise : forall e,
    sample_numerical_df [] n (sampling_method self) = Err e ->
    get_integration_points sample_numerical_df samples_random self
      (MkSearchSpace (Some (MkDiscrete [])) (Some c)) = Err e).
  { intros e He. unfold get_integration_points, discrete_part.
    cbn [discrete comp_rep]. rewrite Hn. cbn [bind]. now rewrite He. }
  split.
  - intros Hnone.
    assert (Hzero : n = 0%Z).
    { destruct (Hfrac Hnone) as (q' & r & _ & _ & Hr0 & Hr & ->).
      change (inject_Z (len [])) with 0 in Hr.
      rewrite (Qceiling_comp r 0 (Qle_antisym _ _ Hr Hr0)).
      reflexivity. }
    subst n. split; [exact Hn |]. split; [exact Hraise |].
    intros sampled Hs.
    unfold get_integration_points, discrete_part, continuous_part.
    cbn [discrete continuous comp_rep]. rewrite Hn. cbn [bind].
    rewrite Hs. cbn [bind fst snd truthy Z.eqb negb]. now rewrite Hnone.
  - intros k Hk. rewrite (Hgiven k Hk) in Hn, Hraise.
    destruct Hsnp as [Hnone | (k' & Hk' & Hpos)]; [congruence |].
    assert (k' = k) as -> by congruence.
    split; [exact Hpos |]. split; [exact Hn |].
    split; [exact Hraise |]. split.
    + intros Hsampler.
      destruct (sample_numerical_df [] k (sampling_method self))
        as [sampled | e] eqn:Hs.
      * exfalso. destruct (Hsampler _ _ _ _ Hs) as [Hlen Hincl].
        destruct sampled as [| row sampled].
        -- unfold len in Hlen. simpl in Hlen. lia.
        -- exact (Hincl row (or_introl eq_refl)).
      * exists e. split; [reflexivity | now apply Hraise].
    + intros sampled Hs.
      unfold get_integration_points, discrete_part, continuous_part.
      cbn [discrete continuous comp_rep]. rewrite Hn. cbn [bind].
      rewrite Hs. cbn [bind fst snd truthy].
      destruct (Z.eqb_spec k 0) as [-> | _]; [lia |].
      cbn [negb].
      destruct (samples_random c k) as [sc | e]; [| reflexivity].
      cbn [bind].
      destruct (set_index sc (index sampled)) as [sc' | e]; reflexivity.
Qed.

End IntegrationPoints.

(** The theorem at the unit box, without and with three integration
    points. *)
Lemma integration_points_purely_continuous_unit_box :
  get_integration_points sample_head samples_lower qnipv_default
    continuous_space
  = Err (Raise ValueError purely_continuous_msg) /\
  exists rows,
    get_integration_points sample_head samples_lower qnipv_three
      continuous_space = Ok rows /\
    len rows = 3%Z.
Proof.
  split.
  - apply (integration_points_purely_continuous sample_head samples_lower
             qnipv_default unit_box).
    reflexivity.
  - destruct (integration_points_purely_continuous sample_head samples_lower
                qnipv_three unit_box) as [_ Hk].
    destruct (Hk 3%Z) as [_ Hrows]; [reflexivity | reflexivity |].
    apply (Hrows [(0, [Fin 0]); (1, [Fin 0]); (2, [Fin 0])]%Z);
      reflexivity.
Defined.

Lemma discrete5_count : (len (comp_rep discrete5) <= exact_counts)%Z.
Proof. discriminate. Defined.

(** C6 at five discrete rows and the fraction one half: three rows, alone
    and next to the unit box. *)
Lemma integration_points_discrete_count_half :
  n_candidates_discrete qnipv_half (comp_rep discrete5) = Ok 3%Z /\
  get_integration_points sample_head samples_lower qnipv_half
    discrete_space5
  = Ok [(10, [Fin 0]); (11, [Fin 1]); (12, [Fin 2])]%Z /\
  get_integration_points sample_head samples_lower qnipv_half hybrid_space5
  = Ok [(10, [Fin 0; Fin 0]); (11, [Fin 1; Fin 0]);
        (12, [Fin 2; Fin 0])]%Z.
Proof.
  destruct (integration_points_discrete_count sample_head samples_lower
              qnipv_half discrete5 (proj1 (proj2 constructed_inputs))
              discrete5_count)
    as (n & Hn & _ & _ & Hhalf & Hdisc & Hmixed).
  destruct (Hhalf eq_refl eq_refl) as [_ Hthree].
  change (n = 3%Z) in Hthree. subst n.
  split; [exact Hn |]. split; [exact Hdisc |].
  apply (Hmixed [(10, [Fin 0]); (11, [Fin 1]); (12, [Fin 2])]%Z
           eq_refl eq_refl unit_box
           [(0, [Fin 0]); (1, [Fin 0]); (2, [Fin 0])]%Z);
    [discriminate | reflexivity | reflexivity].
Defined.

(** The product is the double product: at the double nearest to [0.2]
    five rows give one candidate, where the exact product of that double
    and five is more than one; at the double nearest to [0.07] a hundred
    rows give eight. *)
Example double_product_runs :
  n_candidates_discrete (Mk (double (2 # 10)) None Random)
    (comp_rep discrete5) = Ok 1%Z /\
  (exists q, double (2 # 10) = Fin q /\ Qceiling (q * 5) = 2%Z) /\
  n_candidates_discrete (Mk (double (7 # 100)) None Random)
    (map (fun i => (Z.of_nat i, [Fin 0])) (seq 0 100)) = Ok 8%Z.
Proof.
  split; [vm_compute; reflexivity |].
  split; [eexists; split; vm_compute; reflexivity |].
  vm_compute. reflexivity.
Qed.

Lemma sample_head_keeps_its_word : samples_the_rows_asked sample_head.
Proof.
  intros df n method sampled. unfold sample_head.
  destruct ((0 <=? n) && (n <=? len df))%Z eqn:Hn; [| discriminate].
  intros [= <-]. apply andb_true_iff in Hn as [H0 Hlen].
  apply Z.leb_le in H0. apply Z.leb_le in Hlen. unfold len in *.
  split.
  - rewrite length_firstn. lia.
  - intros row Hrow. rewrite <- (firstn_skipn (Z.to_nat n) df).
    apply in_or_app. now left.
Qed.

(** C10 at the empty discrete part: without [sampling_n_points] the
    [ValueError] of the purely continuous case; with three points the
    error of the discrete sampler, which has no rows to give. *)
Lemma integration_points_empty_discrete_unit_box :
  get_integration_points sample_head samples_lower qnipv_default
    hybrid_space0
  = Err (Raise ValueError purely_continuous_msg) /\
  get_integration_points sample_head samples_lower qnipv_three
    hybrid_space0
  = Err (Raise ValueError "Cannot take a larger sample than population").
Proof.
  split.
  - destruct (integration_points_empty_discrete sample_head samples_lower
                qnipv_default unit_box (proj1 constructed_inputs))
      as [Hnone _].
    destruct (Hnone eq_refl) as (_ & _ & Hraise).
    apply (Hraise []). reflexivity.
  - destruct (integration_points_empty_discrete sample_head samples_lower
                qnipv_three unit_box
                (proj2 (proj2 constructed_inputs)))
      as [_ Hk].
    destruct (Hk 3%Z eq_refl) as (_ & _ & Hraise & _).
    apply Hraise. reflexivity.
Defined.

(** With three integration points and a discrete part without rows, the
    discrete sampler is asked for three rows it does not have: the call
    raises, whatever the continuous sampler would give, and returns no
    rows. *)
Lemma empty_discrete_part_samples_no_continuous_rows :
  samples_the_rows_asked sample_head /\
  (forall samples_random,
     get_integration_points sample_head samples_random qnipv_three
       hybrid_space0
     = Err (Raise ValueError
              "Cannot take a larger sample than population")) /\
  ~ (exists rows,
       get_integration_points sample_head samples_lower qnipv_three
         hybrid_space0 = Ok rows /\
       len rows = 3%Z).
Proof.
  split; [exact sample_head_keeps_its_word |].
  split; [reflexivity |].
  intros (rows & Hrows & _). discriminate Hrows.
Qed.

(** On the empty discrete part the default instance asks the discrete
    sampler for no rows and the instance with three points asks it for
    three; a sampler that returned the empty frame all the same would let
    the call go on to three continuous rows, which do not fit it. *)
Example empty_discrete_runs :
  n_candidates_discrete qnipv_default [] = Ok 0%Z /\
  n_candidates_discrete qnipv_three [] = Ok 3%Z /\
  exn_cls_of (get_integration_points sample_head samples_lower qnipv_three
                hybrid_space0) = Some ValueError /\
  exn_cls_of (get_integration_points (fun df _ _ => Ok df) samples_lower
                qnipv_three hybrid_space0) = Some ValueError.
Proof. vm_compute. repeat split. Qed.

End AcqfsFacts.

(* ===================================================================== *)
(** ** The mean prediction surrogate *)

Module NaiveFacts.

Import Naive.MeanPredictionSurrogate Statements Inputs.

Local Open Scope Q_scope.

Lemma dtype_well_formed (d : dtype) :
  well_formed (format_of d).
Proof.
  destruct d;
    [apply RoundingFacts.binary32_well_formed
    | apply RoundingFacts.binary64_well_formed].
Qed.


(** Multiplying a tensor of ones leaves the factor, as a value of the
    dtype, in every entry. *)
Lemma scale_ones (d : dtype) (m : pyfloat) (n : nat) :
  scale d m (ones n) = repeat (cast d m) n.
Proof.
  assert (Hone : fmul_at (format_of d) (cast d m) (Fin 1) = cast d m).
  { destruct m as [| q | |]; try reflexivity. cbn [cast].
    destruct (round (format_of d) q) as [| r | |] eqn:Hr;
      try reflexivity.
    cbn [fmul_at].
    rewrite (RoundingFacts.round_comp _ (r * 1) r) by ring.
    exact (RoundingFacts.round_idem _ q r (dtype_well_formed d) Hr). }
  unfold scale, ones. induction n as [| n IH]; simpl; [reflexivity |].
  now rewrite Hone, IH.
Qed.

(** *** Adding up in some order *)

Lemma split_nth {A} (l : list A) (k : nat) (d : A) :
  (k < length l)%nat ->
  l = firstn k l ++ nth k l d :: skipn (S k) l.
Proof.
  revert k. induction l as [| a l IH]; intros k Hk; simpl in Hk; [lia |].
  destruct k as [| k]; [reflexivity |].
  cbn [firstn nth skipn app]. f_equal. apply IH. lia.
Qed.

(** Taking an entry out leaves the others. *)
Lemma pick_permutation {A} (i : nat) (l : list A) (d : A) :
  l <> [] ->
  Permutation l (fst (pick i l d) :: snd (pick i l d)).
Proof.
  intros Hl. unfold pick. cbn [fst snd].
  assert (Hk : (i mod length l < length l)%nat).
  { apply Nat.mod_upper_bound. now destruct l. }
  rewrite (split_nth l (i mod length l) d Hk) at 1.
  symmetry. apply Permutation_middle.
Qed.

Lemma pick_length {A} (i : nat) (l : list A) (d : A) :
  l <> [] -> S (length (snd (pick i l d))) = length l.
Proof.
  intros Hl.
  exact (eq_sym (Permutation_length (pick_permutation i l d Hl))).
Qed.

Lemma pick_map {A B} (g : A -> B) (i : nat) (l : list A) (d : A) :
  pick i (map g l) (g d)
  = (g (fst (pick i l d)), map g (snd (pick i l d))).
Proof.
  unfold pick. cbn [fst snd]. rewrite length_map.
  now rewrite map_nth, map_app, firstn_map, skipn_map.
Qed.

(** One step of the sum: two partial sums are replaced by their sum. *)
Lemma sum_loop_step (fmt : format) (pair : nat -> nat * nat) (fuel : nat)
    (a b : pyfloat) (l : list pyfloat) :
  exists x y rest,
    Permutation (a :: b :: l) (x :: y :: rest) /\
    sum_loop fmt pair (S fuel) (a :: b :: l)
    = sum_loop fmt pair fuel (fadd_at fmt x y :: rest).
Proof.
  cbn [sum_loop].
  destruct (pair (length (a :: b :: l))) as [i j].
  pose proof (pick_permutation i (a :: b :: l) a ltac:(discriminate))
    as H1.
  destruct (pick i (a :: b :: l) a) as [x r1] eqn:E1. cbn [fst snd] in H1.
  assert (Hr1 : r1 <> []).
  { intros ->. apply Permutation_length in H1. discriminate. }
  pose proof (pick_permutation j r1 a Hr1) as H2.
  destruct (pick j r1 a) as [y r2] eqn:E2. cbn [fst snd] in H2.
  exists x, y, r2. split; [| reflexivity].
  apply Permutation_trans with (1 := H1). now constructor.
Qed.

Lemma fadd_nan_r (fmt : format) (a : pyfloat) : fadd_at fmt a NaN = NaN.
Proof. now destruct a. Qed.

(** A NaN among the entries makes the sum NaN. *)
Lemma sum_loop_nan (fmt : format) (pair : nat -> nat * nat) (fuel : nat) :
  forall l,
    (length l <= S fuel)%nat -> In NaN l ->
    sum_loop fmt pair fuel l = NaN.
Proof.
  induction fuel as [| fuel IH]; intros l Hlen Hin.
  - destruct l as [| a [| b l]]; [contradiction | | simpl in Hlen; lia].
    destruct Hin as [-> | []]. reflexivity.
  - destruct l as [| a [| b l]]; [contradiction | |].
    + destruct Hin as [-> | []]. reflexivity.
    + destruct (sum_loop_step fmt pair fuel a b l)
        as (x & y & rest & Hperm & ->).
      apply IH.
      * apply Permutation_length in Hperm. simpl in *. lia.
      * apply (Permutation_in _ Hperm) in Hin.
        destruct Hin as [-> | [-> | Hin]].
        -- now left.
        -- left. apply fadd_nan_r.
        -- now right.
Qed.




Section Torch.

Variable target_dtype : dtype.
Variable default_dtype : dtype.
Variable order : nat -> nat -> nat * nat.

(** The mean of no targets, and of targets one of which is NaN, is
    NaN. *)
Lemma tmean_undefined (t : Tensor1) :
  t = [] \/ In NaN t -> tmean target_dtype order t = NaN.
Proof.
  intros [-> | Hin].
  - destruct target_dtype; reflexivity.
  - unfold tmean, tsum.
    now rewrite (sum_loop_nan _ _ _ t (Nat.le_succ_diag_r _) Hin).
Qed.



End Torch.



(** Three candidates after fitting on [1, 2, 3]; targets whose sum is
    beyond the doubles; no moments before fitting. *)
Example mean_prediction_runs :
  _estimate_moments float32
    (_fit float64 index_order new [] [Fin 1; Fin 2; Fin 3])
    [[Fin 0]; [Fin 5]; [Fin 9]]
  = Ok ([Fin 2; Fin 2; Fin 2], [Fin 1; Fin 1; Fin 1]) /\
  _model (_fit float64 index_order new []
            [Fin (inject_Z (2 ^ 1023)); Fin (inject_Z (2 ^ 1023))])
  = Some PosInf /\
  exn_cls_of (_estimate_moments float32 new [[Fin 0]]) = Some TypeError /\
  joint_posterior = false /\ supports_transfer_learning = false.
Proof. vm_compute. repeat split. Qed.

End NaiveFacts.

(* ===================================================================== *)
(** ** The column transformer *)

Module ScalingFacts.

Import Scaling Statements Inputs.

(** [combinations2] lists the pairs of entries by position, the earlier
    entry first. *)
Lemma combinations2_positions {A} (l : list A) (x y : A) :
  In (x, y) (combinations2 l) <->
  exists i j,
    (i < j)%nat /\ nth_error l i = Some x /\ nth_error l j = Some y.
Proof.
  induction l as [| a l IH]; simpl.
  - split; [contradiction |].
    intros (i & j & _ & Hi & _). now destruct i.
  - rewrite in_app_iff, in_map_iff, IH. split.
    + intros [(y' & [= <- <-] & Hin) | (i & j & Hlt & Hi & Hj)].
      * apply In_nth_error in Hin as (j & Hj).
        exists 0%nat, (S j). repeat split; [lia | exact Hj].
      * exists (S i), (S j). repeat split; [lia | exact Hi | exact Hj].
    + intros (i & j & Hlt & Hi & Hj).
      destruct j as [| j]; [lia |]. simpl in Hj.
      destruct i as [| i]; simpl in Hi.
      * injection Hi as ->. left. exists y.
        split; [reflexivity |]. eapply nth_error_In, Hj.
      * right. exists i, j. repeat split; [lia | exact Hi | exact Hj].
Qed.

Lemma isdisjoint_false (x y : columns) :
  isdisjoint x y = false <-> share_a_column x y.
Proof.
  unfold isdisjoint, share_a_column.
  rewrite negb_false_iff, existsb_exists.
  split; intros (a & Ha & Hb); exists a; (split; [exact Ha |]);
    apply mem_In; exact Hb.
Qed.

Lemma isdisjoint_true (x y : columns) :
  isdisjoint x y = true <-> ~ share_a_column x y.
Proof.
  rewrite <- isdisjoint_false. destruct (isdisjoint x y); split;
    congruence.
Qed.

Lemma validate_types_ok (m : dict columns pyobject) :
  values_are_transforms m -> _validate_mapping_types_lazily m = Ok tt.
Proof.
  induction 1 as [| [k v] m (cls & Hv) _ IH]; simpl; [reflexivity |].
  simpl in Hv. now rewrite Hv.
Qed.

(** The loop stops at the first pair that is not disjoint. *)
Lemma check_pairs_result (pairs : list (columns * columns)) :
  (Forall (fun p => isdisjoint (fst p) (snd p) = true) pairs /\
   check_pairs pairs = Ok tt) \/
  (exists x y,
     In (x, y) pairs /\ isdisjoint x y = false /\
     check_pairs pairs = Err (Raise ValueError (not_disjoint_msg x y))).
Proof.
  induction pairs as [| [x y] pairs IH]; simpl.
  - left. split; [constructor | reflexivity].
  - destruct (isdisjoint x y) eqn:E; simpl.
    + destruct IH as [[Hall Hok] | (x' & y' & Hin & Hd & Herr)].
      * left. split; [constructor; [exact E | exact Hall] | exact Hok].
      * right. exists x', y'. repeat split; [now right | exact Hd | exact Herr].
    + right. exists x, y. repeat split; [now left | exact E].
Qed.

Lemma msg_names_both (x y : columns) :
  occurs_in (repr_tuple x) (not_disjoint_msg x y) /\
  occurs_in (repr_tuple y) (not_disjoint_msg x y).
Proof.
  unfold not_disjoint_msg. split.
  - exists "The provided column specifications "%string.
    exists (" and " ++ repr_tuple y ++ " are not disjoint.")%string.
    reflexivity.
  - exists ("The provided column specifications " ++ repr_tuple x
            ++ " and ")%string.
    exists " are not disjoint."%string.
    now rewrite !string_app_assoc.
Qed.

(** The type validator raises a [TypeError] or passes. *)
Lemma validate_types_result (m : dict columns pyobject) :
  _validate_mapping_types_lazily m = Ok tt \/
  raises (_validate_mapping_types_lazily m) TypeError.
Proof.
  induction m as [| [k [cls | r]] m IH]; simpl.
  - now left.
  - exact IH.
  - right. eexists. reflexivity.
Qed.

(** C8: a mapping whose key tuples are pairwise disjoint and whose values
    are transform objects is accepted; a mapping with two key tuples that
    share a column index is refused, and when its values are transform
    objects (the declared type of the mapping) the exception is the
    [ValueError] of the disjointness validator for two such keys, whose
    message names both tuples. *)
Theorem column_groups_validated (m : dict columns pyobject) :
  (values_are_transforms m ->
   (forall x y, two_keys m x y -> ~ share_a_column x y) ->
   new m = Ok (Mk m)) /\
  ((exists x y, two_keys m x y /\ share_a_column x y) ->
   is_ok (new m) = false /\
   (values_are_transforms m ->
    exists x y,
      two_keys m x y /\ share_a_column x y /\
      new m = Err (Raise ValueError (not_disjoint_msg x y)) /\
      occurs_in (repr_tuple x) (not_disjoint_msg x y) /\
      occurs_in (repr_tuple y) (not_disjoint_msg x y))).
Proof.
  unfold new, _validate_mapping_is_disjoint.
  destruct (check_pairs_result (combinations2 (keys m)))
    as [[Hall Hok] | (x & y & Hin & Hd & Herr)].
  - split.
    + intros Hvalues _.
      now rewrite (validate_types_ok m Hvalues), Hok.
    + intros (x & y & Hkeys & Hshare). exfalso.
      apply combinations2_positions in Hkeys.
      rewrite Forall_forall in Hall. specialize (Hall (x, y) Hkeys).
      simpl in Hall. apply isdisjoint_true in Hall. contradiction.
  - split.
    + intros _ Hdisjoint. exfalso.
      apply (Hdisjoint x y).
      * apply combinations2_positions. exact Hin.
      * apply isdisjoint_false. exact Hd.
    + intros _. split.
      * destruct (validate_types_result m) as [-> | (msg & ->)];
          [| reflexivity].
        cbn [bind]. now rewrite Herr.
      * intros Hvalues. rewrite (validate_types_ok m Hvalues). cbn [bind].
        exists x, y.
        split; [apply combinations2_positions; exact Hin |].
        split; [apply isdisjoint_false; exact Hd |].
        split; [now rewrite Herr | apply msg_names_both].
Qed.

(** The theorem at [disjoint_groups] and at [overlapping_groups], where the
    first and the third key share column [1]. *)
Lemma column_groups_validated_examples :
  new disjoint_groups = Ok (Mk disjoint_groups) /\
  is_ok (new overlapping_groups) = false /\
  exists x y,
    two_keys overlapping_groups x y /\ share_a_column x y /\
    new overlapping_groups = Err (Raise ValueError (not_disjoint_msg x y)) /\
    occurs_in (repr_tuple x) (not_disjoint_msg x y) /\
    occurs_in (repr_tuple y) (not_disjoint_msg x y).
Proof.
  assert (Hoverlap :
    exists x y, two_keys overlapping_groups x y /\ share_a_column x y).
  { exists [0; 1]%Z, [1; 2]%Z. split.
    - exists 0%nat, 2%nat. repeat split. lia.
    - exists 1%Z. simpl. tauto. }
  split; [| split].
  - apply (column_groups_validated disjoint_groups).
    + repeat constructor; eexists; reflexivity.
    + intros x y (i & j & Hlt & Hi & Hj) (a & Hx & Hy).
      destruct i as [| [| i]]; destruct j as [| [| j]];
        simpl in Hi, Hj; try lia; try (now destruct i);
        try (now destruct j).
      injection Hi as <-. injection Hj as <-.
      simpl in Hx, Hy. lia.
  - apply (column_groups_validated overlapping_groups). exact Hoverlap.
  - apply (column_groups_validated overlapping_groups).
    + exact Hoverlap.
    + repeat constructor; eexists; reflexivity.
Defined.

(** The message for [overlapping_groups], and a value that is not a
    transform: the type validator runs first, so the same overlap is then
    reported as a [TypeError]. *)
Example column_groups_runs :
  new overlapping_groups
  = Err (Raise ValueError
           ("The provided column specifications (0, 1) and (1, 2) "
            ++ "are not disjoint.")) /\
  new [([0; 1]%Z, Other "'scaler'"); ([1; 2]%Z, InputTransform "Normalize")]
  = Err (Raise TypeError "'mapping' must be <class 'InputTransform'>") /\
  repr_tuple [] = "()"%string /\ repr_tuple [7%Z] = "(7,)"%string.
Proof. repeat split. Qed.

End ScalingFacts.

(* ===================================================================== *)
(** ** Facts about dictionaries *)

Lemma dict_get_set {V} (d : list (string * V)) (key key' : string)
    (value : V) :
  dict_get (dict_set d key value) key'
  = if String.eqb key key' then Some value else dict_get d key'.
Proof.
  unfold dict_get. induction d as [| [k v] d IH]; simpl.
  - now destruct (String.eqb key key').
  - destruct (String.eqb_spec k key) as [-> | Hne]; simpl.
    + now destruct (String.eqb key key').
    + destruct (String.eqb_spec k key') as [-> | Hne'].
      * destruct (String.eqb_spec key key') as [-> | _];
          [contradiction | reflexivity].
      * exact IH.
Qed.

(* ===================================================================== *)
(** ** The recommenders *)

Module RecommendersFacts.

Import Recommender Recommenders Statements Properties Inputs MoreInputs.

Lemma kept_refl (md : DataFrame Metadata) : Forall2 kept md md.
Proof.
  induction md as [| r md IH]; constructor; [| exact IH].
  unfold kept. auto.
Qed.

Lemma marked_kept (idxs : list label) (md md' : DataFrame Metadata) :
  Forall2 (marked idxs) md md' -> Forall2 kept md md'.
Proof.
  induction 1 as [| old new md md' (Hl & Hr & Hm & Hd) _ IH];
    constructor; [| exact IH].
  unfold kept. repeat split; try assumption.
  intros Hold. rewrite Hr, Hold. apply orb_true_r.
Qed.

Lemma only_flags_set_refl (s : SearchSpace) : only_flags_set s s.
Proof. unfold only_flags_set. repeat split. apply kept_refl. Qed.

Lemma only_flags_set_marked (s : SearchSpace) (idxs : list label)
    (md : DataFrame Metadata) :
  loc_set (metadata (discrete s)) idxs (set_was_recommended true) = Ok md ->
  only_flags_set s (with_metadata s md).
Proof.
  unfold loc_set. destruct (forallb _ idxs); [| discriminate].
  intros [= <-]. unfold only_flags_set. simpl. repeat split.
  apply (marked_kept idxs). apply RecommenderFacts.marked_rows.
Qed.

(** X1: whatever the callback returns or raises, a call of the helper
    leaves the experimental and the computational representation, the
    continuous part, the metadata index and the flags [was_measured] and
    [dont_recommend] as they were, and clears no [was_recommended] flag. *)
Theorem select_only_sets_flags
    (gc : get_candidates_t) (searchspace : SearchSpace)
    (recommend : recommend_t) (batch_quantity : Z)
    (allow_repeated allow_measured : bool) :
  only_flags_set searchspace
    (snd (select_candidates_and_recommend gc searchspace recommend
            batch_quantity allow_repeated allow_measured)).
Proof.
  unfold select_candidates_and_recommend.
  destruct (gc (discrete searchspace) _ _) as [cand_exp cand_comp].
  destruct (len cand_comp <? batch_quantity);
    [apply only_flags_set_refl |].
  destruct (recommend searchspace cand_comp batch_quantity) as [idxs | e];
    [| apply only_flags_set_refl].
  destruct (loc _ idxs) as [rec | e]; [| apply only_flags_set_refl].
  destruct (loc_set _ idxs _) as [md | e] eqn:Hset;
    [| apply only_flags_set_refl].
  apply (only_flags_set_marked _ idxs). exact Hset.
Qed.

Lemma rows_at_from_frame {A} (df : DataFrame A) (idxs : list label) :
  incl (rows_at df idxs) df /\
  (forall l, In l (index (rows_at df idxs)) -> In l idxs).
Proof.
  unfold rows_at. split.
  - intros r Hr. apply in_flat_map in Hr as (i & _ & Hr).
    apply filter_In in Hr. tauto.
  - intros l Hl. unfold index in Hl.
    apply in_map_iff in Hl as (r & Hfst & Hr).
    apply in_flat_map in Hr as (i & Hi & Hr).
    apply filter_In in Hr as [_ Heq]. apply Z.eqb_eq in Heq.
    unfold label in *. congruence.
Qed.

Lemma rows_at_covers {A} (df : DataFrame A) (idxs : list label) (l : label) :
  In l idxs -> In l (index df) -> In l (index (rows_at df idxs)).
Proof.
  intros Hl Hin. unfold index in *.
  apply in_map_iff in Hin as ([l' a] & Heq & Hin). simpl in Heq. subst l'.
  apply in_map_iff. exists (l, a). split; [reflexivity |].
  unfold rows_at. apply in_flat_map. exists l. split; [exact Hl |].
  apply filter_In. split; [exact Hin | apply Z.eqb_refl].
Qed.

(** X2: a call of the helper that returns found at least
    [batch_quantity] candidates, and what it returns are rows of the
    experimental representation, carrying exactly the labels the callback
    selected, all of which are labels of that representation. *)
Theorem select_returns_rows_of_exp_rep
    (gc : get_candidates_t) (searchspace searchspace' : SearchSpace)
    (recommend : recommend_t) (batch_quantity : Z)
    (allow_repeated allow_measured : bool) (rec : DataFrame exp_row) :
  select_candidates_and_recommend gc searchspace recommend batch_quantity
    allow_repeated allow_measured = (Ok rec, searchspace') ->
  exists candidates idxs,
    candidates =
      snd (gc (discrete searchspace)
              (allow_repeated || negb (empty (continuous searchspace)))
              (allow_measured || negb (empty (continuous searchspace)))) /\
    batch_quantity <= len candidates /\
    recommend searchspace candidates batch_quantity = Ok idxs /\
    incl idxs (index (exp_rep (discrete searchspace))) /\
    incl rec (exp_rep (discrete searchspace)) /\
    forall l, In l (index rec) <-> In l idxs.
Proof.
  unfold select_candidates_and_recommend.
  destruct (gc (discrete searchspace) _ _) as [cand_exp cand_comp].
  destruct (Z.ltb_spec (len cand_comp) batch_quantity) as [_ | Hle];
    [discriminate |].
  destruct (recommend searchspace cand_comp batch_quantity)
    as [idxs | e] eqn:Hrec; [| discriminate].
  unfold loc.
  destruct (forallb _ idxs) eqn:Hall; [| discriminate].
  destruct (loc_set _ idxs _) as [md | e]; [| discriminate].
  intros [= <- _]. apply all_mem_incl in Hall.
  exists cand_comp, idxs. repeat split; try assumption; try reflexivity.
  - apply rows_at_from_frame.
  - apply rows_at_from_frame.
  - intros Hl. apply rows_at_covers; [exact Hl | apply Hall, Hl].
Qed.

(** X2 at [space3], one row requested. *)
Lemma select_returns_rows_of_exp_rep_space3 :
  exists candidates idxs,
    candidates = snd (get_candidates (discrete space3) false true) /\
    1 <= len candidates /\
    take_first space3 candidates 1 = Ok idxs /\
    incl idxs (index (exp_rep (discrete space3))) /\
    incl [(1, ["B"%string])] (exp_rep (discrete space3)) /\
    forall l, In l (index [(1, ["B"%string])]) <-> In l idxs.
Proof.
  apply (select_returns_rows_of_exp_rep get_candidates space3
           (with_metadata space3
              [(0, MkMetadata true false false);
               (1, MkMetadata true false false);
               (2, MkMetadata false false false)])
           take_first 1 false true [(1, ["B"%string])]).
  reflexivity.
Defined.

(** The helper with a callback that may raise anything is the helper
    above when the callback raises the exceptions of [exn] only. *)
Lemma select_any_agrees
    (gc : get_candidates_t) (searchspace : SearchSpace)
    (recommend : recommend_t) (batch_quantity : Z)
    (allow_repeated allow_measured : bool) :
  select_candidates_and_recommend' gc searchspace
    (fun s c b => lift (recommend s c b)) batch_quantity
    allow_repeated allow_measured
  = (lift (fst (select_candidates_and_recommend gc searchspace recommend
                  batch_quantity allow_repeated allow_measured)),
     snd (select_candidates_and_recommend gc searchspace recommend
            batch_quantity allow_repeated allow_measured)).
Proof.
  unfold select_candidates_and_recommend',
    select_candidates_and_recommend.
  destruct (gc (discrete searchspace) _ _) as [cand_exp cand_comp].
  destruct (len cand_comp <? batch_quantity); [reflexivity |].
  destruct (recommend searchspace cand_comp batch_quantity) as [idxs | e];
    [| reflexivity].
  simpl. destruct (loc _ idxs) as [rec | e]; [| reflexivity].
  destruct (loc_set _ idxs _) as [md | e]; reflexivity.
Qed.

(** A call of the helper that raises leaves the search space as it was,
    and any call only sets flags. *)
Lemma select_any_raises
    (gc : get_candidates_t) (searchspace searchspace' : SearchSpace)
    (recommend : recommend_any_t) (batch_quantity : Z)
    (allow_repeated allow_measured : bool) (r : raised) :
  select_candidates_and_recommend' gc searchspace recommend batch_quantity
    allow_repeated allow_measured = (Raises r, searchspace') ->
  searchspace' = searchspace.
Proof.
  unfold select_candidates_and_recommend'.
  destruct (gc (discrete searchspace) _ _) as [cand_exp cand_comp].
  destruct (len cand_comp <? batch_quantity); [now intros [= _ <-] |].
  destruct (recommend searchspace cand_comp batch_quantity) as [idxs | e];
    [| now intros [= _ <-]].
  destruct (loc _ idxs) as [rec | e]; [| now intros [= _ <-]].
  destruct (loc_set _ idxs _) as [md | e]; [discriminate |].
  now intros [= _ <-].
Qed.

Lemma select_any_only_sets_flags
    (gc : get_candidates_t) (searchspace : SearchSpace)
    (recommend : recommend_any_t) (batch_quantity : Z)
    (allow_repeated allow_measured : bool) :
  only_flags_set searchspace
    (snd (select_candidates_and_recommend' gc searchspace recommend
            batch_quantity allow_repeated allow_measured)).
Proof.
  unfold select_candidates_and_recommend'.
  destruct (gc (discrete searchspace) _ _) as [cand_exp cand_comp].
  destruct (len cand_comp <? batch_quantity);
    [apply only_flags_set_refl |].
  destruct (recommend searchspace cand_comp batch_quantity) as [idxs | e];
    [| apply only_flags_set_refl].
  destruct (loc _ idxs) as [rec | e]; [| apply only_flags_set_refl].
  destruct (loc_set _ idxs _) as [md | e] eqn:Hset;
    [| apply only_flags_set_refl].
  apply (only_flags_set_marked _ idxs). exact Hset.
Qed.

(** The mapping has the seven keys of [acquisition_keys] and no other. *)
Lemma getitem_known (key : string) :
  In key acquisition_keys -> exists f, getitem key = Ok f.
Proof.
  unfold acquisition_keys. simpl.
  intros [<- | [<- | [<- | [<- | [<- | [<- | [<- | []]]]]]]];
    eexists; reflexivity.
Qed.

Lemma getitem_unknown (key : string) :
  ~ In key acquisition_keys -> getitem key = Err (Raise KeyError key).
Proof.
  intros Hnot. unfold getitem.
  destruct (find _ mapping) as [[k f] |] eqn:Hfind; [| reflexivity].
  exfalso. apply find_some in Hfind as [Hin Hk].
  simpl in Hk. apply String.eqb_eq in Hk. subst k.
  apply Hnot. apply (in_map fst) in Hin. exact Hin.
Qed.

Section Classes.

Variables surrogate_cls surrogate acqf best_f : Type.
Variable gc : get_candidates_t.
Variable searchspace_type : SearchSpace -> SearchSpaceType.
Variable SUBCLASSES : list (string * surrogate_cls).
Variable construct_and_fit :
  surrogate_cls -> SearchSpace -> train_frame -> train_frame ->
  outcome surrogate.
Variable train_max : train_frame -> best_f.
Variable debotorchize : callable -> surrogate -> best_f -> outcome acqf.

(** X3: neither recommender serves a hybrid search space, whatever a
    subclass overrides: [NonPredictiveRecommender.recommend] raises
    [NotImplementedError]; [BayesianRecommender.recommend] raises too, and
    [NotImplementedError] once the surrogate is fitted and the acquisition
    function built.  [_recommend_hybrid] is not called and the search space
    stays as it was. *)
Theorem hybrid_is_never_served
    (np : NonPredictiveRecommender.t) (bay : BayesianRecommender.t acqf)
    (searchspace : SearchSpace) (train_x train_y : train_frame)
    (batch_quantity : Z) (allow_repeated allow_measured : bool) :
  searchspace_type searchspace = HYBRID ->
  NonPredictiveRecommender.recommend gc searchspace_type np searchspace
    train_x train_y batch_quantity allow_repeated allow_measured
  = (Raises NotImplementedError, searchspace) /\
  (exists r,
     BayesianRecommender.recommend _ _ _ _ gc searchspace_type SUBCLASSES
       construct_and_fit train_max debotorchize bay searchspace
       train_x train_y batch_quantity allow_repeated allow_measured
     = (Raises r, searchspace)) /\
  (forall model cls f,
     BayesianRecommender._fit _ _ _ SUBCLASSES construct_and_fit bay
       searchspace train_x train_y = Returns model ->
     getitem (BayesianRecommender.acquisition_function_cls _ bay)
     = Ok cls ->
     debotorchize cls model (train_max train_y) = Returns f ->
     BayesianRecommender.recommend _ _ _ _ gc searchspace_type SUBCLASSES
       construct_and_fit train_max debotorchize bay searchspace
       train_x train_y batch_quantity allow_repeated allow_measured
     = (Raises NotImplementedError, searchspace)).
Proof.
  intros Hty. split; [| split].
  - unfold NonPredictiveRecommender.recommend. now rewrite Hty.
  - unfold BayesianRecommender.recommend.
    destruct (obind _ _) as [f | r].
    + rewrite Hty. now exists NotImplementedError.
    + now exists r.
  - intros model cls f Hfit Hcls Hacqf.
    unfold BayesianRecommender.recommend, get_acquisition_function_cls.
    cbn [acquisition_function_cls]. rewrite Hfit. cbn [obind].
    rewrite Hcls. cbn [bind lift obind]. rewrite Hacqf. now rewrite Hty.
Qed.

(** X4: a call of either [recommend] that raises leaves the search space
    as it was, and a call that returns has at most set [was_recommended]
    flags: the representations, the continuous part and the other flags
    are as before. *)
Theorem recommend_only_sets_flags
    (np : NonPredictiveRecommender.t) (bay : BayesianRecommender.t acqf)
    (searchspace : SearchSpace) (train_x train_y : train_frame)
    (batch_quantity : Z) (allow_repeated allow_measured : bool) :
  (only_flags_set searchspace
     (snd (NonPredictiveRecommender.recommend gc searchspace_type np
             searchspace train_x train_y batch_quantity allow_repeated
             allow_measured)) /\
   forall r searchspace',
     NonPredictiveRecommender.recommend gc searchspace_type np
       searchspace train_x train_y batch_quantity allow_repeated
       allow_measured = (Raises r, searchspace') ->
     searchspace' = searchspace) /\
  (only_flags_set searchspace
     (snd (BayesianRecommender.recommend _ _ _ _ gc searchspace_type
             SUBCLASSES construct_and_fit train_max debotorchize bay
             searchspace train_x train_y batch_quantity allow_repeated
             allow_measured)) /\
   forall r searchspace',
     BayesianRecommender.recommend _ _ _ _ gc searchspace_type SUBCLASSES
       construct_and_fit train_max debotorchize bay searchspace
       train_x train_y batch_quantity allow_repeated allow_measured
     = (Raises r, searchspace') ->
     searchspace' = searchspace).
Proof.
  split; split.
  - unfold NonPredictiveRecommender.recommend.
    destruct (searchspace_type searchspace);
      [apply select_any_only_sets_flags | apply only_flags_set_refl
      | apply only_flags_set_refl].
  - intros r searchspace'. unfold NonPredictiveRecommender.recommend.
    destruct (searchspace_type searchspace).
    + apply select_any_raises.
    + now intros [= _ <-].
    + now intros [= _ <-].
  - unfold BayesianRecommender.recommend.
    destruct (obind _ _) as [f | r]; [| apply only_flags_set_refl].
    destruct (searchspace_type searchspace);
      [apply select_any_only_sets_flags | apply only_flags_set_refl
      | apply only_flags_set_refl].
  - intros r searchspace'. unfold BayesianRecommender.recommend.
    destruct (obind _ _) as [f | r0]; [| now intros [= _ <-]].
    destruct (searchspace_type searchspace).
    + apply select_any_raises.
    + now intros [= _ <-].
    + now intros [= _ <-].
Qed.

(** X5: [BayesianRecommender.recommend] checks in a fixed order.  Training
    inputs and targets over different indices are a [ValueError] whatever
    the two names are; with equal indices, a surrogate name that is not
    registered is a [KeyError] carrying that name, whatever the acquisition
    function name is; and the acquisition function name is looked up only
    after the fit, so what the fit raises comes first and an unknown name
    is a [KeyError] carrying it.  None of these calls reaches the
    candidates. *)
Theorem bayesian_recommend_checks_in_order
    (bay : BayesianRecommender.t acqf)
    (searchspace : SearchSpace) (train_x train_y : train_frame)
    (batch_quantity : Z) (allow_repeated allow_measured : bool) :
  (index train_x <> index train_y ->
   BayesianRecommender.recommend _ _ _ _ gc searchspace_type SUBCLASSES
     construct_and_fit train_max debotorchize bay searchspace
     train_x train_y batch_quantity allow_repeated allow_measured
   = (Raises (Builtin (Raise ValueError
        "Training inputs and targets must have the same index.")),
      searchspace)) /\
  (index train_x = index train_y ->
   (forall cls,
      ~ In (BayesianRecommender.surrogate_model_cls _ bay, cls)
           SUBCLASSES) ->
   BayesianRecommender.recommend _ _ _ _ gc searchspace_type SUBCLASSES
     construct_and_fit train_max debotorchize bay searchspace
     train_x train_y batch_quantity allow_repeated allow_measured
   = (Raises (Builtin (Raise KeyError
        (BayesianRecommender.surrogate_model_cls _ bay))),
      searchspace)) /\
  (forall r,
     BayesianRecommender._fit _ _ _ SUBCLASSES construct_and_fit bay
       searchspace train_x train_y = Raises r ->
     BayesianRecommender.recommend _ _ _ _ gc searchspace_type SUBCLASSES
       construct_and_fit train_max debotorchize bay searchspace
       train_x train_y batch_quantity allow_repeated allow_measured
     = (Raises r, searchspace)) /\
  (forall model,
     BayesianRecommender._fit _ _ _ SUBCLASSES construct_and_fit bay
       searchspace train_x train_y = Returns model ->
     ~ In (BayesianRecommender.acquisition_function_cls _ bay)
          acquisition_keys ->
     BayesianRecommender.recommend _ _ _ _ gc searchspace_type SUBCLASSES
       construct_and_fit train_max debotorchize bay searchspace
       train_x train_y batch_quantity allow_repeated allow_measured
     = (Raises (Builtin (Raise KeyError
          (BayesianRecommender.acquisition_function_cls _ bay))),
        searchspace)).
Proof.
  assert (Hraise : forall r,
    BayesianRecommender._fit _ _ _ SUBCLASSES construct_and_fit bay
      searchspace train_x train_y = Raises r ->
    BayesianRecommender.recommend _ _ _ _ gc searchspace_type SUBCLASSES
      construct_and_fit train_max debotorchize bay searchspace
      train_x train_y batch_quantity allow_repeated allow_measured
    = (Raises r, searchspace)).
  { intros r Hfit. unfold BayesianRecommender.recommend.
    now rewrite Hfit. }
  split; [| split; [| split]].
  - intros Hne. apply Hraise. unfold BayesianRecommender._fit,
      BayesianRecommender.index_equals.
    now destruct (list_eq_dec Z.eq_dec (index train_x) (index train_y)).
  - intros Heq Hmissing. apply Hraise.
    unfold BayesianRecommender._fit, BayesianRecommender.index_equals,
      BayesianRecommender.get_surrogate_model_cls.
    destruct (list_eq_dec Z.eq_dec (index train_x) (index train_y));
      [| contradiction].
    cbn [negb].
    destruct (find _ SUBCLASSES) as [[k cls] |] eqn:Hfind;
      [| reflexivity].
    exfalso. apply find_some in Hfind as [Hin Hk].
    simpl in Hk. apply String.eqb_eq in Hk. subst k.
    exact (Hmissing cls Hin).
  - exact Hraise.
  - intros model Hfit Hkey.
    unfold BayesianRecommender.recommend, get_acquisition_function_cls.
    cbn [acquisition_function_cls]. rewrite Hfit. cbn [obind].
    rewrite (getitem_unknown _ Hkey). reflexivity.
Qed.

End Classes.

(** X3 at [space3_hybrid], for a recommender of either kind that
    overrides all three methods. *)
Lemma hybrid_is_never_served_space3 :
  NonPredictiveRecommender.recommend get_candidates type_by_parts
    first_candidates space3_hybrid train_x01 train_y01 2 false true
  = (Raises NotImplementedError, space3_hybrid) /\
  BayesianRecommender.recommend _ _ _ _ get_candidates type_by_parts
    surrogate_registry fit_table (fun _ => tt) build_acqf
    (sequential_greedy "GP" "qEI") space3_hybrid train_x01 train_y01 2
    false true
  = (Raises NotImplementedError, space3_hybrid).
Proof.
  destruct (hybrid_is_never_served string train_frame callable unit
              get_candidates type_by_parts surrogate_registry fit_table
              (fun _ => tt) build_acqf first_candidates
              (sequential_greedy "GP" "qEI") space3_hybrid train_x01
              train_y01 2 false true eq_refl)
    as (Hnp & _ & Hbay).
  split; [exact Hnp |].
  apply (Hbay train_y01 (Class qExpectedImprovement)
           (Class qExpectedImprovement)); reflexivity.
Defined.

(** X4 at [space3]: five rows asked of the two candidates. *)
Lemma recommend_only_sets_flags_space3 :
  snd (NonPredictiveRecommender.recommend get_candidates type_by_parts
         first_candidates space3 train_x01 train_y01 5 false true)
  = space3 /\
  snd (BayesianRecommender.recommend _ _ _ _ get_candidates type_by_parts
         surrogate_registry fit_table (fun _ => tt) build_acqf
         (sequential_greedy "GP" "qEI") space3 train_x01 train_y01 5
         false true)
  = space3.
Proof.
  destruct (recommend_only_sets_flags string train_frame callable unit
              get_candidates type_by_parts surrogate_registry fit_table
              (fun _ => tt) build_acqf first_candidates
              (sequential_greedy "GP" "qEI") space3 train_x01 train_y01 5
              false true)
    as [[_ Hnp] [_ Hbay]].
  split.
  - apply (Hnp (Builtin (Raise NotEnoughPointsLeftError
                           (not_enough_points_msg 5)))).
    reflexivity.
  - apply (Hbay (Builtin (Raise NotEnoughPointsLeftError
                            (not_enough_points_msg 5)))).
    reflexivity.
Defined.

(** X5: targets over another index, an unregistered surrogate and an
    unknown acquisition function, each with the other names in order or
    not. *)
Lemma bayesian_recommend_checks_in_order_runs :
  BayesianRecommender.recommend _ _ _ _ get_candidates type_by_parts
    surrogate_registry fit_table (fun _ => tt) build_acqf
    (sequential_greedy "XGB" "qNIPV") space3 train_x01 train_y02 1
    false true
  = (Raises (Builtin (Raise ValueError
       "Training inputs and targets must have the same index.")),
     space3) /\
  BayesianRecommender.recommend _ _ _ _ get_candidates type_by_parts
    surrogate_registry fit_table (fun _ => tt) build_acqf
    (sequential_greedy "XGB" "qNIPV") space3 train_x01 train_y01 1
    false true
  = (Raises (Builtin (Raise KeyError "XGB")), space3) /\
  BayesianRecommender.recommend _ _ _ _ get_candidates type_by_parts
    surrogate_registry fit_table (fun _ => tt) build_acqf
    (sequential_greedy "GP" "qNIPV") space3 train_x01 train_y01 1
    false true
  = (Raises (Builtin (Raise KeyError "qNIPV")), space3).
Proof.
  split; [| split].
  - destruct (bayesian_recommend_checks_in_order string train_frame
                callable unit get_candidates type_by_parts
                surrogate_registry fit_table (fun _ => tt) build_acqf
                (sequential_greedy "XGB" "qNIPV") space3 train_x01
                train_y02 1 false true) as (Hindex & _).
    apply Hindex. intros H. simpl in H. discriminate H.
  - destruct (bayesian_recommend_checks_in_order string train_frame
                callable unit get_candidates type_by_parts
                surrogate_registry fit_table (fun _ => tt) build_acqf
                (sequential_greedy "XGB" "qNIPV") space3 train_x01
                train_y01 1 false true) as (_ & Hsurrogate & _).
    apply Hsurrogate; [reflexivity |].
    intros cls [H | [H | []]]; discriminate H.
  - destruct (bayesian_recommend_checks_in_order string train_frame
                callable unit get_candidates type_by_parts
                surrogate_registry fit_table (fun _ => tt) build_acqf
                (sequential_greedy "GP" "qNIPV") space3 train_x01
                train_y01 1 false true) as (_ & _ & _ & Hacqf).
    apply (Hacqf train_y01); [reflexivity |].
    unfold acquisition_keys. simpl.
    intros [H | [H | [H | [H | [H | [H | [H | []]]]]]]]; discriminate H.
Defined.

(** A discrete space served by both recommenders: the first candidate is
    returned and flagged. *)
Example recommend_discrete_runs :
  NonPredictiveRecommender.recommend get_candidates type_by_parts
    first_candidates space3 train_x01 train_y01 1 false true
  = (Returns [(1, ["B"%string])],
     with_metadata space3
       [(0, MkMetadata true false false);
        (1, MkMetadata true false false);
        (2, MkMetadata false false false)]) /\
  BayesianRecommender.recommend _ _ _ _ get_candidates type_by_parts
    surrogate_registry fit_table (fun _ => tt) build_acqf
    (sequential_greedy "GP" "qEI") space3 train_x01 train_y01 1
    false true
  = NonPredictiveRecommender.recommend get_candidates type_by_parts
      first_candidates space3 train_x01 train_y01 1 false true /\
  fst (NonPredictiveRecommender.recommend get_candidates type_by_parts
         NonPredictiveRecommender.base space3 train_x01 train_y01 1
         false true)
  = Raises NotImplementedError.
Proof. repeat split. Qed.

(** X6: the acquisition function mapping answers the seven keys [PM],
    [PI], [EI], [UCB], [qEI], [qPI], [qUCB] and no other: for any other
    name, [get_acquisition_function_cls] raises a [KeyError] carrying the
    name and [debotorchize] is not reached. *)
Theorem acquisition_mapping_keys
    (wrapped : Type) (debotorchize : callable -> wrapped)
    (self : BayesianRecommender) :
  (In (acquisition_function_cls self) acquisition_keys ->
   exists cls,
     getitem (acquisition_function_cls self) = Ok cls /\
     get_acquisition_function_cls wrapped debotorchize self
     = Ok (debotorchize cls)) /\
  (~ In (acquisition_function_cls self) acquisition_keys ->
   get_acquisition_function_cls wrapped debotorchize self
   = Err (Raise KeyError (acquisition_function_cls self))).
Proof.
  unfold get_acquisition_function_cls. split.
  - intros Hin. destruct (getitem_known _ Hin) as [cls Hcls].
    exists cls. now rewrite Hcls.
  - intros Hnot. now rewrite (getitem_unknown _ Hnot).
Qed.

(** X6 at the default recommender and at the abbreviation of an
    acquisition function the mapping does not hold. *)
Lemma acquisition_mapping_keys_runs :
  (exists cls,
     getitem "qEI" = Ok cls /\
     get_acquisition_function_cls callable (fun f => f)
       default_BayesianRecommender = Ok cls) /\
  get_acquisition_function_cls callable (fun f => f)
    (MkBayesianRecommender "GP" "qLogEI")
  = Err (Raise KeyError "qLogEI").
Proof.
  split.
  - apply (acquisition_mapping_keys callable (fun f => f)
             default_BayesianRecommender).
    unfold acquisition_keys. simpl. tauto.
  - apply (acquisition_mapping_keys callable (fun f => f)
             (MkBayesianRecommender "GP" "qLogEI")).
    unfold acquisition_keys. simpl.
    intros [H | [H | [H | [H | [H | [H | [H | []]]]]]]]; discriminate.
Defined.

Lemma find_in_app {A} (f : A -> bool) (l l' : list A) :
  find f (l ++ l')
  = match find f l with
    | Some x => Some x
    | None => find f l'
    end.
Proof.
  induction l as [| x l IH]; simpl; [reflexivity |].
  now destruct (f x).
Qed.

Lemma define_classes_lookup (classes : list class_def) :
  forall SUBCLASSES registry key,
    define_classes SUBCLASSES classes = Returns registry ->
    dict_get registry key
    = match find (registers_under key) (rev classes) with
      | Some cls => Some cls
      | None => dict_get SUBCLASSES key
      end.
Proof.
  induction classes as [| cls classes IH]; intros SUBCLASSES registry key.
  - simpl. now intros [= <-].
  - simpl. unfold __init_subclass__. rewrite find_in_app.
    destruct (cls_abstract cls) eqn:Habs; cbn [negb obind].
    + intros Hdef. rewrite (IH _ _ key Hdef).
      destruct (find _ (rev classes)); [reflexivity |].
      simpl. unfold registers_under. now rewrite Habs.
    + destruct (cls_type cls) as [ty |] eqn:Hty; [| discriminate].
      cbn [obind]. intros Hdef. rewrite (IH _ _ key Hdef).
      destruct (find _ (rev classes)); [reflexivity |].
      simpl. unfold registers_under. rewrite Habs, Hty. cbn [negb andb].
      rewrite dict_get_set. now destruct (String.eqb ty key).
Qed.

(** X7: after a sequence of class definitions [SUBCLASSES] holds, under
    each key, the last concrete class defined with that [type]: an abstract
    class is never registered, and a later concrete class with the [type]
    of an earlier one replaces it without notice. *)
Theorem registry_holds_last_concrete_class
    (classes : list class_def) (registry : list (string * class_def))
    (key : string) :
  define_classes [] classes = Returns registry ->
  dict_get registry key = find (registers_under key) (rev classes) /\
  (forall cls, dict_get registry key = Some cls ->
               In cls classes /\ cls_abstract cls = false /\
               cls_type cls = Some key).
Proof.
  intros Hdef.
  assert (Hget := define_classes_lookup classes [] registry key Hdef).
  assert (Heq : dict_get registry key
                = find (registers_under key) (rev classes)).
  { rewrite Hget. now destruct (find _ (rev classes)). }
  split; [exact Heq |].
  intros cls Hcls. rewrite Heq in Hcls.
  apply find_some in Hcls as [Hin Hreg].
  apply in_rev in Hin. unfold registers_under in Hreg.
  apply andb_true_iff in Hreg as [Habs Hty].
  apply negb_true_iff in Habs.
  destruct (cls_type cls) as [ty |]; [| discriminate].
  apply String.eqb_eq in Hty. subst ty. repeat split; assumption.
Qed.

(** X7 at [class_sequence]: the class defined last takes the key
    [RANDOM]. *)
Lemma registry_holds_last_concrete_class_runs :
  dict_get
    [("RANDOM", MkClass "MyRandomRecommender" (Some "RANDOM") false);
     ("FPS", MkClass "FPSRecommender" (Some "FPS") false)]%string
    "RANDOM"
  = find (registers_under "RANDOM") (rev class_sequence).
Proof.
  apply (registry_holds_last_concrete_class class_sequence
           [("RANDOM", MkClass "MyRandomRecommender" (Some "RANDOM") false);
            ("FPS", MkClass "FPSRecommender" (Some "FPS") false)]%string
           "RANDOM").
  reflexivity.
Defined.

(** A concrete class without [type] cannot be defined. *)
Example class_without_type :
  define_classes [] [MkClass "Nameless" None false]
  = Raises (AttributeError
              "type object 'Nameless' has no attribute 'type'").
Proof. reflexivity. Qed.

End RecommendersFacts.

(* ===================================================================== *)
(** ** More on the acquisition functions *)

Module AcqfsMoreFacts.

Import Acqfs Statements Inputs.
Import Acqfs.qNegIntegratedPosteriorVariance.

Local Open Scope Q_scope.

(** X8: no two acquisition function classes share an abbreviation, and
    every key of the recommender's mapping is the abbreviation of the
    class here that has the name of the class the key is mapped to. *)
Theorem abbreviations_identify_classes :
  (forall c c',
     AcqfsClasses.abbreviation c = AcqfsClasses.abbreviation c' ->
     c = c') /\
  (forall key f,
     In (key, f) Recommender.mapping ->
     exists c,
       AcqfsClasses.abbreviation c = key /\
       AcqfsClasses.class_name c
       = AcqfsClasses.botorch_name (fst (Recommender.call f []))).
Proof.
  split.
  - intros c c'. destruct c, c'; simpl; intros H;
      first [reflexivity | discriminate H].
  - intros key f Hin. simpl in Hin.
    destruct Hin as [H | [H | [H | [H | [H | [H | [H | []]]]]]]];
      injection H as <- <-.
    + now exists AcqfsClasses.PosteriorMean.
    + now exists AcqfsClasses.ProbabilityOfImprovement.
    + now exists AcqfsClasses.ExpectedImprovement.
    + now exists AcqfsClasses.UpperConfidenceBound.
    + now exists AcqfsClasses.qExpectedImprovement.
    + now exists AcqfsClasses.qProbabilityOfImprovement.
    + now exists AcqfsClasses.qUpperConfidenceBound.
Qed.

(** X9: without [sampling_n_points], an instance asks the discrete
    sampler for between nought and all of the [D] rows, for at least one
    row when there is one, and for all of them at the default fraction
    [1.0]; [D] is a count that a double holds exactly. *)
Theorem fraction_asks_for_existing_rows
    (self : t) (candidates : DataFrame comp_row) :
  constructed self ->
  sampling_n_points self = None ->
  (len candidates <= exact_counts)%Z ->
  exists n,
    n_candidates_discrete self candidates = Ok n /\
    (0 <= n <= len candidates)%Z /\
    (1 <= len candidates -> 1 <= n)%Z /\
    (sampling_fraction self = Fin 1 -> n = len candidates).
Proof.
  intros Hc Hnone HD.
  destruct (AcqfsFacts.constructed_valid self Hc)
    as (q & Hq & Hpos & Hone & Hdouble & _).
  destruct (AcqfsFacts.n_candidates_discrete_value self candidates Hc HD)
    as (n & Hn & _ & Hfrac).
  destruct (Hfrac Hnone) as (q' & r & Hq' & Hr & Hr0 & HrD & ->).
  rewrite Hq in Hq'. injection Hq' as <-.
  exists (Qceiling r). split; [exact Hn |].
  assert (HD0 : (0 <= len candidates)%Z) by (unfold len; lia).
  unfold fmul, fmul_at in Hr.
  change (round binary64 ?x) with (double x) in Hr.
  split; [split | split].
  - rewrite <- (Qceiling_Z 0). now apply Qceiling_resp_le.
  - rewrite <- (Qceiling_Z (len candidates)).
    now apply Qceiling_resp_le.
  - intros Hrow.
    assert (Hunit : 1 <= q * inject_Z (len candidates)
                         * inject_Z (2 ^ 1074)).
    { setoid_replace (q * inject_Z (len candidates) * inject_Z (2 ^ 1074))
        with (q * inject_Z (2 ^ 1074) * inject_Z (len candidates))
        by ring.
      setoid_replace 1 with (1 * 1) by ring.
      apply Qle_trans with (1 * inject_Z (len candidates)).
      - apply Qmult_le_l; [reflexivity |].
        change 1 with (inject_Z 1). now rewrite <- Zle_Qle.
      - apply Qmult_le_compat_r.
        + exact (RoundingFacts.is_double_positive q Hdouble Hpos).
        + change 0 with (inject_Z 0). now rewrite <- Zle_Qle. }
    pose proof (RoundingFacts.double_positive _ r Hunit Hr) as Hrpos.
    pose proof (Qle_ceiling r) as Hceil.
    assert (Hgt : 0 < inject_Z (Qceiling r)).
    { eapply Qlt_le_trans; [exact Hrpos | exact Hceil]. }
    change 0 with (inject_Z 0) in Hgt. rewrite <- Zlt_Qlt in Hgt. lia.
  - intros Hfull. rewrite Hq in Hfull. injection Hfull as ->.
    unfold double in Hr.
    rewrite (RoundingFacts.round_comp binary64
               (1 * inject_Z (len candidates))
               (inject_Z (len candidates)) (Qmult_1_l _)) in Hr.
    change (round binary64 ?x) with (double x) in Hr.
    rewrite RoundingFacts.double_count in Hr
      by (unfold exact_counts in HD; lia).
    apply RoundingFacts.Fin_inj in Hr. subst r. apply Qceiling_Z.
Qed.

(** X9 at the five rows of [discrete5]: three rows at the fraction one
    half. *)
Lemma fraction_asks_for_existing_rows_half :
  exists n,
    n_candidates_discrete qnipv_half (comp_rep discrete5) = Ok n /\
    (0 <= n <= 5)%Z /\
    (1 <= 5 -> 1 <= n)%Z /\
    (Fin (1 # 2) = Fin 1 -> n = 5%Z).
Proof.
  apply (fraction_asks_for_existing_rows qnipv_half (comp_rep discrete5)).
  - exact (proj1 (proj2 AcqfsFacts.constructed_inputs)).
  - reflexivity.
  - exact AcqfsFacts.discrete5_count.
Defined.

(** X10: the constructor accepts every fraction in (0, 1] together with
    no number of points or a positive integer, and stores what it was
    given, the fraction as a float; a positive number of points that is
    not an integer passes the comparison and is refused by the type check,
    with a [TypeError]. *)
Theorem qnipv_accepts_valid_arguments
    (sf : pynum) (q : Q) (method : SamplingMethod) :
  float sf = Ok (Fin q) -> 0 < q -> q <= 1 ->
  new sf None method = Ok (Mk (Fin q) None method) /\
  (forall k, (0 < k)%Z ->
     new sf (Some (PyInt k)) method = Ok (Mk (Fin q) (Some k) method)) /\
  (forall x, 0 < x ->
     raises (new sf (Some (PyFloat (Fin x))) method) TypeError).
Proof.
  intros Hsf Hpos Hone. unfold new. rewrite Hsf. cbn [bind and_].
  unfold gt, le.
  rewrite (proj2 (AcqfsFacts.fgt_Fin q 0) Hpos).
  rewrite (proj2 (AcqfsFacts.fle_Fin q 1) Hone).
  cbn [bind]. split; [reflexivity | split].
  - intros k Hk. unfold gt_int. cbn [num_gt].
    now rewrite (proj2 (Z.ltb_lt 0 k) Hk).
  - intros x Hx. unfold gt_int. cbn [num_gt].
    rewrite (proj2 (AcqfsFacts.fgt_Fin x (inject_Z 0)) Hx).
    eexists. reflexivity.
Qed.

(** X10 at the fraction one half. *)
Lemma qnipv_accepts_valid_arguments_half :
  new (PyFloat (Fin (1 # 2))) None FPS = Ok (Mk (Fin (1 # 2)) None FPS) /\
  (forall k, (0 < k)%Z ->
     new (PyFloat (Fin (1 # 2))) (Some (PyInt k)) FPS
     = Ok (Mk (Fin (1 # 2)) (Some k) FPS)) /\
  (forall x, 0 < x ->
     raises (new (PyFloat (Fin (1 # 2))) (Some (PyFloat (Fin x))) FPS)
       TypeError).
Proof.
  apply (qnipv_accepts_valid_arguments (PyFloat (Fin (1 # 2))) (1 # 2) FPS).
  - reflexivity.
  - reflexivity.
  - discriminate.
Defined.

Section Sampling.

Variable sample_numerical_df :
  DataFrame comp_row -> Z -> SamplingMethod -> result (DataFrame comp_row).
Variable samples_random :
  SubspaceContinuous -> Z -> result (DataFrame comp_row).

(** X11: how [get_integration_points] fails.  On a search space with
    neither part it raises the [ValueError] of [pd.concat] for an empty
    list; what the discrete sampler raises is raised before the continuous
    part is looked at; what the continuous sampler raises is raised; and
    when the two samplers deliver different numbers of rows, aligning the
    indices raises a [ValueError]. *)
Theorem integration_points_failures (self : t) :
  get_integration_points sample_numerical_df samples_random self
    (MkSearchSpace None None)
  = Err (Raise ValueError "No objects to concatenate") /\
  (forall d c n e,
     n_candidates_discrete self (comp_rep d) = Ok n ->
     sample_numerical_df (comp_rep d) n (sampling_method self) = Err e ->
     get_integration_points sample_numerical_df samples_random self
       (MkSearchSpace (Some d) c) = Err e) /\
  (forall d c n sampled,
     n_candidates_discrete self (comp_rep d) = Ok n -> n <> 0%Z ->
     sample_numerical_df (comp_rep d) n (sampling_method self)
     = Ok sampled ->
     (forall e,
        samples_random c n = Err e ->
        get_integration_points sample_numerical_df samples_random self
          (MkSearchSpace (Some d) (Some c)) = Err e) /\
     (forall sampled_conti,
        samples_random c n = Ok sampled_conti ->
        length sampled_conti <> length sampled ->
        get_integration_points sample_numerical_df samples_random self
          (MkSearchSpace (Some d) (Some c))
        = Err (Raise ValueError "Length mismatch"))).
Proof.
  split; [reflexivity | split].
  - intros d c n e Hn Hs.
    unfold get_integration_points, discrete_part.
    cbn [discrete]. rewrite Hn. cbn [bind]. now rewrite Hs.
  - intros d c n sampled Hn Hnz Hs.
    assert (Hrun : forall o,
      samples_random c n = o ->
      get_integration_points sample_numerical_df samples_random self
        (MkSearchSpace (Some d) (Some c))
      = (sampled_conti <- o ;;
         sampled_conti <- set_index sampled_conti (index sampled) ;;
         concat_axis1 [sampled; sampled_conti])%result).
    { intros o <-.
      unfold get_integration_points, discrete_part, continuous_part.
      cbn [discrete continuous]. rewrite Hn. cbn [bind]. rewrite Hs.
      cbn [bind fst snd truthy].
      destruct (Z.eqb_spec n 0) as [-> | _]; [contradiction |].
      cbn [negb].
      destruct (samples_random c n) as [sc | e]; [| reflexivity].
      cbn [bind].
      destruct (set_index sc (index sampled)) as [sc' | e]; reflexivity. }
    split.
    + intros e He. now rewrite (Hrun _ He).
    + intros sc Hsc Hlen. rewrite (Hrun _ Hsc). cbn [bind].
      unfold set_index. rewrite index_length.
      destruct (Nat.eqb_spec (length sampled) (length sc)) as [Heq | _];
        [congruence | reflexivity].
Qed.

(** X12: parameters that are not consulted.  With [sampling_n_points]
    given, [sampling_fraction] has no influence on any search space; on a
    search space without discrete part neither [sampling_fraction] nor
    [sampling_method] has. *)
Theorem integration_points_ignored_parameters
    (fraction fraction' : pyfloat) (points : option Z)
    (method method' : SamplingMethod) (searchspace : SearchSpace) :
  (forall k, points = Some k -> k <> 0%Z ->
     get_integration_points sample_numerical_df samples_random
       (Mk fraction points method) searchspace
     = get_integration_points sample_numerical_df samples_random
         (Mk fraction' points method) searchspace) /\
  (discrete searchspace = None ->
   get_integration_points sample_numerical_df samples_random
     (Mk fraction points method) searchspace
   = get_integration_points sample_numerical_df samples_random
       (Mk fraction' points method') searchspace).
Proof.
  split.
  - intros k -> Hk.
    unfold get_integration_points, discrete_part, continuous_part,
      n_candidates_discrete.
    cbn [sampling_n_points sampling_fraction sampling_method truthy].
    destruct (Z.eqb_spec k 0) as [-> | _]; [contradiction |].
    reflexivity.
  - intros Hnone.
    unfold get_integration_points, discrete_part, continuous_part.
    rewrite Hnone. reflexivity.
Qed.

End Sampling.

(** X11 with samplers that keep their word and one that does not. *)
Lemma integration_points_failures_runs :
  get_integration_points sample_head samples_lower qnipv_three
    (MkSearchSpace (Some (MkDiscrete [(7%Z, [Fin 0])])) (Some unit_box))
  = Err (Raise ValueError "Cannot take a larger sample than population") /\
  get_integration_points sample_head (fun _ _ => Ok []) qnipv_three
    hybrid_space5
  = Err (Raise ValueError "Length mismatch").
Proof.
  destruct (integration_points_failures sample_head samples_lower
              qnipv_three) as (_ & Hdisc & _).
  destruct (integration_points_failures sample_head (fun _ _ => Ok [])
              qnipv_three) as (_ & _ & Hconti).
  split.
  - apply (Hdisc (MkDiscrete [(7%Z, [Fin 0])]) (Some unit_box) 3%Z);
      reflexivity.
  - destruct (Hconti discrete5 unit_box 3%Z
                [(10, [Fin 0]); (11, [Fin 1]); (12, [Fin 2])]%Z)
      as [_ Hlen]; [reflexivity | discriminate | reflexivity |].
    apply (Hlen []); [reflexivity | discriminate].
Defined.

(** X12 for three integration points and the fractions [1.0] and one
    half. *)
Lemma integration_points_ignored_parameters_runs :
  get_integration_points sample_head samples_lower
    (Mk (Fin 1) (Some 3%Z) Random) hybrid_space5
  = get_integration_points sample_head samples_lower
      (Mk (Fin (1 # 2)) (Some 3%Z) Random) hybrid_space5 /\
  get_integration_points sample_head samples_lower
    (Mk (Fin 1) (Some 3%Z) Random) continuous_space
  = get_integration_points sample_head samples_lower
      (Mk (Fin (1 # 2)) (Some 3%Z) FPS) continuous_space.
Proof.
  destruct (integration_points_ignored_parameters sample_head
              samples_lower (Fin 1) (Fin (1 # 2)) (Some 3%Z) Random
              Random hybrid_space5) as [Hpoints _].
  destruct (integration_points_ignored_parameters sample_head
              samples_lower (Fin 1) (Fin (1 # 2)) (Some 3%Z) Random
              FPS continuous_space) as [_ Hcont].
  split.
  - apply (Hpoints 3%Z); [reflexivity | discriminate].
  - apply Hcont. reflexivity.
Defined.

End AcqfsMoreFacts.

(* ===================================================================== *)
(** ** Fitting and transforming column groups *)

Module ColumnTransformsFacts.

Import Scaling ColumnTransforms Statements Properties.

Lemma set_nth_length (j : nat) (a : pyfloat) (r : list pyfloat) :
  length (set_nth j a r) = length r.
Proof.
  revert j. induction r as [| b r IH]; intros [| j]; simpl; auto.
Qed.

Lemma nth_set_nth_same (j : nat) (a : pyfloat) (r : list pyfloat) :
  (j < length r)%nat -> nth j (set_nth j a r) NaN = a.
Proof.
  revert j. induction r as [| b r IH]; intros [| j]; simpl; intros H;
    try lia; [reflexivity | apply IH; lia].
Qed.

Lemma nth_set_nth_other (j j' : nat) (a : pyfloat) (r : list pyfloat) :
  j <> j' -> nth j' (set_nth j a r) NaN = nth j' r NaN.
Proof.
  revert j j'. induction r as [| b r IH]; intros [| j] [| j']; simpl;
    intros H; try reflexivity; try lia.
  apply IH. lia.
Qed.

Lemma assign_row_length (js : list nat) (r v : list pyfloat) :
  length (assign_row js r v) = length r.
Proof.
  unfold assign_row. revert r v.
  induction js as [| j js IH]; intros r [| a v]; simpl; try reflexivity.
  rewrite IH. apply set_nth_length.
Qed.

Lemma assign_row_other (js : list nat) (r v : list pyfloat) (j : nat) :
  ~ In j js -> nth j (assign_row js r v) NaN = nth j r NaN.
Proof.
  unfold assign_row. revert r v.
  induction js as [| i js IH]; intros r [| a v] Hnot; simpl;
    try reflexivity.
  rewrite IH by (intros H; apply Hnot; now right).
  apply nth_set_nth_other. intros ->. apply Hnot. now left.
Qed.

Lemma assign_row_written (js : list nat) (r v : list pyfloat) :
  NoDup js -> Forall (fun j => (j < length r)%nat) js ->
  length v = length js ->
  map (fun j => nth j (assign_row js r v) NaN) js = v.
Proof.
  revert r v.
  induction js as [| i js IH]; intros r [| a v] Hnd Hin Hlen;
    simpl in Hlen; try discriminate; [reflexivity |].
  inversion Hnd as [| ? ? Hnotin Hnd']; subst.
  inversion Hin as [| ? ? Hi Hin']; subst.
  simpl. f_equal.
  - change (nth i (assign_row js (set_nth i a r) v) NaN = a).
    rewrite (assign_row_other js _ v i Hnotin).
    now apply nth_set_nth_same.
  - change (map (fun j => nth j (assign_row js (set_nth i a r) v) NaN) js
            = v).
    apply IH; [exact Hnd' | | congruence].
    rewrite set_nth_length. exact Hin'.
Qed.

Lemma resolve_bound (width : nat) (c : Z) (j : nat) :
  resolve width c = Some j -> (j < width)%nat.
Proof.
  unfold resolve.
  destruct ((0 <=? c) && (c <? Z.of_nat width)) eqn:E1.
  - intros [= <-]. lia.
  - destruct ((- Z.of_nat width <=? c) && (c <? 0)) eqn:E2;
      [| discriminate].
    intros [= <-]. lia.
Qed.

Lemma resolve_all_spec (width : nat) (cols : columns) (js : list nat) :
  resolve_all width cols = Some js ->
  Forall (fun j => (j < width)%nat) js /\
  (forall j, In j js <-> names_column width cols j) /\
  Forall2 (fun c j => resolve width c = Some j) cols js.
Proof.
  revert js. induction cols as [| c cols IH]; intros js; simpl.
  - intros [= <-]. split; [constructor | split; [| constructor]].
    intros j. split; [contradiction |]. now intros (c & [] & _).
  - destruct (resolve width c) as [j0 |] eqn:Hc; [| discriminate].
    destruct (resolve_all width cols) as [js0 |]; [| discriminate].
    intros [= <-]. destruct (IH js0 eq_refl) as (Hb & Hn & Hf).
    split; [| split].
    + constructor; [now apply (resolve_bound width c) | exact Hb].
    + intros j. simpl. split.
      * intros [<- | Hj]; [exists c; split; [now left | exact Hc] |].
        apply Hn in Hj as (c' & Hc' & Hr). exists c'.
        split; [now right | exact Hr].
      * intros (c' & [<- | Hc'] & Hr).
        -- left. congruence.
        -- right. apply Hn. now exists c'.
    + constructor; assumption.
Qed.

Lemma map_fst_combine {A B} (a : list A) (b : list B) :
  length a = length b -> map fst (combine a b) = a.
Proof.
  revert b. induction a as [| x a IH]; intros [| y b]; simpl;
    try discriminate; intros H; [reflexivity |].
  f_equal. apply IH. congruence.
Qed.

Lemma map_snd_combine {A B} (a : list A) (b : list B) :
  length a = length b -> map snd (combine a b) = b.
Proof.
  revert b. induction a as [| x a IH]; intros [| y b]; simpl;
    try discriminate; intros H; [reflexivity |].
  f_equal. apply IH. congruence.
Qed.

Lemma getitem_shape (x sub : tensor) (cols : columns) :
  getitem x cols = Returns sub ->
  well_shaped sub /\ length (rows sub) = length (rows x).
Proof.
  unfold getitem. destruct (resolve_all (ncols x) cols) as [js |];
    [| discriminate].
  intros [= <-]. unfold well_shaped. simpl. split.
  - apply Forall_forall. intros r Hr.
    apply in_map_iff in Hr as (r0 & <- & _). apply length_map.
  - apply length_map.
Qed.

(** What an assignment to a column group changes. *)
Lemma setitem_effect (out out' value : tensor) (cols : columns) :
  setitem out cols value = Returns out' ->
  exists js,
    resolve_all (ncols out) cols = Some js /\
    same_shape out' out /\
    (well_shaped out -> well_shaped out') /\
    (forall j, ~ In j js -> column j out' = column j out) /\
    (NoDup js -> well_shaped out -> getitem out' cols = Returns value).
Proof.
  unfold setitem.
  destruct (resolve_all (ncols out) cols) as [js |] eqn:Hjs;
    [| discriminate].
  destruct (_ && _) eqn:Hshape; [| discriminate].
  apply andb_true_iff in Hshape as [Hshape Hrows].
  apply andb_true_iff in Hshape as [Hcols Hlen].
  apply Nat.eqb_eq in Hcols. apply Nat.eqb_eq in Hlen.
  rewrite forallb_forall in Hrows.
  intros [= <-]. exists js. split; [reflexivity |].
  assert (Hcomb : length (rows out) = length (rows value))
    by congruence.
  split; [| split; [| split]].
  - unfold same_shape. simpl. split; [reflexivity |].
    rewrite length_map, length_combine. lia.
  - unfold well_shaped. simpl. rewrite !Forall_forall.
    intros Hws r Hr. apply in_map_iff in Hr as ([r0 v0] & <- & Hin).
    simpl. rewrite assign_row_length. apply Hws.
    now apply in_combine_l in Hin.
  - intros j Hnot. unfold column. simpl. rewrite map_map.
    rewrite <- (map_fst_combine (rows out) (rows value) Hcomb) at 2.
    rewrite map_map. apply map_ext. intros [r0 v0]. simpl.
    now apply assign_row_other.
  - intros Hnd Hws. unfold getitem. simpl. rewrite Hjs.
    destruct value as [vc vrows]. simpl in *. subst vc. f_equal. f_equal.
    rewrite map_map.
    rewrite <- (map_snd_combine (rows out) vrows Hcomb) at 2.
    apply map_ext_in. intros [r0 v0] Hin. simpl.
    apply assign_row_written; [exact Hnd | |].
    + unfold well_shaped in Hws. rewrite Forall_forall in Hws.
      rewrite (Hws r0 (in_combine_l _ _ _ _ Hin)).
      now apply (resolve_all_spec _ cols).
    + apply Nat.eqb_eq. apply Hrows. now apply in_combine_r in Hin.
Qed.

(** Reading a column group looks at the columns it names only. *)
Lemma getitem_agree (a b : tensor) (cols : columns) :
  same_shape a b ->
  (forall j, names_column (ncols a) cols j -> column j a = column j b) ->
  getitem a cols = getitem b cols.
Proof.
  intros [Hcols Hlen] Hagree. unfold getitem. rewrite <- Hcols.
  destruct (resolve_all (ncols a) cols) as [js |] eqn:Hjs;
    [| reflexivity].
  f_equal. f_equal.
  assert (Hcol : forall j, In j js -> column j a = column j b).
  { intros j Hj. apply Hagree. now apply (resolve_all_spec _ cols js). }
  clear Hagree Hjs Hcols. unfold column in Hcol.
  destruct a as [ca ra], b as [cb rb]. simpl in *.
  revert rb Hlen Hcol. induction ra as [| r ra IH]; intros [| r' rb];
    simpl; try discriminate; intros Hlen Hcol; [reflexivity |].
  f_equal.
  - apply map_ext_in. intros j Hj. specialize (Hcol j Hj).
    now injection Hcol.
  - apply IH; [congruence |]. intros j Hj. specialize (Hcol j Hj).
    now injection Hcol.
Qed.

Lemma same_shape_trans (a b c : tensor) :
  same_shape a b -> same_shape b c -> same_shape a c.
Proof. unfold same_shape. intros [] []. split; congruence. Qed.

Section Transforms.

Variable transform_t : Type.
Variable eval : transform_t -> transform_t.
Variable forward : transform_t -> tensor -> outcome (transform_t * tensor).

(** One round of the loop of [transform] that goes through. *)
Lemma transform_loop_step (out final : tensor) (cols : columns)
    (t : transform_t) (rest m' : dict columns transform_t) :
  transform_loop transform_t eval forward out ((cols, t) :: rest)
  = (Returns final, m') ->
  exists sub t' res out1 rest',
    getitem out cols = Returns sub /\
    forward (eval t) sub = Returns (t', res) /\
    setitem out cols res = Returns out1 /\
    transform_loop transform_t eval forward out1 rest
    = (Returns final, rest') /\
    m' = (cols, t') :: rest'.
Proof.
  simpl. destruct (getitem out cols) as [sub | r]; [| discriminate].
  cbn [obind].
  destruct (forward (eval t) sub) as [[t' res] | r] eqn:Hfwd;
    [| discriminate].
  destruct (setitem out cols res) as [out1 | r] eqn:Hset;
    [| discriminate].
  destruct (transform_loop transform_t eval forward out1 rest)
    as [o rest'] eqn:Hrest.
  intros [= -> <-]. exists sub, t', res, out1, rest'.
  repeat split; assumption.
Qed.

Lemma transform_loop_keeps (items : dict columns transform_t) :
  forall cur out m',
    keeps_shape forward -> well_shaped cur ->
    transform_loop transform_t eval forward cur items
    = (Returns out, m') ->
    well_shaped out /\ same_shape out cur /\ keys m' = keys items /\
    forall j,
      (forall cols, In cols (keys items) ->
                    ~ names_column (ncols cur) cols j) ->
      column j out = column j cur.
Proof.
  induction items as [| [cols t] rest IH]; intros cur out m' Hkeep Hws.
  - simpl. intros [= <- <-]. unfold same_shape. auto.
  - intros Hrun.
    apply transform_loop_step in Hrun
      as (sub & t' & res & out1 & rest' & Hget & Hfwd & Hset & Hrest & ->).
    apply setitem_effect in Hset
      as (js & Hjs & Hshape1 & Hws1 & Hother & _).
    destruct (IH out1 out rest' Hkeep (Hws1 Hws) Hrest)
      as (Hwsout & Hshape & Hkeys & Hcolumns).
    split; [exact Hwsout |].
    split; [exact (same_shape_trans _ _ _ Hshape Hshape1) |].
    split; [simpl; now rewrite Hkeys |].
    intros j Hfree. rewrite Hcolumns.
    + apply Hother. intros Hj.
      apply (Hfree cols); [now left |].
      now apply (resolve_all_spec _ cols js).
    + intros cols' Hin. destruct Hshape1 as [-> _].
      apply Hfree. now right.
Qed.

(** X13: a [transform] that returns gives a tensor of the shape of its
    argument in which every column that no key names is as it was; the
    keys of the mapping and their order are as before. *)
Theorem transform_keeps_other_columns
    (mapping m' : dict columns transform_t) (x out : tensor) :
  keeps_shape forward -> well_shaped x ->
  transform transform_t eval forward mapping x = (Returns out, m') ->
  well_shaped out /\ same_shape out x /\ keys m' = keys mapping /\
  forall j,
    (forall cols, In cols (keys mapping) ->
                  ~ names_column (ncols x) cols j) ->
    column j out = column j x.
Proof.
  intros Hkeep Hws Hrun. exact (transform_loop_keeps _ _ _ _ Hkeep Hws Hrun).
Qed.

Lemma Forall2_impl_in {A B} (P Q : A -> B -> Prop) (l : list A)
    (l' : list B) :
  Forall2 P l l' ->
  (forall a b, In a l -> P a b -> Q a b) ->
  Forall2 Q l l'.
Proof.
  induction 1 as [| a b l l' Hab _ IH]; intros Himp; constructor.
  - apply Himp; [now left | exact Hab].
  - apply IH. intros a' b' Hin. apply Himp. now right.
Qed.

Lemma transform_loop_groups (items : dict columns transform_t) :
  forall cur out m',
    keeps_shape forward -> well_shaped cur ->
    ForallOrdPairs (apart (ncols cur)) (keys items) ->
    Forall (distinct_positions (ncols cur)) (keys items) ->
    transform_loop transform_t eval forward cur items
    = (Returns out, m') ->
    Forall2
      (fun it it' =>
         fst it' = fst it /\
         exists sub res,
           getitem cur (fst it) = Returns sub /\
           forward (eval (snd it)) sub = Returns (snd it', res) /\
           getitem out (fst it) = Returns res)
      items m'.
Proof.
  induction items as [| [cols t] rest IH];
    intros cur out m' Hkeep Hws Hapart Hdistinct.
  - simpl. intros [= <- <-]. constructor.
  - intros Hrun.
    apply transform_loop_step in Hrun
      as (sub & t' & res & out1 & rest' & Hget & Hfwd & Hset & Hrest & ->).
    apply setitem_effect in Hset
      as (js & Hjs & Hshape1 & Hws1 & Hother & Hread).
    simpl in Hapart, Hdistinct.
    inversion Hapart as [| ? ? Hhead Htail]; subst.
    inversion Hdistinct as [| ? ? Hnd Hdistinct']; subst.
    assert (Hcols1 : ncols out1 = ncols cur) by apply Hshape1.
    destruct (transform_loop_keeps rest out1 out rest' Hkeep (Hws1 Hws)
                Hrest) as (_ & Hshape & _ & Hcolumns).
    constructor.
    + simpl. split; [reflexivity |]. exists sub, res.
      split; [exact Hget | split; [exact Hfwd |]].
      rewrite <- (Hread (Hnd js Hjs) Hws).
      apply getitem_agree; [exact Hshape |].
      intros j Hj. apply Hcolumns. intros cols' Hin.
      rewrite Forall_forall in Hhead. rewrite Hcols1.
      assert (Hap := Hhead cols' Hin). unfold apart in Hap.
      apply (Hap j).
      destruct Hshape as [Hc _]. now rewrite <- Hcols1, <- Hc.
    + assert (IH' := IH out1 out rest' Hkeep (Hws1 Hws)).
      rewrite Hcols1 in IH'. specialize (IH' Htail Hdistinct' Hrest).
      apply (Forall2_impl_in _ _ _ _ IH').
      intros [cols' t0] [cols'' t0'] Hin (Hfst & sub' & res' & Hg & Hf & Ho).
      split; [exact Hfst |]. exists sub', res'.
      split; [| split; [exact Hf | exact Ho]].
      rewrite <- Hg. symmetry.
      apply getitem_agree; [exact Hshape1 |].
      intros j Hj. apply Hother. intros Hjs'.
      rewrite Forall_forall in Hhead.
      apply (in_map fst) in Hin. simpl in Hin, Hj.
      assert (Hap := Hhead cols' Hin). unfold apart in Hap.
      apply (Hap j).
      * now apply (resolve_all_spec _ cols js).
      * now rewrite <- Hcols1.
Qed.

(** The positions of a tuple that lies inside the dimension. *)
Lemma resolve_inside (width : nat) (c : Z) :
  0 <= c < Z.of_nat width -> resolve width c = Some (Z.to_nat c).
Proof.
  intros [H0 H1]. unfold resolve.
  apply Z.leb_le in H0. apply Z.ltb_lt in H1. now rewrite H0, H1.
Qed.

Lemma names_column_inside (width : nat) (cols : columns) (j : nat) :
  inside width cols ->
  names_column width cols j -> In (Z.of_nat j) cols.
Proof.
  intros Hin (c & Hc & Hr). rewrite (resolve_inside _ _ (Hin c Hc)) in Hr.
  injection Hr as <-. rewrite Z2Nat.id by (apply (Hin c Hc)). exact Hc.
Qed.

Lemma resolve_all_inside (width : nat) (cols : columns) :
  inside width cols ->
  resolve_all width cols = Some (map Z.to_nat cols).
Proof.
  induction cols as [| c cols IH]; intros Hin; [reflexivity |].
  simpl. rewrite (resolve_inside _ _ (Hin c (or_introl eq_refl))).
  rewrite IH; [reflexivity |]. intros c' Hc'. apply Hin. now right.
Qed.

Lemma distinct_inside (width : nat) (cols : columns) :
  inside width cols -> NoDup cols -> distinct_positions width cols.
Proof.
  intros Hin Hnd js Hjs. rewrite (resolve_all_inside _ _ Hin) in Hjs.
  injection Hjs as <-.
  induction cols as [| c cols IH]; [constructor |].
  inversion Hnd as [| ? ? Hnot Hnd']; subst.
  assert (Hin' : inside width cols).
  { intros c' Hc'. apply Hin. now right. }
  simpl. constructor; [| now apply IH].
  intros Hj. apply in_map_iff in Hj as (c' & Heq & Hc').
  apply Hnot. replace c with c'; [exact Hc' |].
  pose proof (Hin c (or_introl eq_refl)).
  pose proof (Hin' c' Hc'). lia.
Qed.

(** The disjointness validator accepts a list of keys when no two of them
    share a column. *)
Lemma check_pairs_accepts (l : list columns) :
  check_pairs (combinations2 l) = Ok tt ->
  ForallOrdPairs (fun a b => ~ share_a_column a b) l.
Proof.
  intros Hok.
  assert (Hall : forall a b, In (a, b) (combinations2 l) ->
                             ~ share_a_column a b).
  { destruct (ScalingFacts.check_pairs_result (combinations2 l))
      as [[Hall _] | (a & b & _ & _ & Herr)]; [| congruence].
    intros a b Hin. rewrite Forall_forall in Hall.
    apply ScalingFacts.isdisjoint_true. exact (Hall (a, b) Hin). }
  clear Hok. induction l as [| a l IH]; [constructor |].
  simpl in Hall. constructor.
  - apply Forall_forall. intros b Hb. apply Hall.
    apply in_or_app. left. now apply in_map.
  - apply IH. intros x y Hxy. apply Hall. apply in_or_app. now right.
Qed.

Lemma ForallOrdPairs_impl_in {A} (R R' : A -> A -> Prop) (l : list A) :
  ForallOrdPairs R l ->
  (forall a b, In a l -> In b l -> R a b -> R' a b) ->
  ForallOrdPairs R' l.
Proof.
  induction 1 as [| a l Ha _ IH]; intros Himp; constructor.
  - rewrite Forall_forall in *. intros b Hb.
    apply Himp; [now left | now right | now apply Ha].
  - apply IH. intros x y Hx Hy. apply Himp; now right.
Qed.

(** X14: for a mapping whose keys count their columns from the front,
    inside the tensor and without repetition, and which the disjointness
    validator accepts, a [transform] that returns has given every
    transformer, in evaluation mode, its columns of the argument [x], and
    the result holds in these columns what that transformer returned: no
    group sees or overwrites the work of another, whatever the order of
    the items. *)
Theorem transform_groups_are_independent
    (mapping m' : dict columns transform_t) (x out : tensor) :
  keeps_shape forward -> well_shaped x ->
  Forall (inside (ncols x)) (keys mapping) ->
  Forall (@NoDup Z) (keys mapping) ->
  check_pairs (combinations2 (keys mapping)) = Ok tt ->
  transform transform_t eval forward mapping x = (Returns out, m') ->
  Forall2
    (fun it it' =>
       fst it' = fst it /\
       exists sub res,
         getitem x (fst it) = Returns sub /\
         forward (eval (snd it)) sub = Returns (snd it', res) /\
         getitem out (fst it) = Returns res)
    mapping m'.
Proof.
  intros Hkeep Hws Hinside Hnodup Hvalid Hrun.
  apply (transform_loop_groups mapping x out m' Hkeep Hws); [| | exact Hrun].
  - apply check_pairs_accepts in Hvalid.
    apply (ForallOrdPairs_impl_in _ _ _ Hvalid).
    intros a b Ha Hb Hshare j Hja Hjb. apply Hshare.
    rewrite Forall_forall in Hinside.
    exists (Z.of_nat j). split.
    + now apply (names_column_inside (ncols x)); [apply Hinside |].
    + now apply (names_column_inside (ncols x)); [apply Hinside |].
  - rewrite Forall_forall in *. intros cols Hcols.
    apply distinct_inside; [now apply Hinside | now apply Hnodup].
Qed.

Lemma resolve_from_the_back (width : nat) :
  (1 <= width)%nat ->
  resolve_all width [- Z.of_nat width] = Some [0%nat] /\
  resolve_all width [0] = Some [0%nat].
Proof.
  intros Hw. unfold resolve_all, resolve.
  destruct (Z.leb_spec 0 (- Z.of_nat width)); [lia |].
  destruct (Z.leb_spec (- Z.of_nat width) (- Z.of_nat width)); [| lia].
  destruct (Z.ltb_spec (- Z.of_nat width) 0); [| lia].
  destruct (Z.ltb_spec 0 (Z.of_nat width)); [| lia].
  cbn [andb Z.leb Z.compare].
  replace (Z.of_nat width + - Z.of_nat width) with 0 by lia.
  split; reflexivity.
Qed.

Lemma getitem_same_positions (a : tensor) (c1 c2 : columns) :
  resolve_all (ncols a) c1 = resolve_all (ncols a) c2 ->
  getitem a c1 = getitem a c2.
Proof. unfold getitem. now intros ->. Qed.

(** X16: keys that differ as tuples can name the same column.  The
    validator accepts the keys [(0,)] and [(-n,)]; on a tensor of [n]
    columns both name the first column, and [transform] gives the second
    transformer what the first has written there instead of the column of
    the argument. *)
Theorem negative_index_names_the_same_column
    (t1 t2 : transform_t) (x out : tensor)
    (m' : dict columns transform_t) :
  (1 <= ncols x)%nat -> keeps_shape forward -> well_shaped x ->
  check_pairs
    (combinations2 (keys [([0], t1); ([- Z.of_nat (ncols x)], t2)]))
  = Ok tt /\
  (transform transform_t eval forward
     [([0], t1); ([- Z.of_nat (ncols x)], t2)] x = (Returns out, m') ->
   exists sub t1' res1 t2' res2,
     getitem x [0] = Returns sub /\
     forward (eval t1) sub = Returns (t1', res1) /\
     forward (eval t2) res1 = Returns (t2', res2) /\
     getitem out [0] = Returns res2 /\
     m' = [([0], t1'); ([- Z.of_nat (ncols x)], t2')]).
Proof.
  intros Hw Hkeep Hws. split.
  - assert (Hd : isdisjoint [0] [- Z.of_nat (ncols x)] = true).
    { apply ScalingFacts.isdisjoint_true.
      intros (a & [<- | []] & [Hb | []]). lia. }
    unfold keys. cbn [map fst combinations2 app check_pairs].
    now rewrite Hd.
  - unfold transform. intros Hrun.
    apply transform_loop_step in Hrun
      as (sub & t1' & res1 & out1 & rest' & Hget & Hfwd & Hset & Hrest & ->).
    apply transform_loop_step in Hrest
      as (sub2 & t2' & res2 & out2 & rest2 & Hget2 & Hfwd2 & Hset2 & Hrest2
          & ->).
    simpl in Hrest2. injection Hrest2 as -> <-.
    destruct (resolve_from_the_back (ncols x) Hw) as [Hback Hfront].
    apply setitem_effect in Hset
      as (js & Hjs & Hshape1 & Hws1 & _ & Hread).
    rewrite Hfront in Hjs. injection Hjs as <-.
    assert (Hone : NoDup [0%nat]) by (repeat constructor; simpl; tauto).
    specialize (Hread Hone Hws).
    assert (Hcols1 : ncols out1 = ncols x) by apply Hshape1.
    assert (Hsame : getitem out1 [- Z.of_nat (ncols x)] = getitem out1 [0]).
    { apply getitem_same_positions. rewrite Hcols1. congruence. }
    rewrite Hsame, Hread in Hget2. injection Hget2 as <-.
    apply setitem_effect in Hset2
      as (js2 & Hjs2 & Hshape2 & _ & _ & Hread2).
    rewrite Hcols1, Hback in Hjs2. injection Hjs2 as <-.
    specialize (Hread2 Hone (Hws1 Hws)).
    assert (Hcols2 : ncols out = ncols x).
    { destruct Hshape2 as [-> _]. exact Hcols1. }
    exists sub, t1', res1, t2', res2.
    split; [exact Hget |]. split; [exact Hfwd |].
    split; [exact Hfwd2 |]. split; [| reflexivity].
    rewrite <- Hread2. apply getitem_same_positions.
    rewrite Hcols2. congruence.
Qed.

End Transforms.

Section Fit.

Variable transform_t : Type.
Variable train : transform_t -> transform_t.
Variable forward : transform_t -> tensor -> outcome (transform_t * tensor).

(** The loop of [fit], item by item. *)
Lemma fit_loop_app (x : tensor) (pre post : dict columns ref) :
  forall heap heap1,
    fit_loop transform_t train forward x pre heap = (Returns tt, heap1) ->
    fit_loop transform_t train forward x (pre ++ post) heap
    = fit_loop transform_t train forward x post heap1.
Proof.
  induction pre as [| [cols r] pre IH]; intros heap heap1.
  - simpl. now intros [= <-].
  - simpl.
    destruct (obind (getitem x cols) _) as [[t' res] | e];
      [| discriminate].
    apply IH.
Qed.

Lemma fit_loop_fed (x : tensor) (items : dict columns ref) :
  forall heap heap1,
    fit_loop transform_t train forward x items heap = (Returns tt, heap1) ->
    fed train forward x items heap heap1.
Proof.
  induction items as [| [cols r] items IH]; intros heap heap1.
  - simpl. now intros [= <-].
  - simpl. destruct (getitem x cols) as [sub |] eqn:Hget;
      [| discriminate].
    cbn [obind].
    destruct (forward (train (heap r)) sub) as [[t' res] |] eqn:Hfwd;
      [| discriminate].
    intros Hrest. exists sub, t', res.
    split; [reflexivity |]. split; [exact Hfwd |]. now apply IH.
Qed.

(** An object that no item refers to is not touched. *)
Lemma fit_loop_elsewhere (x : tensor) (items : dict columns ref) (r' : ref) :
  ~ In r' (map snd items) ->
  forall heap,
    snd (fit_loop transform_t train forward x items heap) r' = heap r'.
Proof.
  induction items as [| [cols r] items IH]; intros Hout heap.
  - reflexivity.
  - simpl in Hout.
    assert (Hne : (r' =? r)%nat = false).
    { apply Nat.eqb_neq. intros ->. apply Hout. now left. }
    simpl.
    destruct (obind (getitem x cols) _) as [[t' res] | e].
    + rewrite IH by tauto. unfold update. now rewrite Hne.
    + cbn [snd]. unfold update. now rewrite Hne.
Qed.

(** X15: [fit] is not atomic, and it works on the objects the keys refer
    to.  A [fit] that raises at some item has fitted the objects of the
    items before it, one after the other, and has switched the object of
    that item to training mode; nothing else is written.  So an object
    that none of these items refers to is as it was, while the object of
    a later item to which an earlier item refers as well has been fitted
    already. *)
Theorem fit_stops_where_it_raises
    (pre post : dict columns ref) (cols : columns) (r : ref) (x : tensor)
    (heap heap1 : store transform_t) (e : raised) :
  fit transform_t train forward pre heap x = (Returns tt, heap1) ->
  (sub <- getitem x cols ;; forward (train (heap1 r)) sub)%outcome
  = Raises e ->
  fed train forward x pre heap heap1 /\
  fit transform_t train forward (pre ++ (cols, r) :: post) heap x
  = (Raises e, update transform_t heap1 r (train (heap1 r))) /\
  (forall r',
     ~ In r' (map snd pre) -> r' <> r ->
     update transform_t heap1 r (train (heap1 r)) r' = heap r') /\
  (forall cols' r',
     In (cols', r') post -> r' <> r ->
     update transform_t heap1 r (train (heap1 r)) r' = heap1 r').
Proof.
  unfold fit. intros Hpre Hraise.
  split; [now apply fit_loop_fed |]. split; [| split].
  - rewrite (fit_loop_app x pre _ heap heap1 Hpre). simpl.
    now rewrite Hraise.
  - intros r' Hout Hne. unfold update.
    rewrite (proj2 (Nat.eqb_neq r' r) Hne).
    pose proof (fit_loop_elsewhere x pre r' Hout heap) as H.
    now rewrite Hpre in H.
  - intros cols' r' _ Hne. unfold update.
    now rewrite (proj2 (Nat.eqb_neq r' r) Hne).
Qed.

End Fit.

Import MoreInputs.

Lemma multiply_keeps_shape : keeps_shape multiply.
Proof.
  intros t sub t' res Hws [= <- <-]. unfold well_shaped, same_shape.
  simpl. split; [| split; [reflexivity | apply length_map]].
  unfold well_shaped in Hws. rewrite Forall_forall in *.
  intros r Hr. apply in_map_iff in Hr as (r0 & <- & Hr0).
  rewrite length_map. now apply Hws.
Defined.

Lemma x23_well_shaped : well_shaped x23.
Proof. repeat constructor. Defined.

(** X13 at [x23] with column [1] times ten: columns [0] and [2] are as
    they were. *)
Lemma transform_keeps_other_columns_x23 :
  well_shaped
    (MkTensor 3 [[Fin 1; Fin 20; Fin 3]; [Fin 4; Fin 50; Fin 6]]) /\
  same_shape
    (MkTensor 3 [[Fin 1; Fin 20; Fin 3]; [Fin 4; Fin 50; Fin 6]]) x23 /\
  keys [([1], MkScaling false 10)] = keys [([1], MkScaling true 10)] /\
  forall j,
    (forall cols, In cols (keys [([1], MkScaling true 10)]) ->
                  ~ names_column (ncols x23) cols j) ->
    column j (MkTensor 3 [[Fin 1; Fin 20; Fin 3]; [Fin 4; Fin 50; Fin 6]])
    = column j x23.
Proof.
  apply (transform_keeps_other_columns scaling_transform to_eval multiply
           [([1], MkScaling true 10)] [([1], MkScaling false 10)] x23).
  - exact multiply_keeps_shape.
  - exact x23_well_shaped.
  - reflexivity.
Defined.

(** X14 at [x23] and [two_groups]. *)
Lemma transform_groups_are_independent_x23 :
  Forall2
    (fun it it' =>
       fst it' = fst it /\
       exists sub res,
         getitem x23 (fst it) = Returns sub /\
         multiply (to_eval (snd it)) sub = Returns (snd it', res) /\
         getitem
           (MkTensor 3 [[Fin 2; Fin 20; Fin 6]; [Fin 8; Fin 50; Fin 12]])
           (fst it) = Returns res)
    two_groups
    [([0; 2], MkScaling false 2); ([1], MkScaling false 10)].
Proof.
  apply (transform_groups_are_independent scaling_transform to_eval
           multiply two_groups
           [([0; 2], MkScaling false 2); ([1], MkScaling false 10)] x23).
  - exact multiply_keeps_shape.
  - exact x23_well_shaped.
  - simpl. constructor; [| constructor; [| constructor]].
    + intros c [<- | [<- | []]]; lia.
    + intros c [<- | []]; lia.
  - simpl. constructor; [| constructor; [| constructor]].
    + constructor; [| constructor; [| constructor]]; simpl;
        intuition discriminate.
    + constructor; [| constructor]. simpl. tauto.
  - reflexivity.
  - reflexivity.
Defined.

(** X15 at [x23]: one object sits under the keys [(0,)] and [(1,)], and
    the item between them names column [5].  The object of the last item
    is in training mode after the call, though the loop never came to
    that item. *)
Lemma fit_stops_where_it_raises_x23 :
  fit scaling_transform to_train multiply
    ([([0], 0%nat)] ++ ([5], 1%nat) :: [([1], 0%nat)]) two_objects x23
  = (Raises (IndexError "index is out of bounds"),
     update scaling_transform
       (update scaling_transform two_objects 0%nat (MkScaling true 2))
       1%nat (MkScaling true 3)) /\
  update scaling_transform
    (update scaling_transform two_objects 0%nat (MkScaling true 2))
    1%nat (MkScaling true 3) 0%nat
  = MkScaling true 2 /\
  two_objects 0%nat = MkScaling false 2.
Proof.
  destruct (fit_stops_where_it_raises scaling_transform to_train multiply
              [([0], 0%nat)] [([1], 0%nat)] [5] 1%nat x23 two_objects
              (update scaling_transform two_objects 0%nat
                 (MkScaling true 2))
              (IndexError "index is out of bounds"))
    as (_ & Hrun & _ & Hlater); [reflexivity | reflexivity |].
  split; [exact Hrun |]. split; [| reflexivity].
  exact (Hlater [1] 0%nat (or_introl eq_refl) (O_S 0)).
Defined.

(** X16 at [x23]: the keys [(0,)] and [(-3,)], doubling and times ten,
    leave the first column times twenty. *)
Lemma negative_index_names_the_same_column_x23 :
  check_pairs
    (combinations2
       (keys [([0], MkScaling true 2);
              ([- Z.of_nat (ncols x23)], MkScaling true 10)]))
  = Ok tt /\
  exists sub t1' res1 t2' res2,
    getitem x23 [0] = Returns sub /\
    multiply (to_eval (MkScaling true 2)) sub = Returns (t1', res1) /\
    multiply (to_eval (MkScaling true 10)) res1 = Returns (t2', res2) /\
    getitem
      (MkTensor 3 [[Fin 20; Fin 2; Fin 3]; [Fin 80; Fin 5; Fin 6]]) [0]
    = Returns res2 /\
    [([0], MkScaling false 2); ([-3], MkScaling false 10)]
    = [([0], t1'); ([- Z.of_nat (ncols x23)], t2')].
Proof.
  destruct (negative_index_names_the_same_column scaling_transform to_eval
              multiply (MkScaling true 2) (MkScaling true 10) x23
              (MkTensor 3 [[Fin 20; Fin 2; Fin 3]; [Fin 80; Fin 5; Fin 6]])
              [([0], MkScaling false 2); ([-3], MkScaling false 10)])
    as [Hvalid Hrun].
  - simpl. lia.
  - exact multiply_keeps_shape.
  - exact x23_well_shaped.
  - split; [exact Hvalid |]. apply Hrun. reflexivity.
Defined.

End ColumnTransformsFacts.

(* ===================================================================== *)
(** ** Chemistry tools *)

Module ChemistryFacts.

Import Chemistry Properties MoreInputs.

Lemma prefix_app (n h : string) :
  prefix n h = true <-> exists b, h = (n ++ b)%string.
Proof.
  revert h. induction n as [| c n IH]; intros h.
  - split; [intros _; now exists h |]. intros _. now destruct h.
  - destruct h as [| d h]; simpl.
    + split; [discriminate | now intros (b & Hb)].
    + destruct (ascii_dec c d) as [-> | Hne].
      * rewrite IH. split; intros (b & Hb); exists b; congruence.
      * split; [discriminate |]. intros (b & [= Hcd _]). congruence.
Qed.

Lemma contains_unfold (needle hay : string) :
  contains needle hay
  = if prefix needle hay then true
    else match hay with
         | EmptyString => false
         | String _ rest => contains needle rest
         end.
Proof. now destruct hay. Qed.

(** [contains] decides occurrence. *)
Lemma contains_occurs (needle hay : string) :
  contains needle hay = true <-> occurs_in needle hay.
Proof.
  unfold occurs_in. split.
  - induction hay as [| c hay IH]; rewrite contains_unfold.
    + destruct (prefix needle EmptyString) eqn:Hp; [| discriminate].
      intros _. apply prefix_app in Hp as (b & Hb).
      now exists EmptyString, b.
    + destruct (prefix needle (String c hay)) eqn:Hp.
      * intros _. apply prefix_app in Hp as (b & Hb).
        now exists EmptyString, b.
      * intros H. destruct (IH H) as (a & b & ->).
        now exists (String c a), b.
  - intros (a & b & ->). induction a as [| c a IH].
    + change (EmptyString ++ needle ++ b)%string
        with (needle ++ b)%string.
      rewrite contains_unfold.
      now rewrite (proj2 (prefix_app needle (needle ++ b))
                     (ex_intro _ b eq_refl)).
    + simpl append. rewrite contains_unfold.
      destruct (prefix needle _); [reflexivity | exact IH].
Qed.

Lemma chars_app (a b : string) :
  list_ascii_of_string (a ++ b)
  = list_ascii_of_string a ++ list_ascii_of_string b.
Proof. induction a as [| c a IH]; simpl; [reflexivity | now rewrite IH]. Qed.

Lemma prefix_space (c : ascii) (s : string) :
  prefix " " (String c s) = true <-> c = " "%char.
Proof.
  change (prefix " " (String c s))
    with (if ascii_dec " " c then prefix EmptyString s else false).
  destruct (ascii_dec " " c) as [<- | Hne].
  - split; [reflexivity | intros _; now destruct s].
  - split; [discriminate | intros ->; now elim Hne].
Qed.

(** After [replace(" ", "%20")] no space is left. *)
Lemma replace_leaves_no_space (s : string) :
  forall skip,
    ~ In " "%char
         (list_ascii_of_string (replace_from skip " " "%20" s)).
Proof.
  induction s as [| c s IH]; intros skip; [simpl; tauto |].
  destruct skip as [| k]; [| apply IH].
  cbn [replace_from].
  destruct (prefix " " (String c s)) eqn:Hp.
  - simpl. intros H.
    destruct H as [H | [H | [H | H]]].
    + discriminate H.
    + discriminate H.
    + discriminate H.
    + exact (IH _ H).
  - simpl. intros [H | H]; [| exact (IH _ H)].
    subst c. rewrite (proj2 (prefix_space " " s) eq_refl) in Hp.
    discriminate Hp.
Qed.

(** [replace(" ", "%20")] leaves a text without spaces as it is. *)
Lemma replace_without_space (s : string) :
  ~ In " "%char (list_ascii_of_string s) ->
  replace_from 0 " " "%20" s = s.
Proof.
  induction s as [| c s IH]; intros Hno; [reflexivity |].
  cbn [replace_from].
  destruct (prefix " " (String c s)) eqn:Hp.
  - exfalso. apply Hno. apply prefix_space in Hp. subst c. now left.
  - f_equal. apply IH. intros H. apply Hno. now right.
Qed.

(** X17: the URL [name_to_smiles] requests holds no space, whatever the
    name; for a name without spaces it is the address of the resolver,
    the name and [/smiles]; and the request for this URL is the only thing
    the result depends on. *)
Theorem name_to_smiles_requests_one_clean_url (name : string) :
  ~ In " "%char (list_ascii_of_string (smiles_url name)) /\
  (~ In " "%char (list_ascii_of_string name) ->
   smiles_url name
   = ("http://cactus.nci.nih.gov/chemical/structure/" ++ name
      ++ "/smiles")%string) /\
  (forall fetch fetch',
     fetch (smiles_url name) = fetch' (smiles_url name) ->
     name_to_smiles fetch name = name_to_smiles fetch' name).
Proof.
  split; [| split].
  - unfold smiles_url. rewrite !chars_app, !in_app_iff.
    intros [H | [H | H]].
    + simpl in H. repeat (destruct H as [H | H]; [discriminate H |]).
      exact H.
    + exact (replace_leaves_no_space name 0 H).
    + simpl in H. repeat (destruct H as [H | H]; [discriminate H |]).
      exact H.
  - intros Hno. unfold smiles_url, replace.
    now rewrite (replace_without_space name Hno).
  - intros fetch fetch' Heq. unfold name_to_smiles. now rewrite Heq.
Qed.

(** X17 at a name of two words. *)
Lemma name_to_smiles_requests_one_clean_url_runs :
  smiles_url "acetic acid"
  = "http://cactus.nci.nih.gov/chemical/structure/acetic%20acid/smiles"
    %string /\
  smiles_url "benzene"
  = ("http://cactus.nci.nih.gov/chemical/structure/" ++ "benzene"
     ++ "/smiles")%string.
Proof.
  split; [reflexivity |].
  apply (name_to_smiles_requests_one_clean_url "benzene").
  simpl. intuition discriminate.
Defined.

(** X18: [name_to_smiles] returns the body of the answer unchanged when
    the request goes through and the body holds no [</div>], and the empty
    string in every other case; so what it returns never holds
    [</div>]. *)
Theorem name_to_smiles_result
    (fetch : string -> option string) (name : string) :
  ~ occurs_in "</div>" (name_to_smiles fetch name) /\
  (fetch (smiles_url name) = None ->
   name_to_smiles fetch name = EmptyString) /\
  (forall body,
     fetch (smiles_url name) = Some body ->
     (occurs_in "</div>" body -> name_to_smiles fetch name = EmptyString) /\
     (~ occurs_in "</div>" body -> name_to_smiles fetch name = body)).
Proof.
  assert (Hempty : ~ occurs_in "</div>" EmptyString).
  { intros H. apply contains_occurs in H. discriminate H. }
  unfold name_to_smiles. split; [| split].
  - destruct (fetch (smiles_url name)) as [body |]; [| exact Hempty].
    destruct (contains "</div>" body) eqn:Hc; [exact Hempty |].
    intros H. apply contains_occurs in H. congruence.
  - now intros ->.
  - intros body ->. split.
    + intros H. apply contains_occurs in H. now rewrite H.
    + intros H. destruct (contains "</div>" body) eqn:Hc; [| reflexivity].
      exfalso. apply H. now apply contains_occurs.
Qed.

(** X18 for a resolver that knows one name and answers an error page for
    another. *)
Lemma name_to_smiles_result_runs :
  name_to_smiles
    (fun url => if contains "benzene" url then Some "c1ccccc1"%string
                else Some "<div>Page not found</div>"%string)
    "benzene" = "c1ccccc1"%string /\
  name_to_smiles
    (fun url => if contains "benzene" url then Some "c1ccccc1"%string
                else Some "<div>Page not found</div>"%string)
    "unobtainium" = EmptyString.
Proof.
  split.
  - apply (name_to_smiles_result _ "benzene" ).
    + reflexivity.
    + intros H. apply contains_occurs in H. discriminate H.
  - apply (name_to_smiles_result _ "unobtainium"
             ) with (body := "<div>Page not found</div>"%string).
    + reflexivity.
    + apply contains_occurs. reflexivity.
Defined.

Section Fingerprints.

Variable dir_names : list string.
Variable instantiate : string -> kwdict -> outcome encoder.
Variable make_conformers : kwdict -> list string -> outcome (list molecule).

(** X19: for an encoding other than [RDKITFINGERPRINT],
    [get_fingerprint_class] returns a name the fingerprint module defines
    that equals the name of the encoding followed by [Fingerprint] up to
    the case of the letters, returns one whenever the module defines
    such a name, and otherwise raises a [ValueError] whose message holds
    the name of the encoding.  [RDKITFINGERPRINT] is answered by
    [RDKitFingerprint] when the module defines it, which the rule for the
    other encodings would not find. *)
Theorem fingerprint_class_lookup (encoding : string) :
  (encoding <> "RDKITFINGERPRINT"%string ->
   (forall cls,
      get_fingerprint_class dir_names encoding = Returns cls ->
      In cls dir_names /\
      casefold cls = casefold (encoding ++ "Fingerprint")) /\
   (forall name,
      In name dir_names ->
      casefold name = casefold (encoding ++ "Fingerprint") ->
      exists cls, get_fingerprint_class dir_names encoding = Returns cls) /\
   ((forall name,
       In name dir_names ->
       casefold name <> casefold (encoding ++ "Fingerprint")) ->
    exists msg,
      get_fingerprint_class dir_names encoding
      = Raises (Builtin (Raise ValueError msg)) /\
      occurs_in encoding msg)) /\
  (In "RDKitFingerprint"%string dir_names ->
   get_fingerprint_class dir_names "RDKITFINGERPRINT"
   = Returns "RDKitFingerprint"%string) /\
  casefold "RDKitFingerprint"
  <> casefold ("RDKITFINGERPRINT" ++ "Fingerprint").
Proof.
  split; [| split].
  - intros Hne. unfold get_fingerprint_class.
    rewrite (proj2 (String.eqb_neq _ _) Hne).
    split; [| split].
    + intros cls.
      destruct (find _ dir_names) as [name |] eqn:Hfind; [| discriminate].
      intros [= <-]. apply find_some in Hfind as [Hin Heq].
      apply String.eqb_eq in Heq. split; [exact Hin | now symmetry].
    + intros name Hin Hfold.
      destruct (find _ dir_names) as [cls |] eqn:Hfind;
        [now exists cls |].
      exfalso. apply (find_none _ _ Hfind) in Hin.
      apply String.eqb_neq in Hin. congruence.
    + intros Hnone.
      destruct (find _ dir_names) as [cls |] eqn:Hfind.
      * exfalso. apply find_some in Hfind as [Hin Heq].
        apply String.eqb_eq in Heq. exact (Hnone cls Hin (eq_sym Heq)).
      * eexists. split; [reflexivity |].
        exists "No fingerprint class exists for the specified encoding '"
               %string, "'."%string.
        reflexivity.
  - intros Hin. unfold get_fingerprint_class. rewrite String.eqb_refl.
    assert (Hex : existsb (String.eqb "RDKitFingerprint") dir_names = true).
    { apply existsb_exists. exists "RDKitFingerprint"%string.
      split; [exact Hin | apply String.eqb_refl]. }
    now rewrite Hex.
  - discriminate.
Qed.

Lemma obind_returns {A B} (c : outcome A) (k : A -> outcome B) (b : B) :
  obind c k = Returns b -> exists a, c = Returns a /\ k a = Returns b.
Proof.
  destruct c as [a | r]; simpl; [| discriminate].
  intros H. now exists a.
Qed.

(** X20: the deprecated encodings are other names.  [MORGAN_FP] gives
    what [ECFP] gives with [fp_size=1024] and [radius=4] written over the
    keyword arguments, and [RDKIT] gives what [RDKIT2DDESCRIPTORS] gives;
    each issues one deprecation warning, and the encodings they stand for
    issue none. *)
Theorem deprecated_encodings_are_aliases
    (smiles : list string) (prefix : string)
    (kwargs_conformer kwargs_fingerprint : option kwdict) :
  fst (smiles_to_fingerprint_features dir_names instantiate
         make_conformers smiles "MORGAN_FP" prefix kwargs_conformer
         kwargs_fingerprint)
  = (fst (fst (smiles_to_fingerprint_features dir_names instantiate
                 make_conformers smiles "ECFP" prefix kwargs_conformer
                 (Some (kw_update
                          match kwargs_fingerprint with
                          | Some d => d
                          | None => []
                          end
                          morgan_defaults)))),
     [morgan_warning]) /\
  fst (smiles_to_fingerprint_features dir_names instantiate
         make_conformers smiles "RDKIT" prefix kwargs_conformer
         kwargs_fingerprint)
  = (fst (fst (smiles_to_fingerprint_features dir_names instantiate
                 make_conformers smiles "RDKIT2DDESCRIPTORS" prefix
                 kwargs_conformer kwargs_fingerprint)),
     [rdkit_warning]) /\
  snd (fst (smiles_to_fingerprint_features dir_names instantiate
              make_conformers smiles "ECFP" prefix kwargs_conformer
              kwargs_fingerprint)) = [] /\
  snd (fst (smiles_to_fingerprint_features dir_names instantiate
              make_conformers smiles "RDKIT2DDESCRIPTORS" prefix
              kwargs_conformer kwargs_fingerprint)) = [].
Proof. repeat split. Qed.

Lemma kw_update_morgan (d : kwdict) (key : string) :
  dict_get (kw_update d morgan_defaults) key
  = if String.eqb "radius" key then Some (IntArg 4)
    else if String.eqb "fp_size" key then Some (IntArg 1024)
         else dict_get d key.
Proof.
  unfold kw_update, morgan_defaults. cbn [fold_left fst snd].
  now rewrite !dict_get_set.
Qed.

(** X21: the dictionary a caller passes as [kwargs_fingerprint] is
    written to in one case only.  With the encoding [MORGAN_FP] a
    dictionary that is not empty comes back holding [fp_size=1024] and
    [radius=4], its other keys as they were; an empty dictionary, no
    dictionary, and any dictionary with another encoding come back as they
    were passed. *)
Theorem caller_kwargs_after_the_call
    (smiles : list string) (prefix : string)
    (kwargs_conformer : option kwdict) :
  (forall d after,
     d <> [] ->
     snd (smiles_to_fingerprint_features dir_names instantiate
            make_conformers smiles "MORGAN_FP" prefix kwargs_conformer
            (Some d)) = after ->
     after = Some (kw_update d morgan_defaults) /\
     dict_get (kw_update d morgan_defaults) "fp_size"
     = Some (IntArg 1024) /\
     dict_get (kw_update d morgan_defaults) "radius" = Some (IntArg 4) /\
     forall key,
       key <> "fp_size"%string -> key <> "radius"%string ->
       dict_get (kw_update d morgan_defaults) key = dict_get d key) /\
  snd (smiles_to_fingerprint_features dir_names instantiate
         make_conformers smiles "MORGAN_FP" prefix kwargs_conformer
         (Some [])) = Some [] /\
  snd (smiles_to_fingerprint_features dir_names instantiate
         make_conformers smiles "MORGAN_FP" prefix kwargs_conformer
         None) = None /\
  (forall encoding kwargs_fingerprint,
     encoding <> "MORGAN_FP"%string ->
     snd (smiles_to_fingerprint_features dir_names instantiate
            make_conformers smiles encoding prefix kwargs_conformer
            kwargs_fingerprint) = kwargs_fingerprint).
Proof.
  split; [| split; [reflexivity | split; [reflexivity |]]].
  - intros d after Hne <-. split.
    + destruct d as [| kv d]; [contradiction | reflexivity].
    + rewrite !kw_update_morgan. split; [reflexivity |].
      split; [reflexivity |]. intros key Hfp Hradius.
      rewrite kw_update_morgan.
      rewrite (proj2 (String.eqb_neq _ _) (not_eq_sym Hradius)).
      now rewrite (proj2 (String.eqb_neq _ _) (not_eq_sym Hfp)).
  - intros encoding kf Hne. unfold smiles_to_fingerprint_features.
    rewrite (proj2 (String.eqb_neq _ _) Hne).
    destruct (String.eqb encoding "RDKIT"); cbn [snd];
      now destruct kf as [[| kv d] |].
Qed.

Lemma each_returns {A B} (f : A -> outcome B) (l : list A) (bs : list B) :
  each f l = Returns bs -> Forall2 (fun a b => f a = Returns b) l bs.
Proof.
  revert bs. induction l as [| a l IH]; intros bs; simpl.
  - intros [= <-]. constructor.
  - intros H. apply obind_returns in H as (b & Hb & H).
    apply obind_returns in H as (bs' & Hbs & H).
    injection H as <-. constructor; [exact Hb | now apply IH].
Qed.

Lemma concat_of_single_rows {A} (arrays : list (list A)) :
  Forall (fun rows => length rows = 1%nat) arrays ->
  length (concat arrays) = length arrays.
Proof.
  induction 1 as [| rows arrays Hone _ IH]; simpl; [reflexivity |].
  rewrite length_app, Hone, IH. reflexivity.
Qed.

(** X22: a call of [smiles_to_fingerprint_features] that returns gives a
    frame whose column names all begin with the prefix followed by
    [skfp], whose rows have one entry per column name and are labelled
    [0, 1, ...]; when every transformer call gives one row and the
    conformer generator one molecule per SMILES, the frame has one row per
    SMILES.  With no SMILES the call does not return: where no conformers
    are needed, [np.concatenate] raises a [ValueError]. *)
Theorem fingerprint_frame_shape
    (smiles : list string) (encoding prefix : string)
    (kwargs_conformer kwargs_fingerprint : option kwdict) :
  (forall fp,
     fst (fst (smiles_to_fingerprint_features dir_names instantiate
                 make_conformers smiles encoding prefix kwargs_conformer
                 kwargs_fingerprint)) = Returns fp ->
     Forall (fun name => exists rest,
                 name = (prefix ++ "skfp" ++ rest)%string)
            (col_names fp) /\
     Forall (fun row => length (snd row) = length (col_names fp))
            (features fp) /\
     index (features fp) = map Z.of_nat (seq 0 (length (features fp))) /\
     ((forall cls kw e m rows,
         instantiate cls kw = Returns e ->
         transform_one e m = Returns rows -> length rows = 1%nat) ->
      (forall kw l mols,
         make_conformers kw l = Returns mols -> length mols = length l) ->
      length (features fp) = length smiles)) /\
  (smiles = [] ->
   forall cls e,
     encoding <> "MORGAN_FP"%string -> encoding <> "RDKIT"%string ->
     get_fingerprint_class dir_names encoding = Returns cls ->
     instantiate cls
       match kwargs_fingerprint with Some d => d | None => [] end
     = Returns e ->
     requires_conformers e = false ->
     fst (fst (smiles_to_fingerprint_features dir_names instantiate
                 make_conformers smiles encoding prefix kwargs_conformer
                 kwargs_fingerprint))
     = Raises (Builtin (Raise ValueError
                 "need at least one array to concatenate"))).
Proof.
  split.
  - intros fp. unfold smiles_to_fingerprint_features.
    destruct (if String.eqb encoding "MORGAN_FP" then _ else _)
      as [[enc kw] warnings].
    cbn [fst]. intros H.
    apply obind_returns in H as (cls & _ & H).
    apply obind_returns in H as (e & He & H).
    apply obind_returns in H as (mols & Hmols & H).
    apply obind_returns in H as (arrays & Harrays & H).
    apply obind_returns in H as (data & Hdata & H).
    unfold new_frame in H.
    destruct (forallb _ data) eqn:Hwidth; [| discriminate].
    injection H as <-. cbn [col_names features].
    rewrite forallb_forall in Hwidth.
    assert (Hlen : length (map Z.of_nat (seq 0 (length data)))
                   = length data).
    { now rewrite length_map, length_seq. }
    split; [| split; [| split]].
    + apply Forall_forall. intros name Hname.
      apply in_map_iff in Hname as (f & <- & _).
      eexists. rewrite !string_app_assoc. reflexivity.
    + apply Forall_forall. intros [l row] Hrow.
      apply in_combine_r in Hrow. simpl.
      apply Nat.eqb_eq. now apply Hwidth.
    + rewrite length_combine, Hlen, Nat.min_id.
      exact (ColumnTransformsFacts.map_fst_combine _ _ Hlen).
    + intros Hone Hsame.
      rewrite length_combine, Hlen, Nat.min_id.
      unfold np_concatenate in Hdata.
      assert (Hconcat : data = concat arrays).
      { destruct arrays; [discriminate |].
        destruct (same_width _); [| discriminate]. now injection Hdata. }
      subst data. apply each_returns in Harrays.
      assert (Hmols_len : length mols = length smiles).
      { destruct (requires_conformers e).
        - exact (Hsame _ _ _ Hmols).
        - injection Hmols as <-. apply length_map. }
      rewrite concat_of_single_rows.
      * rewrite <- Hmols_len. symmetry.
        exact (Forall2_length Harrays).
      * clear Hwidth Hlen Hmols_len Hmols Hdata.
        induction Harrays as [| m rows mols arrays Hm _ IH];
          constructor; [exact (Hone _ _ _ _ _ He Hm) | exact IH].
  - intros -> cls e Hmorgan Hrdkit Hcls He Hneeds.
    unfold smiles_to_fingerprint_features.
    rewrite (proj2 (String.eqb_neq _ _) Hmorgan).
    rewrite (proj2 (String.eqb_neq _ _) Hrdkit).
    cbn [fst]. rewrite Hcls. cbn [obind]. rewrite He. cbn [obind].
    rewrite Hneeds. reflexivity.
Qed.

End Fingerprints.

(** X19 for a module of three classes. *)
Lemma fingerprint_class_lookup_runs :
  get_fingerprint_class
    ["ECFPFingerprint"; "MACCSFingerprint"; "RDKitFingerprint"]%string
    "RDKITFINGERPRINT" = Returns "RDKitFingerprint"%string /\
  exists cls,
    get_fingerprint_class
      ["ECFPFingerprint"; "MACCSFingerprint"; "RDKitFingerprint"]%string
      "MACCS" = Returns cls.
Proof.
  destruct (fingerprint_class_lookup
              ["ECFPFingerprint"; "MACCSFingerprint"; "RDKitFingerprint"]
              %string "RDKITFINGERPRINT") as (_ & Hspecial & _).
  destruct (fingerprint_class_lookup
              ["ECFPFingerprint"; "MACCSFingerprint"; "RDKitFingerprint"]
              %string "MACCS") as (Hrule & _).
  split.
  - apply Hspecial. simpl. tauto.
  - destruct Hrule as (_ & Hfound & _); [discriminate |].
    apply (Hfound "MACCSFingerprint"%string); [simpl; tauto | reflexivity].
Defined.

(** X21 for a caller that asks for [MORGAN_FP] with [fp_size=2048]. *)
Lemma caller_kwargs_after_the_call_runs :
  snd (smiles_to_fingerprint_features skfp_names two_bits by_name
         ["CCO"%string] "MORGAN_FP" "x_" None
         (Some [("fp_size"%string, IntArg 2048)]))
  = Some [("fp_size"%string, IntArg 1024); ("radius"%string, IntArg 4)].
Proof.
  destruct (caller_kwargs_after_the_call skfp_names two_bits by_name
              ["CCO"%string] "x_"%string None) as (Hwritten & _).
  assert (Hne : [("fp_size"%string, IntArg 2048)] <> []) by discriminate.
  exact (proj1 (Hwritten [("fp_size"%string, IntArg 2048)] _ Hne eq_refl)).
Defined.

(** X22 for two SMILES and the encoding [MACCS], and for no SMILES. *)
Lemma fingerprint_frame_shape_runs :
  (exists fp,
     fst (fst (smiles_to_fingerprint_features skfp_names two_bits by_name
                 ["CCO"; "CC"]%string "MACCS" "x_" None None))
     = Returns fp /\
     length (features fp) = 2%nat) /\
  fst (fst (smiles_to_fingerprint_features skfp_names two_bits by_name
              [] "MACCS" "x_" None None))
  = Raises (Builtin (Raise ValueError
              "need at least one array to concatenate")).
Proof.
  split.
  - destruct (fingerprint_frame_shape skfp_names two_bits by_name
                ["CCO"; "CC"]%string "MACCS" "x_" None None)
      as (Hshape & _).
    exists (MkFingerprints
              ["x_skfpMACCS_0"; "x_skfpMACCS_1"]%string
              [(0, [Fin 1; Fin 0]); (1, [Fin 1; Fin 0])]).
    split; [reflexivity |].
    destruct (Hshape _ eq_refl) as (_ & _ & _ & Hrows).
    apply Hrows.
    + intros cls kw e m rows Hcls Hrow. unfold two_bits in Hcls.
      injection Hcls as <-. simpl in Hrow. now injection Hrow as <-.
    + intros kw l mols Hmols. unfold by_name in Hmols.
      injection Hmols as <-. apply length_map.
  - destruct (fingerprint_frame_shape skfp_names two_bits by_name
                [] "MACCS" "x_" None None) as (_ & Hempty).
    apply (Hempty eq_refl "MACCSFingerprint"%string
             (MkEncoder "MACCSFingerprint" false ["0"; "1"]%string
                (fun _ => Returns [[Fin 1; Fin 0]])));
      [discriminate | discriminate | reflexivity | reflexivity
      | reflexivity].
Defined.

End ChemistryFacts.

(* ===================================================================== *)
(** ** The mean prediction surrogate without a mean *)

Module NaiveMoreFacts.

Import Naive.MeanPredictionSurrogate Inputs.

(** X23: fitted on no targets at all, or on targets one of which is NaN,
    the surrogate predicts NaN as the mean of every candidate; the
    variance stays [1.0] for every candidate, and no exception is
    raised.  This holds for both dtypes and every order of the sum. *)
Theorem targets_without_a_mean
    (target_dtype default_dtype : dtype) (order : nat -> nat -> nat * nat)
    (self : t) (train_x candidates : Tensor2) (train_y : Tensor1) :
  train_y = [] \/ In NaN train_y ->
  _estimate_moments default_dtype
    (_fit target_dtype order self train_x train_y) candidates
  = Ok (repeat NaN (length candidates),
        repeat (Fin 1) (length candidates)).
Proof.
  intros Hbad. unfold _estimate_moments, _fit. cbn [_model].
  rewrite (NaiveFacts.tmean_undefined _ _ _ Hbad).
  now rewrite NaiveFacts.scale_ones.
Qed.

(** X23 for the targets [1, NaN] and two candidates. *)
Lemma targets_without_a_mean_runs :
  _estimate_moments float32
    (_fit float64 index_order new [[Fin 0]; [Fin 1]] [Fin 1; NaN])
    [[Fin 0]; [Fin 5]]
  = Ok ([NaN; NaN], [Fin 1; Fin 1]).
Proof.
  apply (targets_without_a_mean float64 float32 index_order new
           [[Fin 0]; [Fin 1]] [[Fin 0]; [Fin 5]] [Fin 1; NaN]).
  right. simpl. tauto.
Defined.

End NaiveMoreFacts.
